(** * Office-Word-MCP-Server: paragraph editing utilities

    A shallow embedding of [word_document_server/utils/document_utils.py]
    and [word_document_server/utils/extended_document_utils.py], and the
    properties of the range, header, anchor and cross-run operations. *)

From Stdlib Require Import ZArith NArith Lia Ascii String.
From stdpp Require Import base option list strings gmap.

Local Open Scope Z_scope.
Local Open Scope nat_scope.
Local Open Scope list_scope.

(** ** Python values *)

(** A Python [str] is a sequence of Unicode code points: positions and
    lengths count code points. *)
Definition char := N.
Definition text := list char.

(** Character and string literals (of the ASCII repertoire). *)
Definition ch (a : ascii) : char := N_of_ascii a.
Arguments ch : simpl never.
Definition t (s : string) : text := map N_of_ascii (list_ascii_of_string s).

(** The character class and the case maps of ASCII. *)
Definition ascii_space (c : char) : bool :=
  ((9 <=? c) && (c <=? 13) || (28 <=? c) && (c <=? 32))%N.
Definition ascii_upper (c : char) : char :=
  if ((97 <=? c) && (c <=? 122))%N then (c - 32)%N else c.
Definition ascii_lower (c : char) : char :=
  if ((65 <=? c) && (c <=? 90))%N then (c + 32)%N else c.

(** The Unicode tables of the Python runtime are not part of the
    repository; they are parameters of the development:
    - [nfkc] is [unicodedata.normalize("NFKC", s)];
    - [is_space c] is [c.isspace()], the class that [str.split],
      [str.strip] and the [\s] of [re] share;
    - [to_upper c] is [c.upper()], which may be several characters
      ([str.upper] maps character by character);
    - [to_lower before c after] is what [c] becomes in [s.lower()] when
      [before] are the characters of [s] before it, the nearest first, and
      [after] those after it ([str.lower] looks at the neighbours of a
      capital sigma; every other character is mapped by itself).
    What the development uses of the tables: on ASCII they are the ASCII
    class and maps; outside ASCII a case map never yields the empty string,
    no upper-case form is "T" or has "O" or "C" in it, and no lower-case form
    has "t", "o" or "c" in it. *)
Class UnicodeData := {
  nfkc : text -> text;
  is_space : char -> bool;
  to_upper : char -> text;
  to_lower : text -> char -> text -> text;
  is_space_ascii (c : char) : (c < 128)%N -> is_space c = ascii_space c;
  to_upper_ascii (c : char) : (c < 128)%N -> to_upper c = [ascii_upper c];
  to_lower_ascii (before : text) (c : char) (after : text) :
    (c < 128)%N -> to_lower before c after = [ascii_lower c];
  to_upper_other (c : char) :
    (128 <= c)%N ->
    to_upper c <> [] /\ to_upper c <> [ch "T"]
    /\ (ch "O" ∉ to_upper c) /\ (ch "C" ∉ to_upper c);
  to_lower_other (before : text) (c : char) (after : text) :
    (128 <= c)%N ->
    to_lower before c after <> []
    /\ (ch "t" ∉ to_lower before c after)
    /\ (ch "o" ∉ to_lower before c after)
    /\ (ch "c" ∉ to_lower before c after);
}.

(** Faults that the modelled code can raise. *)
Inductive exn : Type :=
  | IndexError
  | KeyError (name : text)
  | ValueError
  | PackageNotFoundError.

(** Results of fallible computations on in-memory values. *)
Inductive res (A : Type) : Type :=
  | Ok (a : A)
  | Raise (e : exn).
Arguments Ok {A} a.
Arguments Raise {A} e.

Definition res_bind {A B} (m : res A) (k : A -> res B) : res B :=
  match m with
  | Ok a => k a
  | Raise e => Raise e
  end.

Module PyStr.

Section Unicode.
Context `{UnicodeData}.

(** [c.isspace()] *)
Definition isspace (c : char) : bool := is_space c.

(** [s.upper()] *)
Definition upper (s : text) : text := concat (map to_upper s).

(** [s.lower()]; [before] holds the characters already passed, the nearest
    first. *)
Fixpoint lower_from (before : text) (s : text) : text :=
  match s with
  | [] => []
  | c :: after => to_lower before c after ++ lower_from (c :: before) after
  end.
Definition lower (s : text) : text := lower_from [] s.

(** [s.strip()] *)
Fixpoint lstrip (s : text) : text :=
  match s with
  | c :: s' => if isspace c then lstrip s' else s
  | [] => []
  end.
Definition strip (s : text) : text := rev (lstrip (rev (lstrip s))).

(** [re.sub(r'\s+', ' ', s)]: [in_ws] tells that the previous character was
    whitespace, so that a run of whitespace yields one space. *)
Fixpoint collapse_ws (in_ws : bool) (s : text) : text :=
  match s with
  | [] => []
  | c :: s' =>
      if isspace c
      then (if in_ws then collapse_ws true s' else ch " " :: collapse_ws true s')
      else c :: collapse_ws false s'
  end.

(** [s.split()]: the maximal runs of non-whitespace characters, in order.
    [cur] is the word being read, reversed. *)
Fixpoint split_from (cur : text) (s : text) : list text :=
  match s with
  | [] => match cur with [] => [] | _ => [rev cur] end
  | c :: s' =>
      if isspace c
      then match cur with [] => split_from [] s' | _ => rev cur :: split_from [] s' end
      else split_from (c :: cur) s'
  end.
Definition split (s : text) : list text := split_from [] s.

End Unicode.

(** [a == b] on strings *)
Definition eqb (a b : text) : bool := bool_decide (a = b).

(** [s.startswith(p)] *)
Fixpoint startswith (s p : text) {struct p} : bool :=
  match p, s with
  | [], _ => true
  | _ :: _, [] => false
  | c :: p', d :: s' => bool_decide (c = d) && startswith s' p'
  end.

(** [s.find(sub)]: the lowest index at which [sub] occurs, [None] for -1. *)
Fixpoint find (s sub : text) : option nat :=
  if startswith s sub then Some 0
  else match s with
       | [] => None
       | _ :: s' => S <$> find s' sub
       end.

(** [s.find(sub, start)] for [start >= 0]. *)
Definition find_from (s sub : text) (start : nat) : option nat :=
  if start <=? length s then (fun k => start + k) <$> find (drop start s) sub
  else None.

(** [sub in s] *)
Definition contains (s sub : text) : bool := bool_decide (is_Some (find s sub)).

(** [l[i]] for a Python integer [i]: negative indices count from the end,
    out of range raises [IndexError]. *)
Definition index {A} (l : list A) (i : Z) : res A :=
  let n := Z.of_nat (length l) in
  let j := if (i <? 0)%Z then (n + i)%Z else i in
  if (j <? 0)%Z then Raise IndexError
  else match l !! Z.to_nat j with
       | Some x => Ok x
       | None => Raise IndexError
       end.

(** [range(lo, hi)] and [range(hi, lo - 1, -1)] *)
Definition range (lo hi : Z) : list Z :=
  map (fun k => (lo + Z.of_nat k)%Z) (seq 0 (Z.to_nat (hi - lo))).
Definition range_down (hi lo : Z) : list Z :=
  map (fun k => (hi - Z.of_nat k)%Z) (seq 0 (Z.to_nat (hi - lo + 1))).

End PyStr.

(** [_normalize_text]: NFKC normalize, collapse whitespace, strip. *)
Definition _normalize_text `{UnicodeData} (s : text) : text :=
  let s := nfkc s in
  let s := PyStr.collapse_ws false s in
  PyStr.strip s.

(** ** Documents *)

(** Character formatting of a run: the [w:rPr] children that the code reads.
    [None] is an absent element. *)
Record RunFormat := {
  f_bold : option bool;
  f_italic : option bool;
  f_caps : option bool;
  f_size : option N;
}.

Definition plain : RunFormat :=
  {| f_bold := None; f_italic := None; f_caps := None; f_size := None |}.

(** A run: its text, as [run.text] reads and writes it, and its
    formatting.  The tab and break elements of a run, which [run.text] shows
    as characters, are not told apart from the characters of its text. *)
Record Run := { r_text : text; r_fmt : RunFormat }.

(** The children of a [w:p] element that hold text: a run ([w:r]) or a
    hyperlink ([w:hyperlink]) with runs of its own. *)
Inductive Inline : Type :=
  | IRun (r : Run)
  | ILink (runs : list Run).

(** A paragraph: its style name ([None] when [para.style] is falsy) and its
    content. *)
Record Paragraph := { p_style : option text; p_items : list Inline }.

(** [para.runs]: the runs that are children of the paragraph; the runs of a
    hyperlink are not among them. *)
Definition inline_run (i : Inline) : option Run :=
  match i with
  | IRun r => Some r
  | ILink _ => None
  end.
Definition p_runs (p : Paragraph) : list Run := omap inline_run (p_items p).

(** [para.text]: the text of the runs and of the hyperlinks, in order. *)
Definition inline_text (i : Inline) : text :=
  match i with
  | IRun r => r_text r
  | ILink runs => concat (map r_text runs)
  end.
Definition para_text (p : Paragraph) : text := concat (map inline_text (p_items p)).

(** All the [w:r] elements below the paragraph ([el.iter()]). *)
Definition inline_runs (i : Inline) : list Run :=
  match i with
  | IRun r => [r]
  | ILink runs => runs
  end.
Definition all_runs (p : Paragraph) : list Run := concat (map inline_runs (p_items p)).

(** A paragraph that holds these runs and nothing else. *)
Definition of_runs (style : option text) (runs : list Run) : Paragraph :=
  {| p_style := style; p_items := map IRun runs |}.

(** [run.text = s] at index [ri] of [para.runs]: the run keeps its formatting. *)
Definition set_run_text (ri : nat) (s : text) (runs : list Run) : list Run :=
  alter (fun r => {| r_text := s; r_fmt := r_fmt r |}) ri runs.

(** The elements of [para.runs] are the runs of the paragraph themselves: an
    assignment to one of them changes the paragraph.  [with_runs items runs]
    is the content in which the runs stand as [runs] has them, each in its
    place, and the hyperlinks as before. *)
Fixpoint with_runs (items : list Inline) (runs : list Run) : list Inline :=
  match items with
  | [] => []
  | IRun r :: rest =>
      match runs with
      | r' :: runs' => IRun r' :: with_runs rest runs'
      | [] => IRun r :: with_runs rest []
      end
  | ILink l :: rest => ILink l :: with_runs rest runs
  end.
Definition set_runs (p : Paragraph) (runs : list Run) : Paragraph :=
  {| p_style := p_style p; p_items := with_runs (p_items p) runs |}.

(** ** Cross-run replacement *)

(** The character-to-run map of [_replace_in_paragraph]: one entry
    [(run_index, offset_in_run)] per character of the paragraph text. *)
Fixpoint char_map_from (ri : nat) (runs : list Run) : list (nat * nat) :=
  match runs with
  | [] => []
  | run :: rest =>
      map (fun ci => (ri, ci)) (seq 0 (length (r_text run)))
        ++ char_map_from (S ri) rest
  end.
Definition char_map (runs : list Run) : list (nat * nat) := char_map_from 0 runs.

(** What one pass through the body of the [while] loop does. *)
Inductive step : Type :=
  | Break                    (* a [break] statement was reached *)
  | Next (para : Paragraph)  (* the body ran to its end; [count += 1] *)
  | Fault (e : exn).         (* the body raised *)

(** [for ri in range(start_ri + 1, end_ri): runs[ri].text = ""] *)
Definition clear_runs (start_ri end_ri : nat) (runs : list Run) : list Run :=
  foldl (fun rs ri => set_run_text ri [] rs) runs
        (seq (S start_ri) (end_ri - S start_ri)).

(** The body of the loop of [_replace_in_paragraph]. *)
Definition replace_body (para : Paragraph) (old_text new_text : text) : step :=
  let full_text := para_text para in
  match PyStr.find full_text old_text with
  | None => Break
  | Some start =>
      let end_ := start + length old_text in
      let runs := p_runs para in
      match runs with
      | [] => Break
      | _ =>
          let cm := char_map runs in
          if length cm <? end_ then Break
          else
            match PyStr.index cm (Z.of_nat start),
                  PyStr.index cm (Z.of_nat end_ - 1)%Z with
            | Ok (start_ri, start_ci), Ok (end_ri, end_ci) =>
                match runs !! start_ri, runs !! end_ri with
                | Some first, Some last =>
                    if start_ri =? end_ri then
                      (* single-run replacement *)
                      Next (set_runs para
                              (set_run_text start_ri
                                 (take start_ci (r_text first) ++ new_text
                                    ++ drop (end_ci + 1) (r_text first)) runs))
                    else
                      (* multi-run replacement *)
                      let runs1 :=
                        set_run_text start_ri
                          (take start_ci (r_text first) ++ new_text) runs in
                      let runs2 := clear_runs start_ri end_ri runs1 in
                      let runs3 :=
                        set_run_text end_ri (drop (end_ci + 1) (r_text last)) runs2 in
                      Next (set_runs para runs3)
                | _, _ => Fault IndexError
                end
            | Raise e, _ => Fault e
            | _, Raise e => Fault e
            end
      end
  end.

(** [_replace_in_paragraph]: the [while old_text in para.text] loop.  The
    result is [None] when [fuel] passes through the loop do not end it;
    otherwise the count and the paragraph as the loop left it, or the fault. *)
Fixpoint _replace_in_paragraph_loop (fuel : nat) (para : Paragraph)
    (old_text new_text : text) (count : nat) : option (res (nat * Paragraph)) :=
  match fuel with
  | 0 => None
  | S fuel' =>
      if PyStr.contains (para_text para) old_text then
        match replace_body para old_text new_text with
        | Break => Some (Ok (count, para))
        | Next para' =>
            _replace_in_paragraph_loop fuel' para' old_text new_text (count + 1)
        | Fault e => Some (Raise e)
        end
      else Some (Ok (count, para))
  end.

Definition _replace_in_paragraph (fuel : nat) (para : Paragraph)
    (old_text new_text : text) : option (res (nat * Paragraph)) :=
  _replace_in_paragraph_loop fuel para old_text new_text 0.


(** ** The document tree *)

(** A table: rows of cells, each cell a sequence of paragraphs. *)
Definition Table := list (list (list Paragraph)).

(** The children of the body element: paragraphs ([w:p]), tables ([w:tbl])
    and the section properties ([w:sectPr]) that close a body. *)
Inductive Element : Type :=
  | EPara (p : Paragraph)
  | ETable (tb : Table)
  | ESectPr.

(** A style of the styles part: the name as the part stores it ([w:name]),
    the style id ([w:styleId]), the type of the style, and whether it is
    marked as the default of its type. *)
Inductive StyleType : Type :=
  | ParagraphStyle
  | CharacterStyle
  | TableStyle
  | ListStyle.

Record Style := {
  s_name : text;
  s_id : text;
  s_type : StyleType;
  s_default : bool;
}.

#[global] Instance StyleType_eq_dec : EqDecision StyleType.
Proof. solve_decision. Defined.

(** What a .docx file holds, as far as the code reads it: the body and the
    styles the document defines, in the order of the styles part. *)
Record Content := { c_body : list Element; c_styles : list Style }.

(** A file is a package that [Document(path)] can open, or anything else. *)
Inductive File : Type :=
  | Docx (c : Content)
  | Corrupt.

(** The file system: the files that exist, by path. *)
Abbreviation FS := (gmap string File).

(** The in-memory tree of an opened document.  The code keeps references to
    elements across removals and insertions, so every node has an identity
    [n_id]; [next_id] is the first identity that is not in use. *)
Record Node := { n_id : nat; n_el : Element }.
Record Doc := { body : list Node; styles : list Style; next_id : nat }.

Definition load (c : Content) : Doc :=
  {| body := imap (fun i e => {| n_id := i; n_el := e |}) (c_body c);
     styles := c_styles c;
     next_id := length (c_body c) |}.

Definition content_of (doc : Doc) : Content :=
  {| c_body := map n_el (body doc); c_styles := styles doc |}.

(** The paragraph, or the table, that an element is. *)
Definition el_para (e : Element) : option Paragraph :=
  match e with
  | EPara p => Some p
  | _ => None
  end.
Definition el_table (e : Element) : option Table :=
  match e with
  | ETable tb => Some tb
  | _ => None
  end.

(** What a reader of the file finds in [Document(path).paragraphs] and in
    [Document(path).tables]. *)
Definition doc_paragraphs (c : Content) : list Paragraph := omap el_para (c_body c).
Definition doc_tables (c : Content) : list Table := omap el_table (c_body c).

(** [doc.paragraphs]: the paragraphs that are children of the body, each
    with the identity of its element. *)
Definition para_of_node (n : Node) : option (nat * Paragraph) :=
  match n_el n with
  | EPara p => Some (n_id n, p)
  | _ => None
  end.
Definition paragraphs (doc : Doc) : list (nat * Paragraph) :=
  omap para_of_node (body doc).

(** [doc.tables] *)
Definition table_of_node (n : Node) : option (nat * Table) :=
  match n_el n with
  | ETable tb => Some (n_id n, tb)
  | _ => None
  end.
Definition tables (doc : Doc) : list (nat * Table) :=
  omap table_of_node (body doc).

Definition with_body (doc : Doc) (b : list Node) : Doc :=
  {| body := b; styles := styles doc; next_id := next_id doc |}.

(** [el.getparent().remove(el)] / [body.remove(el)] *)
Definition remove_node (id : nat) (b : list Node) : list Node :=
  filter (fun n => n_id n ≠ id) b.

(** [anchor.addnext(n)] on a body from which [n] has been unlinked: [n]
    becomes the sibling after [anchor].  When [anchor] is itself no longer in
    the body, [n] follows it out of the tree. *)
Fixpoint link_after (anchor : nat) (n : Node) (b : list Node) : list Node :=
  match b with
  | [] => []
  | x :: rest =>
      if decide (n_id x = anchor) then x :: n :: rest
      else x :: link_after anchor n rest
  end.

(** lxml moves an element that already has a parent. *)
Definition addnext (anchor : nat) (n : Node) (b : list Node) : list Node :=
  link_after anchor n (remove_node (n_id n) b).

(** [body.insert(0, n)] *)
Definition insert_first (n : Node) (b : list Node) : list Node :=
  n :: remove_node (n_id n) b.

(** Where python-docx puts a new body paragraph: before the section
    properties, at the end when there are none. *)
Fixpoint insert_before_sectPr (n : Node) (b : list Node) : list Node :=
  match b with
  | [] => [n]
  | x :: rest =>
      match n_el x with
      | ESectPr => n :: x :: rest
      | _ => x :: insert_before_sectPr n rest
      end
  end.

(** *** Styles by name *)

(** python-docx shows some built-in style names in another spelling than the
    styles part stores: its table of aliases, and the two translations. *)
Module BabelFish.

Definition style_aliases : list (text * text) :=
  [ (t "Caption", t "caption"); (t "Footer", t "footer"); (t "Header", t "header");
    (t "Heading 1", t "heading 1"); (t "Heading 2", t "heading 2");
    (t "Heading 3", t "heading 3"); (t "Heading 4", t "heading 4");
    (t "Heading 5", t "heading 5"); (t "Heading 6", t "heading 6");
    (t "Heading 7", t "heading 7"); (t "Heading 8", t "heading 8");
    (t "Heading 9", t "heading 9") ].

Definition ui2internal (ui_style_name : text) : text :=
  match list_find (fun a => fst a = ui_style_name) style_aliases with
  | Some (_, a) => snd a
  | None => ui_style_name
  end.

Definition internal2ui (internal_style_name : text) : text :=
  match list_find (fun a => snd a = internal_style_name) style_aliases with
  | Some (_, a) => fst a
  | None => internal_style_name
  end.

End BabelFish.

(** [style.name] *)
Definition style_name (st : Style) : text := BabelFish.internal2ui (s_name st).

(** The first style with a stored name, or with a style id; a style is
    given with its place in the styles part, which tells it from every
    other. *)
Definition get_by_name (styles : list Style) (name : text) : option (nat * Style) :=
  list_find (fun st => s_name st = name) styles.
Definition get_by_id (styles : list Style) (id : text) : option (nat * Style) :=
  list_find (fun st => s_id st = id) styles.

(** [doc.styles[key]]: the style of that name, else the style of that id,
    else [KeyError]. *)
Definition styles_getitem (styles : list Style) (key : text) : res (nat * Style) :=
  match get_by_name styles (BabelFish.ui2internal key) with
  | Some r => Ok r
  | None =>
      match get_by_id styles key with
      | Some r => Ok r
      | None => Raise (KeyError key)
      end
  end.

(** The default paragraph style: the last paragraph style that is marked as
    default, if there is one. *)
Definition default_paragraph_style (styles : list Style) : option (nat * Style) :=
  last (filter (fun r => s_type (snd r) = ParagraphStyle ∧ s_default (snd r) = true)
          (imap (fun i st => (i, st)) styles)).

(** The [w:pStyle] that [paragraph.style = style] writes: [ValueError] for a
    style of another type, nothing for the default paragraph style, else the
    id of the style. *)
Definition paragraph_style_id (styles : list Style) (r : nat * Style)
  : res (option text) :=
  if bool_decide (s_type (snd r) = ParagraphStyle) then
    if bool_decide (fst <$> default_paragraph_style styles = Some (fst r))
    then Ok None
    else Ok (Some (s_id (snd r)))
  else Raise ValueError.

(** [paragraph.style] for a paragraph with that [w:pStyle]: the first style
    with the id if it is a paragraph style, else the default paragraph
    style. *)
Definition paragraph_style (styles : list Style) (id : option text) : option Style :=
  match id with
  | None => snd <$> default_paragraph_style styles
  | Some id =>
      match get_by_id styles id with
      | Some (_, st) =>
          if bool_decide (s_type st = ParagraphStyle) then Some st
          else snd <$> default_paragraph_style styles
      | None => snd <$> default_paragraph_style styles
      end
  end.

(** [paragraph.style = key] for a string [key], and the style name that the
    paragraph shows afterwards ([None] when [paragraph.style] is then
    [None]). *)
Definition assign_style (styles : list Style) (key : text) : res (option text) :=
  res_bind (styles_getitem styles key) (fun r =>
  res_bind (paragraph_style_id styles r) (fun id =>
  Ok (style_name <$> paragraph_style styles id))).

(** The paragraph that [add_paragraph(text, style)] builds: a run is added
    only for a non-empty text. *)
Definition new_paragraph (txt : text) (style : option text) : Paragraph :=
  of_runs style
    match txt with
    | [] => []
    | _ => [{| r_text := txt; r_fmt := plain |}]
    end.

(** [doc.add_paragraph(text, style=style)] for a string [style]: the
    paragraph is appended to the body, then the style is assigned, which
    raises for a string that [doc.styles] does not resolve to a paragraph
    style. *)
Definition add_paragraph (doc : Doc) (txt : text) (style : text) : res (Doc * Node) :=
  res_bind (assign_style (styles doc) style) (fun name =>
    let n := {| n_id := next_id doc; n_el := EPara (new_paragraph txt name) |} in
    Ok ({| body := insert_before_sectPr n (body doc);
           styles := styles doc;
           next_id := S (next_id doc) |}, n)).

(** ** Operations on files *)

(** A computation that reads and writes the file system and may raise.  The
    file system is threaded through a fault: what was saved stays saved. *)
Definition M (A : Type) : Type := FS -> res A * FS.

Definition ret {A} (a : A) : M A := fun fs => (Ok a, fs).
Definition throw {A} (e : exn) : M A := fun fs => (Raise e, fs).
Definition bind {A B} (m : M A) (k : A -> M B) : M B :=
  fun fs => match m fs with
            | (Ok a, fs') => k a fs'
            | (Raise e, fs') => (Raise e, fs')
            end.
Definition lift {A} (r : res A) : M A := fun fs => (r, fs).

(** [try: body  except Exception as e: return handler(e)] *)
Definition try_except {A} (m : M A) (handler : exn -> A) : M A :=
  fun fs => match m fs with
            | (Ok a, fs') => (Ok a, fs')
            | (Raise e, fs') => (Ok (handler e), fs')
            end.

Notation "x <~ m ;; k" := (bind m (fun x => k))
  (at level 100, m at next level, right associativity).

(** [os.path.exists(doc_path)] *)
Definition path_exists (doc_path : string) : M bool :=
  fun fs => (Ok (bool_decide (is_Some (fs !! doc_path))), fs).

(** [Document(doc_path)] *)
Definition Document (doc_path : string) : M Doc :=
  fun fs => match fs !! doc_path with
            | Some (Docx c) => (Ok (load c), fs)
            | _ => (Raise PackageNotFoundError, fs)
            end.

(** [doc.save(doc_path)] *)
Definition save (doc : Doc) (doc_path : string) : M unit :=
  fun fs => (Ok tt, <[doc_path := Docx (content_of doc)]> fs).

(** [len(l)] as a Python integer. *)
Definition len {A} (l : list A) : Z := Z.of_nat (length l).

(** The name of the operation in a "Failed to ..." message. *)
Inductive op_name : Type :=
  | OpReplaceRange
  | OpDeleteRange
  | OpSearch.

(** The strings the operations return.  The f-strings are kept apart by
    constructor, with the values they interpolate. *)
Inductive message : Type :=
  | MsgDoesNotExist (doc_path : string)
      (* "Document {doc_path} does not exist" *)
  | MsgErrorDoesNotExist (doc_path : string)
      (* "Error: Document {doc_path} does not exist" *)
  | MsgDocNotFound (doc_path : string)
      (* "Document {doc_path} not found." *)
  | MsgInvalidRange (start_index end_index total : Z)
      (* "Invalid range [{start_index}, {end_index}]. Document has ..." *)
  | MsgFailed (op : op_name) (e : exn)
      (* "Failed to replace paragraph range: {str(e)}",
         "Error: Failed to delete paragraph range: {str(e)}" *)
  | MsgReplacedRange (removed start_index end_index : Z) (n_new : nat)
      (* "Replaced {removed} paragraph(s) (indices ...) with {n} new paragraph(s)." *)
  | MsgErrorStartNegative (start_index : Z)
      (* "Error: start_index ({start_index}) must be >= 0" *)
  | MsgErrorEndExceeds (end_index total : Z)
      (* "Error: end_index ({end_index}) exceeds paragraph count ({total})" *)
  | MsgErrorStartAfterEnd (start_index end_index : Z)
      (* "Error: start_index ({start_index}) > end_index ({end_index})" *)
  | MsgDeleted (count start_index end_index : Z)
      (* "Successfully deleted {count} paragraph(s) (indices ...)." *)
  | MsgHeaderNotFound (header_text : text)
      (* "Header '{header_text}' not found in document." *)
  | MsgReplacedUnder (header_text : text) (n_new : nat) (style : text) (removed : nat)
      (* "Replaced content under '...' with {n} paragraph(s), style: ..., removed {k} elements." *)
  | MsgStartAnchorNotFound (start_anchor_text : text)
      (* "Start anchor '{start_anchor_text}' not found." *)
  | MsgStartAnchorLost (start_anchor_text : text)
      (* "Start anchor '{start_anchor_text}' not found after deletion (unexpected)." *)
  | MsgReplacedBetween (start_anchor_text : text) (end_anchor_text : option text)
      (n_new : nat) (style : text) (removed : nat).
      (* "Replaced content between '...' and '...' with {n} paragraph(s), style: ..., removed {k} elements." *)

(** The messages that report success; every other message is a failure
    result. *)
Definition is_success (m : message) : bool :=
  match m with
  | MsgReplacedRange _ _ _ _ | MsgDeleted _ _ _ | MsgReplacedUnder _ _ _ _
  | MsgReplacedBetween _ _ _ _ _ => true
  | _ => false
  end.

(** A loop over a list whose body may raise. *)
Fixpoint for_each {A S} (l : list A) (body : S -> A -> res S) (s : S) : res S :=
  match l with
  | [] => Ok s
  | x :: rest => res_bind (body s x) (for_each rest body)
  end.

(** [p = doc.paragraphs[i]._p; p.getparent().remove(p)] *)
Definition remove_paragraph_at (doc : Doc) (i : Z) : res Doc :=
  res_bind (PyStr.index (paragraphs doc) i)
    (fun p => Ok (with_body doc (remove_node (fst p) (body doc)))).

(** [for i in range(end_index, start_index - 1, -1): ...remove...] *)
Definition remove_range (doc : Doc) (start_index end_index : Z) : res Doc :=
  for_each (PyStr.range_down end_index start_index) remove_paragraph_at doc.

(** [delete_paragraph_range] *)
Definition delete_paragraph_range (doc_path : string) (start_index end_index : Z)
  : M message :=
  ex <~ path_exists doc_path;;
  if negb ex then ret (MsgErrorDoesNotExist doc_path)
  else
    try_except
      (doc <~ Document doc_path;;
       let total := len (paragraphs doc) in
       if (start_index <? 0)%Z then ret (MsgErrorStartNegative start_index)
       else if (end_index >=? total)%Z then ret (MsgErrorEndExceeds end_index total)
       else if (start_index >? end_index)%Z
       then ret (MsgErrorStartAfterEnd start_index end_index)
       else
         doc <~ lift (remove_range doc start_index end_index);;
         _ <~ save doc doc_path;;
         let count := (end_index - start_index + 1)%Z in
         ret (MsgDeleted count start_index end_index))
      (MsgFailed OpDeleteRange).

(** Python truthiness of an optional string argument: [None] and [""] are
    false. *)
Definition truthy (s : option text) : bool :=
  match s with
  | Some (_ :: _) => true
  | _ => false
  end.

(** The insertion loop of [replace_paragraph_range]: [prev_element] is the
    identity of the element to insert after, [None] for the start of the
    body. *)
Definition insert_new_paragraph (style_to_use : text)
    (st : Doc * option nat) (txt : text) : res (Doc * option nat) :=
  let (doc, prev_element) := st in
  res_bind (add_paragraph doc txt style_to_use) (fun r =>
    let (doc, new_para) := r in
    (* body.remove(new_p_element) *)
    let b := remove_node (n_id new_para) (body doc) in
    let b := match prev_element with
             | Some prev => addnext prev new_para b
             | None => insert_first new_para b
             end in
    Ok (with_body doc b, Some (n_id new_para))).

(** [replace_paragraph_range] *)
Definition replace_paragraph_range (doc_path : string) (start_index end_index : Z)
    (new_paragraphs : list text) (style : option text) (preserve_style : bool)
  : M message :=
  ex <~ path_exists doc_path;;
  if negb ex then ret (MsgDoesNotExist doc_path)
  else
    try_except
      (doc <~ Document doc_path;;
       let total := len (paragraphs doc) in
       if (start_index <? 0)%Z || (end_index >=? total)%Z
          || (start_index >? end_index)%Z
       then ret (MsgInvalidRange start_index end_index total)
       else
         style_to_use <~
           (if truthy style then ret (default [] style)
            else if preserve_style then
              p <~ lift (PyStr.index (paragraphs doc) start_index);;
              ret (default (t "Normal") (p_style (snd p)))
            else ret (t "Normal"));;
         anchor_element <~
           (if (start_index >? 0)%Z then
              p <~ lift (PyStr.index (paragraphs doc) (start_index - 1));;
              ret (Some (fst p))
            else ret None);;
         doc <~ lift (remove_range doc start_index end_index);;
         st <~ lift (for_each new_paragraphs (insert_new_paragraph style_to_use)
                       (doc, anchor_element));;
         _ <~ save (fst st) doc_path;;
         let removed := (end_index - start_index + 1)%Z in
         ret (MsgReplacedRange removed start_index end_index (length new_paragraphs)))
      (MsgFailed OpReplaceRange).

(** ** Headers *)

(** [is_toc_paragraph] *)
Definition is_toc_paragraph `{UnicodeData} (para : Paragraph) : bool :=
  match p_style para with
  | Some name => PyStr.startswith (PyStr.upper name) (t "TOC")
  | None => false
  end.

(** [is_heading_paragraph] *)
Definition is_heading_paragraph `{UnicodeData} (para : Paragraph) : bool :=
  match p_style para with
  | Some name => PyStr.startswith (PyStr.lower name) (t "heading")
  | None => false
  end.

(** [para.style and para.style.name.lower().startswith(('heading', 'título', 'toc'))].
    The second prefix has a character outside ASCII, the i with acute accent
    (U+00ED). *)
Definition ends_block `{UnicodeData} (para : Paragraph) : bool :=
  match p_style para with
  | Some name =>
      let n := PyStr.lower name in
      PyStr.startswith n (t "heading")
      || PyStr.startswith n (t "t" ++ [237%N] ++ t "tulo")
      || PyStr.startswith n (t "toc")
  | None => false
  end.

(** [for i, x in enumerate(l): if cond(x): found = i; break] *)
Definition first_match {A} (cond : A -> bool) (l : list A) : option (nat * A) :=
  list_find (fun x => Is_true (cond x)) l.

Section Headers.
Context `{UnicodeData}.

(** [_normalize_text(para.text).lower() == normalized_header] *)
Definition exact_header (normalized_header : text) (para : Paragraph) : bool :=
  PyStr.eqb (PyStr.lower (_normalize_text (para_text para))) normalized_header.

(** [normalized_header in _normalize_text(para.text).lower()] *)
Definition contains_header (normalized_header : text) (para : Paragraph) : bool :=
  PyStr.contains (PyStr.lower (_normalize_text (para_text para))) normalized_header.

(** The header search of [delete_block_under_header]: the exact pass, then
    the contains pass over heading-styled paragraphs. *)
Definition find_header_for_delete (paras : list (nat * Paragraph)) (header_text : text)
  : option (nat * (nat * Paragraph)) :=
  let normalized_header := PyStr.lower (_normalize_text header_text) in
  match first_match (fun p => exact_header normalized_header (snd p)) paras with
  | Some r => Some r
  | None =>
      first_match (fun p => is_heading_paragraph (snd p)
                            && contains_header normalized_header (snd p)) paras
  end.

(** The header search of [replace_paragraph_block_below_header]: the same
    two passes, each one skipping the TOC paragraphs. *)
Definition find_header_for_replace (paras : list (nat * Paragraph)) (header_text : text)
  : option (nat * (nat * Paragraph)) :=
  let normalized_header := PyStr.lower (_normalize_text header_text) in
  match first_match (fun p => negb (is_toc_paragraph (snd p))
                              && exact_header normalized_header (snd p)) paras with
  | Some r => Some r
  | None =>
      first_match (fun p => negb (is_toc_paragraph (snd p))
                            && (is_heading_paragraph (snd p)
                                && contains_header normalized_header (snd p))) paras
  end.

(** The removal loop of [delete_block_under_header]:
    [for i in range(header_idx + 1, end_idx):
        if i < len(doc.paragraphs): remove doc.paragraphs[header_idx + 1]] *)
Definition remove_below (header_idx : nat) (st : Doc * nat) (i : Z) : res (Doc * nat) :=
  let (doc, removed_count) := st in
  if (i <? len (paragraphs doc))%Z then
    res_bind (remove_paragraph_at doc (Z.of_nat header_idx + 1))
      (fun doc => Ok (doc, removed_count + 1))
  else Ok (doc, removed_count).

(** [delete_block_under_header]: the identity of the header element
    ([None] when no header was found), the count of removed paragraphs, and
    the tree after the removals. *)
Definition delete_block_under_header (doc : Doc) (header_text : text)
  : res (Doc * option nat * nat) :=
  match find_header_for_delete (paragraphs doc) header_text with
  | None => Ok (doc, None, 0)
  | Some (header_idx, (header_para, _)) =>
      let end_idx :=
        match first_match (fun p => ends_block (snd p))
                (drop (header_idx + 1) (paragraphs doc)) with
        | Some (k, _) => Z.of_nat (header_idx + 1 + k)
        | None => len (paragraphs doc)
        end in
      res_bind
        (for_each (PyStr.range (Z.of_nat header_idx + 1) end_idx)
           (remove_below header_idx) (doc, 0))
        (fun st => Ok (fst st, Some header_para, snd st))
  end.

(** The insertion loop of [replace_paragraph_block_below_header] and of
    [replace_block_between_manual_anchors]:
    [new_para = doc.add_paragraph(text, style=style_to_use);
     current_para._element.addnext(new_para._element);
     current_para = new_para] *)
Definition insert_after (style_to_use : text) (st : Doc * nat) (txt : text)
  : res (Doc * nat) :=
  let (doc, current_para) := st in
  res_bind (add_paragraph doc txt style_to_use) (fun r =>
    let (doc, new_para) := r in
    Ok (with_body doc (addnext current_para new_para (body doc)), n_id new_para)).

(** [new_paragraph_style or "Normal"] *)
Definition style_or_normal (new_paragraph_style : option text) : text :=
  if truthy new_paragraph_style then default [] new_paragraph_style else t "Normal".

(** [replace_paragraph_block_below_header].  The function has no [try]:
    what the calls inside raise reaches the caller. *)
Definition replace_paragraph_block_below_header (doc_path : string)
    (header_text : text) (new_paragraphs : list text)
    (new_paragraph_style : option text) : M message :=
  ex <~ path_exists doc_path;;
  if negb ex then ret (MsgDocNotFound doc_path)
  else
    doc <~ Document doc_path;;
    match find_header_for_replace (paragraphs doc) header_text with
    | None => ret (MsgHeaderNotFound header_text)
    | Some (_, (header_para, _)) =>
        r <~ lift (delete_block_under_header doc header_text);;
        let doc := fst (fst r) in
        let removed_count := snd r in
        let style_to_use := style_or_normal new_paragraph_style in
        st <~ lift (for_each new_paragraphs (insert_after style_to_use)
                      (doc, header_para));;
        _ <~ save (fst st) doc_path;;
        ret (MsgReplacedUnder header_text (length new_paragraphs) style_to_use
               removed_count)
    end.

End Headers.

(** ** Anchors *)

Section Anchors.
Context `{UnicodeData}.

(** The text the anchor search reads from a [w:p] element: the text below
    it, joined and stripped. *)
Definition p_text (para : Paragraph) : text := PyStr.strip (para_text para).

(** A caller's [match_fn(p_text, el, is_end=False)]. *)
Definition match_fn_t : Type := text -> Paragraph -> bool -> bool.

(** The paragraph of a body element, if it is one ([el.tag == _W_P]). *)
Definition as_para (n : Node) : option Paragraph :=
  match n_el n with
  | EPara p => Some p
  | _ => None
  end.

Definition on_para (cond : Paragraph -> bool) (n : Node) : bool :=
  match as_para n with
  | Some p => cond p
  | None => false
  end.

(** Pass 1 of an anchor search over [elements]: the caller's [match_fn] if
    there is one, else equality of the normalized texts. *)
Definition anchor_pass1 (match_fn : option match_fn_t) (is_end : bool)
    (anchor_text : text) (para : Paragraph) : bool :=
  match match_fn with
  | Some f => f (p_text para) para is_end
  | None => PyStr.eqb (_normalize_text (p_text para)) (_normalize_text anchor_text)
  end.

(** Pass 2: the normalized anchor occurs in the normalized text. *)
Definition anchor_pass2 (anchor_text : text) (para : Paragraph) : bool :=
  PyStr.contains (_normalize_text (p_text para)) (_normalize_text anchor_text).

(** The two passes over the elements from index [from] on; the result is
    an index into [elements]. *)
Definition find_anchor (match_fn : option match_fn_t) (is_end : bool)
    (anchor_text : text) (from : nat) (elements : list Node) : option nat :=
  let found :=
    match first_match (on_para (anchor_pass1 match_fn is_end anchor_text))
            (drop from elements) with
    | Some r => Some r
    | None =>
        match match_fn with
        | Some _ => None
        | None => first_match (on_para (anchor_pass2 anchor_text)) (drop from elements)
        end
    end in
  (fun r => from + fst r) <$> found.

(** A run with [w:b], [w:caps] or [w:sz] among its properties. *)
Definition distinct_run (r : Run) : bool :=
  bool_decide (is_Some (f_bold (r_fmt r)))
  || bool_decide (is_Some (f_caps (r_fmt r)))
  || bool_decide (is_Some (f_size (r_fmt r))).

(** The heuristic end of the block: the next paragraph with such a run
    anywhere below it. *)
Definition find_distinct (from : nat) (elements : list Node) : option nat :=
  (fun r => from + fst r) <$>
    first_match (on_para (fun p => existsb distinct_run (all_runs p))) (drop from elements).

(** The search for the anchor in the reloaded document, over
    [doc.paragraphs]. *)
Definition refind_anchor (paras : list (nat * Paragraph)) (start_anchor_text : text)
  : option (nat * (nat * Paragraph)) :=
  match first_match
          (fun p => PyStr.eqb (_normalize_text (para_text (snd p)))
                      (_normalize_text start_anchor_text)) paras with
  | Some r => Some r
  | None =>
      first_match
        (fun p => PyStr.contains (_normalize_text (para_text (snd p)))
                    (_normalize_text start_anchor_text)) paras
  end.

(** [replace_block_between_manual_anchors].  No [try] here either. *)
Definition replace_block_between_manual_anchors (doc_path : string)
    (start_anchor_text : text) (new_paragraphs : list text)
    (end_anchor_text : option text) (match_fn : option match_fn_t)
    (new_paragraph_style : option text) : M message :=
  ex <~ path_exists doc_path;;
  if negb ex then ret (MsgDocNotFound doc_path)
  else
    doc <~ Document doc_path;;
    let elements := body doc in
    match find_anchor match_fn false start_anchor_text 0 elements with
    | None => ret (MsgStartAnchorNotFound start_anchor_text)
    | Some start_idx =>
        let end_idx :=
          if truthy end_anchor_text
          then find_anchor match_fn true (default [] end_anchor_text)
                 (start_idx + 1) elements
          else find_distinct (start_idx + 1) elements in
        let stop := default (length elements) end_idx in
        let to_remove := take (stop - (start_idx + 1)) (drop (start_idx + 1) elements) in
        let doc :=
          with_body doc
            (foldl (fun b el => remove_node (n_id el) b) (body doc) to_remove) in
        _ <~ save doc doc_path;;
        (* reload and find the start anchor for the insertion *)
        doc <~ Document doc_path;;
        match refind_anchor (paragraphs doc) start_anchor_text with
        | None => ret (MsgStartAnchorLost start_anchor_text)
        | Some (_, (anchor_para, _)) =>
            let style_to_use := style_or_normal new_paragraph_style in
            st <~ lift (for_each new_paragraphs (insert_after style_to_use)
                          (doc, anchor_para));;
            _ <~ save (fst st) doc_path;;
            ret (MsgReplacedBetween start_anchor_text end_anchor_text
                   (length new_paragraphs) style_to_use (length to_remove))
        end
    end.

End Anchors.

(** ** Search and replace *)

(** A computation that may raise and may fail to end within its fuel. *)
Definition T (A : Type) : Type := option (res A).

Definition T_bind {A B} (m : T A) (k : A -> T B) : T B :=
  match m with
  | Some (Ok a) => k a
  | Some (Raise e) => Some (Raise e)
  | None => None
  end.

(** A loop that visits the items of a list in order, replaces in each and
    adds up the counts. *)
Fixpoint replace_each {X} (f : X -> T (nat * X)) (l : list X) : T (nat * list X) :=
  match l with
  | [] => Some (Ok (0, []))
  | x :: rest =>
      T_bind (f x) (fun r1 =>
      T_bind (replace_each f rest) (fun r2 =>
      Some (Ok (fst r1 + fst r2, snd r1 :: snd r2))))
  end.

(** [para.style and para.style.name.startswith("TOC")] *)
Definition skips_toc (para : Paragraph) : bool :=
  match p_style para with
  | Some name => PyStr.startswith name (t "TOC")
  | None => false
  end.

(** What the loops of [find_and_replace_text] do with one paragraph. *)
Definition replace_in (fuel : nat) (old_text new_text : text) (para : Paragraph)
  : T (nat * Paragraph) :=
  if skips_toc para then Some (Ok (0, para))
  else if PyStr.contains (para_text para) old_text
       then _replace_in_paragraph fuel para old_text new_text
       else Some (Ok (0, para)).

(** [find_and_replace_text]: the body paragraphs first, then the paragraphs
    of the cells of the body tables.  [fuel] bounds the passes through the
    loop of [_replace_in_paragraph] on each paragraph. *)
Definition find_and_replace_text (fuel : nat) (doc : Doc) (old_text new_text : text)
  : T (nat * Doc) :=
  T_bind
    (replace_each
       (fun n => match n_el n with
                 | EPara p =>
                     T_bind (replace_in fuel old_text new_text p) (fun r =>
                       Some (Ok (fst r, {| n_id := n_id n; n_el := EPara (snd r) |})))
                 | _ => Some (Ok (0, n))
                 end) (body doc)) (fun r1 =>
  T_bind
    (replace_each
       (fun n => match n_el n with
                 | ETable tb =>
                     T_bind (replace_each (replace_each (replace_each
                               (replace_in fuel old_text new_text))) tb) (fun r =>
                       Some (Ok (fst r, {| n_id := n_id n; n_el := ETable (snd r) |})))
                 | _ => Some (Ok (0, n))
                 end) (snd r1)) (fun r2 =>
  Some (Ok (fst r1 + fst r2, with_body doc (snd r2))))).

(** Where [find_text] found an occurrence: ["paragraph_index"], or the table,
    row and column of ["location"]. *)
Inductive Location : Type :=
  | InBody (paragraph_index : nat)
  | InTable (table_idx row_idx col_idx : nat).

(** The rest of an occurrence: ["text"] and ["style"], or ["context"]. *)
Inductive Detail : Type :=
  | FullText (txt style : text)
  | Excerpt (context : text).

Record Occurrence := { o_where : Location; o_position : nat; o_detail : Detail }.

Inductive search_result : Type :=
  | SearchError (m : message + unit)
      (* [{"error": ...}]; [inr tt] is "Search text cannot be empty" *)
  | SearchResults (query : text) (match_case whole_word : bool)
      (occurrences : list Occurrence) (total_count : nat).

(** The substring loop: [pos = para_text.find(search_text, start_pos)] until
    -1, with [start_pos = pos + len(search_text)].  [search_text] is not
    empty, so [start_pos] grows and [S (length para_text)] passes are enough. *)
Fixpoint substring_positions (fuel : nat) (para_text search_text : text)
    (start_pos : nat) : list nat :=
  match fuel with
  | 0 => []
  | S fuel' =>
      match PyStr.find_from para_text search_text start_pos with
      | None => []
      | Some pos =>
          pos :: substring_positions fuel' para_text search_text
                   (pos + length search_text)
      end
  end.

(** The whole-word loop: the indices of the words that pass the test. *)
Definition word_positions `{UnicodeData} (match_case : bool) (para_text search_text : text)
  : list nat :=
  let words := PyStr.split para_text in
  fst <$> filter (fun iw => Is_true
                    (PyStr.eqb (snd iw) search_text
                     || (negb match_case
                         && PyStr.eqb (PyStr.lower (snd iw)) (PyStr.lower search_text))))
                 (imap (fun word_idx word => (word_idx, word)) words).

(** The occurrences that [find_text] reports for one paragraph. *)
Definition occurrences_in `{UnicodeData} (place : Location) (para : Paragraph)
    (text_to_find : text)
    (match_case whole_word include_paragraph_text : bool) : list Occurrence :=
  let para_text0 := para_text para in
  let para_text := if match_case then para_text0 else PyStr.lower para_text0 in
  let search_text := if match_case then text_to_find else PyStr.lower text_to_find in
  let positions :=
    if whole_word then word_positions match_case para_text search_text
    else substring_positions (S (length para_text)) para_text search_text 0 in
  let detail :=
    if include_paragraph_text
    then FullText para_text0 (default (t "Normal") (p_style para))
    else Excerpt (take 100 para_text0
                    ++ (if 100 <? length para_text0 then t "..." else [])) in
  (fun pos => {| o_where := place; o_position := pos; o_detail := detail |})
    <$> positions.

(** [find_text] *)
Definition find_text `{UnicodeData} (doc_path : string) (text_to_find : text)
    (match_case whole_word include_paragraph_text : bool) : M search_result :=
  ex <~ path_exists doc_path;;
  if negb ex then ret (SearchError (inl (MsgDoesNotExist doc_path)))
  else
    match text_to_find with
    | [] => ret (SearchError (inr tt))
    | _ =>
        try_except
          (doc <~ Document doc_path;;
           let in_paragraphs :=
             concat (imap (fun i p =>
                       occurrences_in (InBody i) (snd p) text_to_find
                         match_case whole_word include_paragraph_text)
                     (paragraphs doc)) in
           let in_tables :=
             concat (imap (fun table_idx tb =>
               concat (imap (fun row_idx row =>
                 concat (imap (fun col_idx cell =>
                   concat ((fun para =>
                     occurrences_in (InTable table_idx row_idx col_idx) para
                       text_to_find match_case whole_word include_paragraph_text)
                     <$> cell)) row)) (snd tb))) (tables doc)) in
           let occurrences := in_paragraphs ++ in_tables in
           ret (SearchResults text_to_find match_case whole_word occurrences
                  (length occurrences)))
          (fun e => SearchError (inl (MsgFailed OpSearch e)))
    end.

(** ** Sections *)

(** [para.style and para.style.name.startswith("Heading")] *)
Definition is_Heading (para : Paragraph) : bool :=
  match p_style para with
  | Some name => PyStr.startswith name (t "Heading")
  | None => false
  end.

(** The heading search that opens [get_section_paragraphs]: [heading_idx]
    after the exact pass and the substring fallback. *)
Definition section_heading_idx `{UnicodeData} (paras : list (nat * Paragraph))
    (heading_text : text) : option nat :=
  let normalized_search := _normalize_text heading_text in
  match first_match
          (fun p => is_Heading (snd p)
                    && PyStr.eqb (_normalize_text (para_text (snd p))) normalized_search)
          paras with
  | Some r => Some (fst r)
  | None =>
      fst <$> first_match
                (fun p => is_Heading (snd p)
                          && PyStr.contains (_normalize_text (para_text (snd p)))
                               normalized_search) paras
  end.

(** ** Notions used in the statements *)

(** An emptied run: no text, the formatting it had. *)
Definition cleared (r : Run) : Run := {| r_text := []; r_fmt := r_fmt r |}.

(** [r] is what a two-pass search returns on [l]: the first element that
    passes [pass1], or, only when no element passes [pass1], the first one
    that passes [pass2]. *)
Definition two_pass_result {A} (pass1 pass2 : A -> Prop) (l : list A)
    (r : option (nat * A)) : Prop :=
  match r with
  | Some (i, x) =>
      l !! i = Some x
      ∧ ((pass1 x ∧ ∀ j y, j < i → l !! j = Some y → ¬ pass1 y)
         ∨ ((∀ j y, l !! j = Some y → ¬ pass1 y)
            ∧ pass2 x
            ∧ ∀ j y, j < i → l !! j = Some y → ¬ pass2 y))
  | None => ∀ j y, l !! j = Some y → ¬ pass1 y ∧ ¬ pass2 y
  end.

(** [sub] occurs in [s]. *)
Definition occurs_in (sub s : text) : Prop :=
  ∃ before after, s = before ++ sub ++ after.

(** The paragraph has a style, and the name of the style starts with
    [prefix] once [fold] has been applied to it. *)
Definition style_prefix (fold : text -> text) (prefix : text) (p : Paragraph) : Prop :=
  ∃ name rest, p_style p = Some name ∧ fold name = prefix ++ rest.

(** The case folding of [find_text]: none for a case-sensitive search. *)
Definition folded `{UnicodeData} (match_case : bool) (s : text) : text :=
  if match_case then s else PyStr.lower s.

(** The test of the whole-word loop on a word [w] of the paragraph:
    [word == search_text or (not match_case and
     word.lower() == search_text.lower())], where [search_text] is the text
    to find, lower-cased for a search that ignores case. *)
Definition word_matches `{UnicodeData} (match_case : bool) (text_to_find w : text) : Prop :=
  w = folded match_case text_to_find
  ∨ (match_case = false
     ∧ PyStr.lower w = PyStr.lower (folded match_case text_to_find)).

(** The identities of an in-memory tree are distinct and below [next_id]. *)
Definition well_formed (doc : Doc) : Prop :=
  NoDup (n_id <$> body doc) ∧ Forall (fun n => n_id n < next_id doc) (body doc).

(** The bounds of a valid range: [0 <= start_index <= end_index < total]. *)
Definition valid_range (start_index end_index total : Z) : bool :=
  (0 <=? start_index)%Z && (start_index <=? end_index)%Z && (end_index <? total)%Z.

(** The style of the new paragraphs, by the precedence of the specification:
    the explicit [style], else with [preserve_style] the style of the
    paragraph at [start_index], else "Normal". *)
Definition resolved_style (c : Content) (start_index : Z) (style : option text)
    (preserve_style : bool) : text :=
  match style with
  | Some (ch :: rest) => ch :: rest
  | _ =>
      if preserve_style then
        match doc_paragraphs c !! Z.to_nat start_index with
        | Some p => default (t "Normal") (p_style p)
        | None => t "Normal"
        end
      else t "Normal"
  end.

(** The nodes that the insertion loop creates, from [next] on. *)
Fixpoint new_nodes (next : nat) (style : option text) (news : list text) : list Node :=
  match news with
  | [] => []
  | txt :: rest =>
      {| n_id := next; n_el := EPara (new_paragraph txt style) |}
        :: new_nodes (S next) style rest
  end.

(** The paragraphs of a tree, body and table cells. *)
Definition node_paragraphs (n : Node) : list Paragraph :=
  match n_el n with
  | EPara p => [p]
  | ETable tb => concat (concat tb)
  | ESectPr => []
  end.
Definition all_paragraphs (doc : Doc) : list Paragraph :=
  concat (node_paragraphs <$> body doc).


(** ** Sample documents *)

(** The tables restricted to ASCII: NFKC leaves ASCII text as it is, and
    characters outside ASCII are neither whitespace nor letters.  The sample
    documents are ASCII. *)
Definition ascii_only : UnicodeData.
Proof.
  refine {| nfkc s := s;
            is_space := ascii_space;
            to_upper c := [ascii_upper c];
            to_lower _ c _ := [ascii_lower c] |}.
  - reflexivity.
  - reflexivity.
  - reflexivity.
  - intros c Hc. unfold ascii_upper.
    replace ((97 <=? c) && (c <=? 122))%N with false
      by (symmetry; apply andb_false_iff; right; apply N.leb_gt; lia).
    unfold ch; simpl.
    repeat split; try done; rewrite ?list_elem_of_singleton; intros E;
      try injection E as E; lia.
  - intros _ c _ Hc. unfold ascii_lower.
    replace ((65 <=? c) && (c <=? 90))%N with false
      by (symmetry; apply andb_false_iff; right; apply N.leb_gt; lia).
    unfold ch; simpl.
    repeat split; try done; rewrite ?list_elem_of_singleton; intros E; lia.
Defined.

(** Paragraphs of one plain run, with a style known by name. *)
Definition para (style : string) (s : string) : Element :=
  EPara (of_runs (Some (t style))
           match s with
           | EmptyString => []
           | _ => [{| r_text := t s; r_fmt := plain |}]
           end).

(** A paragraph style of the styles part, by stored name and id. *)
Definition a_style (name id : string) (is_default : bool) : Style :=
  {| s_name := t name; s_id := t id; s_type := ParagraphStyle; s_default := is_default |}.

(** A document that defines the styles "Normal" (the default), "Heading 1"
    and "TOC 1". *)
Definition sample (els : list Element) : Content :=
  {| c_body := els;
     c_styles := [a_style "Normal" "Normal" true; a_style "heading 1" "Heading1" false;
                  a_style "TOC 1" "TOC1" false] |}.

(** A file system with one document, "report.docx". *)
Definition on_disk (c : Content) : FS := {[ "report.docx"%string := Docx c ]}.

(** Five paragraphs "A" to "E". *)
Definition abcde : Content :=
  sample [para "Normal" "A"; para "Normal" "B"; para "Normal" "C";
          para "Normal" "D"; para "Normal" "E"].

(** A heading with four paragraphs below it, to the end of the document. *)
Definition one_section : Content :=
  sample [para "Heading 1" "Summary"; para "Normal" "first"; para "Normal" "second";
          para "Normal" "third"; para "Normal" "fourth"].

(** A block between two marker paragraphs, and a [match_fn] that knows the
    markers. *)
Definition marked : Content :=
  sample [para "Normal" "Title"; para "Normal" "## begin"; para "Normal" "old text";
          para "Normal" "## end"; para "Normal" "tail"].
Definition by_marker : text -> Paragraph -> bool -> bool :=
  fun p_text _ is_end =>
    if is_end then PyStr.startswith p_text (t "## end")
    else PyStr.startswith p_text (t "## begin").

(** A table-of-contents entry before the heading it lists. *)
Definition with_toc : Content :=
  sample [para "TOC 1" "Summary"; para "Heading 1" "Summary"; para "Normal" "body"].

(** A paragraph with a word next to punctuation. *)
Definition greeting : Content :=
  sample [para "Normal" "Hello, hello HELLO x hello."].

(** Runs and paragraphs written with string literals. *)
Definition ex_run (s : string) : Run := {| r_text := t s; r_fmt := plain |}.
Definition ex_bold (s : string) : Run :=
  {| r_text := t s;
     r_fmt := {| f_bold := Some true; f_italic := None; f_caps := None; f_size := None |} |}.
Definition ex_para (style : string) (runs : list Run) : Paragraph :=
  of_runs (Some (t style)) runs.

(** "Hello World!" in three runs, the first one bold. *)
Definition hello_world : Paragraph :=
  ex_para "Normal" [ex_bold "Hel"; ex_run "lo Wo"; ex_run "rld!"].

(** A paragraph ["cat" ++ s] in one run. *)
Definition growing (s : text) : Paragraph :=
  of_runs (Some (t "Normal")) [{| r_text := t "cat" ++ s; r_fmt := plain |}].

(** * More of the two modules *)

(** [sep.join(l)] *)
Fixpoint str_join (sep : text) (l : list text) : text :=
  match l with
  | [] => []
  | x :: rest =>
      match rest with
      | [] => x
      | _ => x ++ sep ++ str_join sep rest
      end
  end.

(** ** Reading paragraphs *)

(** The entry that the read operations build for one paragraph:
    ["index"], ["text"], ["style"] and ["is_heading"]. *)
Record ParagraphInfo := {
  i_index : Z;
  i_text : text;
  i_style : text;
  i_is_heading : bool;
}.

Definition paragraph_info (i : Z) (para : Paragraph) : ParagraphInfo :=
  {| i_index := i;
     i_text := para_text para;
     i_style := default (t "Normal") (p_style para);
     i_is_heading := is_Heading para |}.

(** The name of the read operation in a "Failed to ..." entry. *)
Inductive read_op : Type :=
  | OpGetParagraphText
  | OpGetParagraphRange
  | OpGetSection.

(** The [{"error": ...}] results of the read operations. *)
Inductive read_error : Type :=
  | ErrDoesNotExist (doc_path : string)
      (* "Document {doc_path} does not exist" *)
  | ErrInvalidIndex (paragraph_index total : Z)
      (* "Invalid paragraph index: {paragraph_index}. Document has {total} paragraphs." *)
  | ErrStartNegative (start_index : Z)
      (* "start_index ({start_index}) must be >= 0" *)
  | ErrEndExceeds (end_index total : Z)
      (* "end_index ({end_index}) exceeds paragraph count ({total})" *)
  | ErrStartAfterEnd (start_index end_index : Z)
      (* "start_index ({start_index}) > end_index ({end_index})" *)
  | ErrHeadingNotFound (heading_text : text)
      (* "Heading '{heading_text}' not found in document" *)
  | ErrFailed (op : read_op) (e : exn).
      (* "Failed to get paragraph text: {str(e)}" and the like *)

(** [get_paragraph_text] *)
Definition get_paragraph_text (doc_path : string) (paragraph_index : Z)
  : M (read_error + ParagraphInfo) :=
  ex <~ path_exists doc_path;;
  if negb ex then ret (inl (ErrDoesNotExist doc_path))
  else
    try_except
      (doc <~ Document doc_path;;
       if (paragraph_index <? 0)%Z || (paragraph_index >=? len (paragraphs doc))%Z
       then ret (inl (ErrInvalidIndex paragraph_index (len (paragraphs doc))))
       else
         paragraph <~ lift (PyStr.index (paragraphs doc) paragraph_index);;
         ret (inr (paragraph_info paragraph_index (snd paragraph))))
      (fun e => inl (ErrFailed OpGetParagraphText e)).

(** [for i in range(lo, hi): para = doc.paragraphs[i]; paragraphs.append({...})] *)
Definition collect_infos (doc : Doc) (lo hi : Z) : res (list ParagraphInfo) :=
  for_each (PyStr.range lo hi)
    (fun acc i =>
       res_bind (PyStr.index (paragraphs doc) i)
         (fun para => Ok (acc ++ [paragraph_info i (snd para)])))
    [].

(** The ["paragraphs"] and ["count"] of [get_paragraph_range]. *)
Record RangeResult := { g_paragraphs : list ParagraphInfo; g_count : nat }.

(** [get_paragraph_range] *)
Definition get_paragraph_range (doc_path : string) (start_index end_index : Z)
  : M (read_error + RangeResult) :=
  ex <~ path_exists doc_path;;
  if negb ex then ret (inl (ErrDoesNotExist doc_path))
  else
    try_except
      (doc <~ Document doc_path;;
       let total := len (paragraphs doc) in
       if (start_index <? 0)%Z then ret (inl (ErrStartNegative start_index))
       else if (end_index >=? total)%Z then ret (inl (ErrEndExceeds end_index total))
       else if (start_index >? end_index)%Z
       then ret (inl (ErrStartAfterEnd start_index end_index))
       else
         paragraphs <~ lift (collect_infos doc start_index (end_index + 1));;
         ret (inr {| g_paragraphs := paragraphs; g_count := length paragraphs |}))
      (fun e => inl (ErrFailed OpGetParagraphRange e)).

(** ** Sections of a document *)

(** [s.split(sep)] for a separator of one character: the pieces between its
    occurrences, the empty ones too.  [cur] is the piece being read,
    reversed. *)
Fixpoint split_on (sep : char) (cur : text) (s : text) : list text :=
  match s with
  | [] => [rev cur]
  | c :: s' =>
      if bool_decide (c = sep) then rev cur :: split_on sep [] s'
      else split_on sep (c :: cur) s'
  end.

(** [int(s)] for a [str] belongs to the Python runtime: the integer a text
    denotes, [None] where [int] raises [ValueError]. *)
Class IntOfStr := { int_of_str : text -> option Z }.

(** [try: level = int(name.split(" ")[1])
     except (ValueError, IndexError): level = fallback] *)
Definition level_of `{IntOfStr} (name : text) (fallback : Z) : Z :=
  match split_on (ch " ") [] name !! 1 with
  | Some w => default fallback (int_of_str w)
  | None => fallback
  end.

(** The test of the forward walk of [get_section_paragraphs]: a heading
    paragraph whose level is at most [heading_level]. *)
Definition ends_section `{IntOfStr} (heading_level : Z) (para : Paragraph) : bool :=
  match p_style para with
  | Some name =>
      PyStr.startswith name (t "Heading") && (level_of name 1 <=? heading_level)%Z
  | None => false
  end.

(** The result of [get_section_paragraphs]; [None] is Python's [None]. *)
Record SectionResult := {
  s_heading_index : nat;
  s_heading_text : text;
  s_heading_style : text;
  s_heading_level : Z;
  s_content_start_index : option Z;
  s_content_end_index : option Z;
  s_next_heading_index : option nat;
  s_paragraphs : list ParagraphInfo;
}.

(** [get_section_paragraphs] *)
Definition get_section_paragraphs `{UnicodeData} `{IntOfStr} (doc_path : string)
    (heading_text : text) (include_heading : bool) : M (read_error + SectionResult) :=
  ex <~ path_exists doc_path;;
  if negb ex then ret (inl (ErrDoesNotExist doc_path))
  else
    try_except
      (doc <~ Document doc_path;;
       match section_heading_idx (paragraphs doc) heading_text with
       | None => ret (inl (ErrHeadingNotFound heading_text))
       | Some heading_idx =>
           heading_para <~ lift (PyStr.index (paragraphs doc) (Z.of_nat heading_idx));;
           let heading_style :=
             default (t "Heading 1") (p_style (snd heading_para)) in
           let heading_level := level_of heading_style 1 in
           (* walk forward to the next same-or-higher-level heading *)
           let next_heading_idx :=
             (fun r => heading_idx + 1 + fst r) <$>
               first_match (fun p => ends_section heading_level (snd p))
                 (drop (heading_idx + 1) (paragraphs doc)) in
           let content_end_idx :=
             match next_heading_idx with
             | None => (len (paragraphs doc) - 1)%Z
             | Some j => (Z.of_nat j - 1)%Z
             end in
           let start :=
             if include_heading then Z.of_nat heading_idx
             else (Z.of_nat heading_idx + 1)%Z in
           paragraphs <~ lift (collect_infos doc start (content_end_idx + 1));;
           ret (inr {| s_heading_index := heading_idx;
                       s_heading_text := para_text (snd heading_para);
                       s_heading_style := heading_style;
                       s_heading_level := heading_level;
                       s_content_start_index :=
                         if (Z.of_nat heading_idx + 1 <=? content_end_idx)%Z
                         then Some (Z.of_nat heading_idx + 1)%Z else None;
                       s_content_end_index :=
                         if (content_end_idx >? Z.of_nat heading_idx)%Z
                         then Some content_end_idx else None;
                       s_next_heading_index := next_heading_idx;
                       s_paragraphs := paragraphs |})
       end)
      (fun e => inl (ErrFailed OpGetSection e)).

(** ** Insertion near a paragraph *)

(** python-docx builds the [Paragraph] objects of [doc.paragraphs] anew at
    every access.  An object has an identity of its own, [o_id], besides the
    element [o_el] it wraps; [first] is the first identity not handed out
    yet. *)
Record ParaObj := { o_id : nat; o_el : nat; o_para : Paragraph }.

Definition paragraph_objects (doc : Doc) (first : nat) : list ParaObj :=
  imap (fun i p => {| o_id := first + i; o_el := fst p; o_para := snd p |})
    (paragraphs doc).

(** [p.style and p.style.name.lower().startswith("toc")] *)
Definition is_toc_lower `{UnicodeData} (para : Paragraph) : bool :=
  match p_style para with
  | Some name => PyStr.startswith (PyStr.lower name) (t "toc")
  | None => false
  end.

(** [anchor.addprevious(n)] on a body from which [n] has been unlinked. *)
Fixpoint link_before (anchor : nat) (n : Node) (b : list Node) : list Node :=
  match b with
  | [] => []
  | x :: rest =>
      if decide (n_id x = anchor) then n :: x :: rest
      else x :: link_before anchor n rest
  end.

Definition addprevious (anchor : nat) (n : Node) (b : list Node) : list Node :=
  link_before anchor n (remove_node (n_id n) b).

(** The strings [insert_header_near_text] returns. *)
Inductive insert_message : Type :=
  | InsDoesNotExist (doc_path : string)
      (* "Document {doc_path} does not exist" *)
  | InsInvalidIndex (target_paragraph_index total : Z)
      (* "Invalid target_paragraph_index: {i}. Document has {total} paragraphs." *)
  | InsTargetNotFound
      (* "Target paragraph not found (by index or text). (TOC paragraphs are skipped in text search)" *)
  | InsHeaderInserted (header_title header_style position : text)
      (anchor_index : option Z)
      (* "Header '{header_title}' (style: {header_style}) inserted {position}
         paragraph (index {anchor_index})."; for [None]
         "... inserted {position} the target paragraph." *)
  | InsFailed (e : exn).
      (* "Failed to insert header: {str(e)}" *)

(** The condition of the text search: not a TOC paragraph, and a non-empty
    [target_text] that occurs in the paragraph text. *)
Definition is_target `{UnicodeData} (target_text : option text) (para : Paragraph)
  : bool :=
  negb (is_toc_lower para)
  && (truthy target_text
      && PyStr.contains (para_text para) (default [] target_text)).

(** The end of [insert_header_near_text], from [doc.add_paragraph] on. *)
Definition insert_header_at (doc_path : string) (doc : Doc) (para : ParaObj)
    (header_title position header_style : text) (anchor_index : option Z)
  : M insert_message :=
  r <~ lift (add_paragraph doc header_title header_style);;
  let doc := fst r in
  let new_para := snd r in
  let b :=
    if PyStr.eqb position (t "before")
    then addprevious (o_el para) new_para (body doc)
    else addnext (o_el para) new_para (body doc) in
  _ <~ save (with_body doc b) doc_path;;
  ret (InsHeaderInserted header_title header_style position anchor_index).

(** [insert_header_near_text].  With an index, the objects of
    [doc.paragraphs] are not compared; in the text search the loop that
    looks for [para] among [doc.paragraphs] reads the list a second time. *)
Definition insert_header_near_text `{UnicodeData} (doc_path : string)
    (target_text : option text)
    (header_title position header_style : text)
    (target_paragraph_index : option Z) : M insert_message :=
  ex <~ path_exists doc_path;;
  if negb ex then ret (InsDoesNotExist doc_path)
  else
    try_except
      (doc <~ Document doc_path;;
       match target_paragraph_index with
       | Some i =>
           let total := len (paragraphs doc) in
           if (i <? 0)%Z || (i >=? total)%Z then ret (InsInvalidIndex i total)
           else
             para <~ lift (PyStr.index (paragraph_objects doc 0) i);;
             insert_header_at doc_path doc para header_title position header_style
               (Some i)
       | None =>
           let objects := paragraph_objects doc 0 in
           match first_match (fun p => is_target target_text (o_para p)) objects with
           | None => ret InsTargetNotFound
           | Some (_, para) =>
               (* [for i, p in enumerate(doc.paragraphs): if p is para: ...] *)
               let anchor_index :=
                 (fun r => Z.of_nat (fst r)) <$>
                   first_match (fun p => bool_decide (o_id p = o_id para))
                     (paragraph_objects doc (length objects)) in
               insert_header_at doc_path doc para header_title position header_style
                 anchor_index
           end
       end)
      InsFailed.

(** ** Paragraphs by text *)

(** The test of [find_paragraph_by_text] on one paragraph:
    [partial_match and text in para.text], else
    [not partial_match and para.text == text]. *)
Definition text_matches (txt : text) (partial_match : bool) (para : Paragraph) : bool :=
  (partial_match && PyStr.contains (para_text para) txt)
  || (negb partial_match && PyStr.eqb (para_text para) txt).

(** [find_paragraph_by_text]: the indices of the matching paragraphs. *)
Definition find_paragraph_by_text (doc : Doc) (txt : text) (partial_match : bool)
  : list nat :=
  fst <$> filter (fun ip => Is_true (text_matches txt partial_match (snd ip)))
            (imap (fun i p => (i, snd p)) (paragraphs doc)).

(** ** Inline markdown *)

(** A run spec of [_parse_markdown_runs]: ["text"], ["bold"], ["italic"]. *)
Record RunSpec := { s_text : text; s_bold : bool; s_italic : bool }.

Definition plain_spec (s : text) : RunSpec :=
  {| s_text := s; s_bold := false; s_italic := false |}.

(** The line feed, which [.] does not match. *)
Definition newline : char := 10%N.

(** [(.+?)] followed by [close], tried from the start of [s]: the shortest
    non-empty run of characters other than the line feed after which [close]
    follows.  The result is the run and the number of characters matched,
    [close] included; [acc] is the run read so far, reversed. *)
Fixpoint lazy_until (close : text) (acc : text) (s : text) : option (text * nat) :=
  match s with
  | [] => None
  | c :: s' =>
      if bool_decide (c = newline) then None
      else if PyStr.startswith s' close
           then Some (rev (c :: acc), length (c :: acc) + length close)
           else lazy_until close (c :: acc) s'
  end.

(** One alternative of the pattern, [\*{n}(.+?)\*{n}], at the start of [s]:
    the group and the length of the match. *)
Definition marker_match (n : nat) (s : text) : option (text * nat) :=
  let stars := repeat (ch "*") n in
  if PyStr.startswith s stars
  then (fun r => (fst r, n + snd r)) <$> lazy_until stars [] (drop n s)
  else None.

(** The pattern of [_parse_markdown_runs] at the start of [s]: its three
    alternatives, for three, two and one asterisk, in this order; the first
    that matches wins.  The
    result is the run spec of the group that matched and the length of the
    match. *)
Definition match_here (s : text) : option (RunSpec * nat) :=
  match marker_match 3 s with
  | Some (g, len) => Some ({| s_text := g; s_bold := true; s_italic := true |}, len)
  | None =>
      match marker_match 2 s with
      | Some (g, len) => Some ({| s_text := g; s_bold := true; s_italic := false |}, len)
      | None =>
          match marker_match 1 s with
          | Some (g, len) =>
              Some ({| s_text := g; s_bold := false; s_italic := true |}, len)
          | None => None
          end
      end
  end.

(** [if start > last_end: runs.append(plain text[last_end:start])];
    [pending] is [text[last_end:start]], reversed. *)
Definition flush (pending : text) : list RunSpec :=
  match pending with
  | [] => []
  | _ => [plain_spec (rev pending)]
  end.

(** The loop over [re.finditer(pattern, text)] together with the plain text
    after the last match.  The scan goes through the text from left to
    right; [skip] counts the characters that are still inside the last
    match, where no match is looked for. *)
Fixpoint parse_from (skip : nat) (pending : text) (s : text) : list RunSpec :=
  match s with
  | [] => flush pending
  | c :: s' =>
      match skip with
      | S k => parse_from k pending s'
      | 0 =>
          match match_here s with
          | Some (spec, len) => flush pending ++ spec :: parse_from (len - 1) [] s'
          | None => parse_from 0 (c :: pending) s'
          end
      end
  end.

(** [_parse_markdown_runs] *)
Definition _parse_markdown_runs (txt : text) : list RunSpec :=
  match txt with
  | [] => [plain_spec []]
  | _ =>
      match parse_from 0 [] txt with
      | [] => [plain_spec txt]
      | runs => runs
      end
  end.

(** The markdown source of a run spec: its text between its markers. *)
Definition markers (spec : RunSpec) : text :=
  match s_bold spec, s_italic spec with
  | true, true => t "***"
  | true, false => t "**"
  | false, true => t "*"
  | false, false => []
  end.
Definition unparse (spec : RunSpec) : text :=
  markers spec ++ s_text spec ++ markers spec.

(** ** Replacing the text of a paragraph *)

(** The run that [para.add_run(spec["text"])] and the assignments
    [run.bold = True], [run.italic = True] build. *)
Definition run_of_spec (spec : RunSpec) : Run :=
  {| r_text := s_text spec;
     r_fmt := {| f_bold := if s_bold spec then Some true else None;
                 f_italic := if s_italic spec then Some true else None;
                 f_caps := None;
                 f_size := None |} |}.

(** A change inside the element with identity [id]: the element stays
    where it is in the body. *)
Definition set_element (id : nat) (e : Element) (b : list Node) : list Node :=
  (fun n => if decide (n_id n = id) then {| n_id := id; n_el := e |} else n) <$> b.

(** The strings [replace_paragraph_text] returns. *)
Inductive text_message : Type :=
  | TxtDoesNotExist (doc_path : string)
      (* "Document {doc_path} does not exist" *)
  | TxtInvalidIndex (paragraph_index total : Z)
      (* "Invalid paragraph index: {paragraph_index}. Document has {total} paragraphs." *)
  | TxtReplaced (paragraph_index : Z)
      (* "Paragraph at index {paragraph_index} replaced successfully." *)
  | TxtFailed (e : exn).
      (* "Failed to replace paragraph: {str(e)}" *)

(** What is left of the content of a paragraph when its runs are removed:
    the hyperlinks. *)
Definition without_runs (items : list Inline) : list Inline :=
  filter (fun i => inline_run i = None) items.

(** [replace_paragraph_text]: the runs of the paragraph are emptied and
    removed, the new runs are added at the end of the paragraph, and the
    style is kept ([preserve_style]) or assigned from
    [doc.styles["Normal"]]. *)
Definition replace_paragraph_text (doc_path : string) (paragraph_index : Z)
    (new_text : text) (preserve_style parse_markdown : bool) : M text_message :=
  ex <~ path_exists doc_path;;
  if negb ex then ret (TxtDoesNotExist doc_path)
  else
    try_except
      (doc <~ Document doc_path;;
       if (paragraph_index <? 0)%Z || (paragraph_index >=? len (paragraphs doc))%Z
       then ret (TxtInvalidIndex paragraph_index (len (paragraphs doc)))
       else
         para <~ lift (PyStr.index (paragraphs doc) paragraph_index);;
         let old_style := p_style (snd para) in
         let runs :=
           if parse_markdown then run_of_spec <$> _parse_markdown_runs new_text
           else [{| r_text := new_text; r_fmt := plain |}] in
         style <~
           (if preserve_style then ret old_style
            else lift (assign_style (styles doc) (t "Normal")));;
         let doc :=
           with_body doc
             (set_element (fst para)
                (EPara {| p_style := style;
                          p_items := without_runs (p_items (snd para)) ++ map IRun runs |})
                (body doc)) in
         _ <~ save doc doc_path;;
         ret (TxtReplaced paragraph_index))
      TxtFailed.

(** ** Notions used in the further statements *)

(** A paragraph without hyperlinks: its content is its runs. *)
Definition no_hyperlink (p : Paragraph) : Prop := p_items p = map IRun (p_runs p).

(** The text of the hyperlinks of a paragraph. *)
Definition links_text (p : Paragraph) : text :=
  concat (map inline_text (without_runs (p_items p))).

(** The text of [para.runs], which is where [_replace_in_paragraph] finds
    the characters to replace. *)
Definition runs_text (p : Paragraph) : text := concat (map r_text (p_runs p)).

(** No occurrence of [old_text] is left in a paragraph that is searched. *)
Definition clean_of (old_text : text) (p : Paragraph) : Prop :=
  skips_toc p = false → PyStr.contains (para_text p) old_text = false.

(** A computation that leaves the file at path [q] as it is, whatever it
    returns. *)
Definition keeps_file {A} (q : string) (m : M A) : Prop :=
  ∀ fs r fs', m fs = (r, fs') → fs' !! q = fs !! q.

(** ** More sample documents *)

(** Decimal numerals, for the sample documents: digits only. *)
Fixpoint decimal_from (acc : Z) (s : text) : option Z :=
  match s with
  | [] => Some acc
  | c :: s' =>
      let n := N.to_nat c in
      if (48 <=? n) && (n <=? 57)
      then decimal_from (acc * 10 + Z.of_nat (n - 48))%Z s'
      else None
  end.
Definition decimal : IntOfStr :=
  {| int_of_str s := match s with [] => None | _ => decimal_from 0 s end |}.

(** A chapter with two subsections, followed by another chapter. *)
Definition chapters : Content :=
  sample [para "Heading 1" "Intro"; para "Normal" "a"; para "Heading 2" "Scope";
          para "Normal" "b"; para "Heading 1" "Method"; para "Normal" "c"].

(** * Properties *)

(** ** Strings *)

Lemma startswith_spec (s p : text) :
  PyStr.startswith s p = true ↔ ∃ r, s = p ++ r.
Proof.
  revert s. induction p as [|c p IH]; intros s; simpl.
  - split; [by exists s|done].
  - destruct s as [|d s].
    + split; [done|]. intros [r Hr]. discriminate.
    + rewrite andb_true_iff, bool_decide_eq_true, IH. split.
      * intros [-> [r ->]]. eauto.
      * intros [r Hr]. injection Hr as -> ->. eauto.
Qed.

Lemma find_Some (s sub : text) (k : nat) :
  PyStr.find s sub = Some k → s = take k s ++ sub ++ drop (k + length sub) s.
Proof.
  revert k. induction s as [|c s IH]; intros k; simpl.
  - destruct (PyStr.startswith [] sub) eqn:E; [|done].
    intros [= <-]. apply startswith_spec in E as [r Hr].
    destruct sub; [done|discriminate].
  - destruct (PyStr.startswith (c :: s) sub) eqn:E.
    + intros [= <-]. apply startswith_spec in E as [r Hr].
      simpl. rewrite Hr at 1. f_equal. rewrite Hr, drop_app_length. done.
    + destruct (PyStr.find s sub) as [j|] eqn:F; [|done].
      intros [= <-]. simpl. f_equal. by apply IH.
Qed.

Lemma find_lowest (s sub : text) (k : nat) :
  PyStr.find s sub = Some k → ∀ j, j < k → PyStr.startswith (drop j s) sub = false.
Proof.
  revert k. induction s as [|c s IH]; intros k; simpl.
  - destruct (PyStr.startswith [] sub); [|done]. intros [= <-] j Hj. lia.
  - destruct (PyStr.startswith (c :: s) sub) eqn:E.
    + intros [= <-] j Hj. lia.
    + destruct (PyStr.find s sub) as [i|] eqn:F; [|done].
      intros [= <-] [|j] Hj; [done|]. simpl. apply (IH i eq_refl). lia.
Qed.

Lemma find_Some_length (s sub : text) (k : nat) :
  PyStr.find s sub = Some k → k + length sub ≤ length s.
Proof.
  revert k. induction s as [|c s IH]; intros k; simpl.
  - destruct (PyStr.startswith [] sub) eqn:E; [|done].
    intros [= <-]. apply startswith_spec in E as [r Hr].
    destruct sub; [simpl; lia|discriminate].
  - destruct (PyStr.startswith (c :: s) sub) eqn:E.
    + intros [= <-]. apply startswith_spec in E as [r Hr].
      apply (f_equal length) in Hr. rewrite length_app in Hr. simpl in *. lia.
    + destruct (PyStr.find s sub) as [j|] eqn:F; [|done].
      intros [= <-]. specialize (IH j eq_refl). simpl. lia.
Qed.

Lemma find_startswith (s sub : text) (k : nat) :
  PyStr.find s sub = Some k → PyStr.startswith (drop k s) sub = true.
Proof.
  revert k. induction s as [|c s IH]; intros k; simpl.
  - destruct (PyStr.startswith [] sub) eqn:E; [|done]. by intros [= <-].
  - destruct (PyStr.startswith (c :: s) sub) eqn:E; [by intros [= <-]|].
    destruct (PyStr.find s sub) as [j|] eqn:F; [|done].
    intros [= <-]. simpl. by apply IH.
Qed.

Lemma find_None (s sub : text) (j : nat) :
  PyStr.find s sub = None → PyStr.startswith (drop j s) sub = false.
Proof.
  revert j. induction s as [|c s IH]; intros j; simpl.
  - destruct (PyStr.startswith [] sub) eqn:E; [done|]. intros _. by destruct j.
  - destruct (PyStr.startswith (c :: s) sub) eqn:E; [done|].
    destruct (PyStr.find s sub) as [i|] eqn:F; [done|].
    intros _. destruct j as [|j]; [done|]. simpl. by apply IH.
Qed.

Lemma contains_true (s sub : text) :
  PyStr.contains s sub = true ↔ ∃ k, PyStr.find s sub = Some k.
Proof. unfold PyStr.contains. rewrite bool_decide_eq_true. reflexivity. Qed.

Lemma contains_false (s sub : text) :
  PyStr.contains s sub = false ↔ PyStr.find s sub = None.
Proof.
  unfold PyStr.contains. rewrite bool_decide_eq_false.
  destruct (PyStr.find s sub); split; try done.
  intros Hn. destruct Hn. eauto.
Qed.

Lemma eqb_true (a b : text) : PyStr.eqb a b = true ↔ a = b.
Proof. unfold PyStr.eqb. apply bool_decide_eq_true. Qed.

(** [sub in s] holds exactly when [s] is some text, [sub], and some text. *)
Lemma contains_occurs (s sub : text) : PyStr.contains s sub = true ↔ occurs_in sub s.
Proof.
  split.
  - intros [k Hk]%contains_true. apply find_Some in Hk. by eexists _, _.
  - intros (a & b & ->). destruct (PyStr.contains _ sub) eqn:E; [done|].
    apply contains_false in E. apply (find_None _ _ (length a)) in E.
    rewrite drop_app_length in E.
    assert (PyStr.startswith (sub ++ b) sub = true) by (apply startswith_spec; eauto).
    congruence.
Qed.

(** ** Cross-run replacement *)

Lemma length_char_map_from ri runs :
  length (char_map_from ri runs) = length (concat (map r_text runs)).
Proof.
  revert ri. induction runs as [|r runs IH]; intros ri; simpl; [done|].
  rewrite !length_app, length_map, length_seq, IH. done.
Qed.

Lemma char_map_from_app ri l1 l2 :
  char_map_from ri (l1 ++ l2) = char_map_from ri l1 ++ char_map_from (ri + length l1) l2.
Proof.
  revert ri. induction l1 as [|r l1 IH]; intros ri; simpl.
  - by rewrite Nat.add_0_r.
  - rewrite IH, <-app_assoc. do 3 f_equal. lia.
Qed.

Lemma char_map_lookup pre r post ci :
  ci < length (r_text r) →
  char_map (pre ++ r :: post) !! (length (concat (map r_text pre)) + ci)
  = Some (length pre, ci).
Proof.
  intros Hci. unfold char_map. rewrite char_map_from_app. simpl.
  rewrite lookup_app_r by (rewrite length_char_map_from; lia).
  rewrite length_char_map_from.
  replace (_ + ci - _) with ci by lia.
  rewrite lookup_app_l by (rewrite length_map, length_seq; lia).
  rewrite list_lookup_fmap, lookup_seq_lt by done. done.
Qed.

Lemma set_run_text_app (l1 l2 : list Run) r s :
  set_run_text (length l1) s (l1 ++ r :: l2)
  = l1 ++ {| r_text := s; r_fmt := r_fmt r |} :: l2.
Proof.
  unfold set_run_text. rewrite alter_app_r_alt by lia.
  by rewrite Nat.sub_diag.
Qed.

Lemma clear_loop (l1 mid rest : list Run) :
  foldl (fun rs ri => set_run_text ri [] rs) (l1 ++ mid ++ rest)
        (seq (length l1) (length mid))
  = l1 ++ map cleared mid ++ rest.
Proof.
  revert l1. induction mid as [|m mid IH]; intros l1; simpl; [done|].
  rewrite set_run_text_app.
  replace (l1 ++ {| r_text := []; r_fmt := r_fmt m |} :: mid ++ rest)
    with ((l1 ++ [cleared m]) ++ mid ++ rest) by (by rewrite <-app_assoc).
  replace (S (length l1)) with (length (l1 ++ [cleared m]))
    by (rewrite length_app; simpl; lia).
  rewrite IH, <-app_assoc. done.
Qed.

Lemma concat_cleared (mid : list Run) : concat (map r_text (map cleared mid)) = [].
Proof. induction mid; simpl; auto. Qed.

Lemma index_nat {A} (l : list A) (i : nat) x :
  l !! i = Some x → PyStr.index l (Z.of_nat i) = Ok x.
Proof.
  intros Hl. unfold PyStr.index.
  destruct (Z.ltb_spec (Z.of_nat i) 0); [lia|].
  destruct (Z.ltb_spec (Z.of_nat i) 0); [lia|].
  by rewrite Nat2Z.id, Hl.
Qed.

(** *** Runs and hyperlinks *)

Lemma runs_of_runs (l : list Run) : omap inline_run (map IRun l) = l.
Proof. induction l as [|r l IH]; [done|]. simpl. by f_equal. Qed.

Lemma text_of_runs (l : list Run) : concat (map inline_text (map IRun l)) = concat (map r_text l).
Proof. induction l as [|r l IH]; [done|]. simpl. by f_equal. Qed.

Lemma p_runs_of_runs style l : p_runs (of_runs style l) = l.
Proof. apply runs_of_runs. Qed.

Lemma para_text_of_runs style l : para_text (of_runs style l) = concat (map r_text l).
Proof. apply text_of_runs. Qed.

Lemma runs_app (l1 l2 : list Inline) :
  omap inline_run (l1 ++ l2) = omap inline_run l1 ++ omap inline_run l2.
Proof. apply omap_app. Qed.

Lemma with_runs_same (items : list Inline) : with_runs items (omap inline_run items) = items.
Proof.
  induction items as [|[r|l] items IH]; [done| |]; simpl; by f_equal.
Qed.

Lemma with_runs_app (l l' : list Run) (rest : list Inline) (rs : list Run) :
  length l = length l' →
  with_runs (map IRun l ++ rest) (l' ++ rs) = map IRun l' ++ with_runs rest rs.
Proof.
  revert l'. induction l as [|r l IH]; intros [|r' l'] Hlen; simpl in *; try done.
  rewrite IH by lia. done.
Qed.

Lemma with_runs_of_runs (l l' : list Run) :
  length l = length l' → with_runs (map IRun l) l' = map IRun l'.
Proof.
  intros Hlen.
  pose proof (with_runs_app l l' [] [] Hlen) as E.
  by rewrite !app_nil_r in E.
Qed.

Lemma runs_with_runs (items : list Inline) (rs : list Run) :
  length rs = length (omap inline_run items) →
  omap inline_run (with_runs items rs) = rs.
Proof.
  revert rs. induction items as [|[r|l] items IH]; intros rs Hlen.
  - by destruct rs.
  - destruct rs as [|r' rs]; [done|]. simpl in *. f_equal. apply IH. by injection Hlen.
  - simpl in *. by apply IH.
Qed.

Lemma length_set_run_text ri s (runs : list Run) :
  length (set_run_text ri s runs) = length runs.
Proof. unfold set_run_text. apply length_alter. Qed.

Lemma length_clear_runs a b (runs : list Run) : length (clear_runs a b runs) = length runs.
Proof.
  unfold clear_runs. generalize (seq (S a) (b - S a)). intros l. revert runs.
  induction l as [|i l IH]; intros runs; simpl; [done|].
  by rewrite IH, length_set_run_text.
Qed.

(** What the body of the loop does to the runs when the two ends of the
    occurrence are found in different runs [ra] and [rb]. *)
Lemma multi_run_assignments (pre mid post : list Run) (ra rb : Run) (s1 s2 : text) :
  set_run_text (length (pre ++ ra :: mid)) s2
    (clear_runs (length pre) (length (pre ++ ra :: mid))
       (set_run_text (length pre) s1 (pre ++ ra :: mid ++ rb :: post)))
  = pre ++ {| r_text := s1; r_fmt := r_fmt ra |}
        :: map cleared mid ++ {| r_text := s2; r_fmt := r_fmt rb |} :: post.
Proof.
  rewrite set_run_text_app. unfold clear_runs.
  replace (length (pre ++ ra :: mid) - S (length pre)) with (length mid)
    by (rewrite length_app; simpl; lia).
  set (ra' := {| r_text := s1; r_fmt := r_fmt ra |}).
  replace (pre ++ ra' :: mid ++ rb :: post)
    with ((pre ++ [ra']) ++ mid ++ rb :: post) by (by rewrite <-app_assoc).
  replace (S (length pre)) with (length (pre ++ [ra']))
    by (rewrite length_app; simpl; lia).
  rewrite clear_loop.
  replace (length (pre ++ ra :: mid))
    with (length ((pre ++ [ra']) ++ map cleared mid))
    by (rewrite !length_app, length_map; simpl; lia).
  rewrite app_assoc, set_run_text_app. by rewrite <-!app_assoc.
Qed.

(** C9, amended.  One pass of the loop of _replace_in_paragraph on a paragraph whose
    first occurrence of [old_text] starts in a run [ra] (at offset [ca]) and
    ends in a later run [rb] (its last character at offset [cb]), with
    nothing but runs before [rb]: the paragraph text becomes the text with
    that occurrence replaced by [new_text]; [ra] keeps its prefix and its
    formatting and receives all of [new_text], the runs between are emptied
    and stay in place, [rb] keeps what follows the occurrence, and everything
    else, the runs and hyperlinks [rest] after [rb] included, is as it
    was. *)
Theorem cross_run_replacement (style : option text) (pre mid : list Run)
    (rest : list Inline) (ra rb : Run) (old_text new_text : text) (start ca cb : nat) :
  let para := {| p_style := style;
                 p_items := map IRun (pre ++ ra :: mid ++ [rb]) ++ rest |} in
  PyStr.find (para_text para) old_text = Some start →
  ca < length (r_text ra) →
  start = length (concat (map r_text pre)) + ca →
  cb < length (r_text rb) →
  start + length old_text = length (concat (map r_text (pre ++ ra :: mid))) + cb + 1 →
  ∃ para',
    replace_body para old_text new_text = Next para'
    ∧ para_text para'
      = take start (para_text para) ++ new_text
          ++ drop (start + length old_text) (para_text para)
    ∧ p_style para' = style
    ∧ p_items para'
      = map IRun
          (pre ++ {| r_text := take ca (r_text ra) ++ new_text; r_fmt := r_fmt ra |}
             :: map (fun r => {| r_text := []; r_fmt := r_fmt r |}) mid
             ++ [{| r_text := drop (cb + 1) (r_text rb); r_fmt := r_fmt rb |}])
        ++ rest
    ∧ para_text para
      = take start (para_text para) ++ old_text
          ++ drop (start + length old_text) (para_text para).
Proof.
  intros para Hfind Hca Hstart Hcb Hend.
  set (post := omap inline_run rest).
  set (runs := pre ++ ra :: mid ++ rb :: post).
  assert (Hruns : p_runs para = runs).
  { unfold p_runs, para, runs, post. cbn [p_items]. rewrite runs_app, runs_of_runs.
    rewrite <-app_assoc. cbn [app]. rewrite <-app_assoc. done. }
  assert (Hruns2 : runs = (pre ++ ra :: mid) ++ rb :: post).
  { unfold runs. by rewrite <-app_assoc. }
  assert (Ha : char_map runs !! start = Some (length pre, ca)).
  { subst start. by apply char_map_lookup. }
  assert (Hb : char_map runs !! (start + length old_text - 1)
               = Some (length (pre ++ ra :: mid), cb)).
  { replace (start + length old_text - 1)
      with (length (concat (map r_text (pre ++ ra :: mid))) + cb) by lia.
    rewrite Hruns2. by apply char_map_lookup. }
  assert (Hra : runs !! length pre = Some ra).
  { unfold runs. by rewrite list_lookup_middle. }
  assert (Hrb : runs !! length (pre ++ ra :: mid) = Some rb).
  { rewrite Hruns2. by rewrite list_lookup_middle. }
  assert (Hne : (length pre =? length (pre ++ ra :: mid)) = false).
  { apply Nat.eqb_neq. rewrite length_app. simpl. lia. }
  assert (Hstep : replace_body para old_text new_text
    = Next (set_runs para
              (set_run_text (length (pre ++ ra :: mid)) (drop (cb + 1) (r_text rb))
                 (clear_runs (length pre) (length (pre ++ ra :: mid))
                    (set_run_text (length pre) (take ca (r_text ra) ++ new_text)
                       runs))))).
  { unfold replace_body. rewrite Hfind, Hruns.
    assert (Hnil : ∀ X : step, match runs with [] => Break | _ :: _ => X end = X).
    { intros X. unfold runs. by destruct pre. }
    rewrite Hnil.
    assert (Hcm : (length (char_map runs) <? start + length old_text) = false).
    { apply Nat.ltb_ge. unfold char_map. rewrite length_char_map_from.
      rewrite Hruns2, map_app, concat_app, length_app. simpl.
      rewrite length_app. lia. }
    rewrite Hcm, (index_nat _ _ _ Ha).
    replace (Z.of_nat (start + length old_text) - 1)%Z
      with (Z.of_nat (start + length old_text - 1)) by lia.
    rewrite (index_nat _ _ _ Hb), Hra, Hrb, Hne. reflexivity. }
  unfold runs in Hstep. rewrite multi_run_assignments in Hstep.
  fold (cleared) in |- *.
  set (ra' := {| r_text := take ca (r_text ra) ++ new_text; r_fmt := r_fmt ra |}) in *.
  set (rb' := {| r_text := drop (cb + 1) (r_text rb); r_fmt := r_fmt rb |}) in *.
  eexists. split; [exact Hstep|].
  assert (Hitems : p_items (set_runs para (pre ++ ra' :: map cleared mid ++ rb' :: post))
                   = map IRun (pre ++ ra' :: map cleared mid ++ [rb']) ++ rest).
  { unfold set_runs, para. simpl.
    replace (pre ++ ra' :: map cleared mid ++ rb' :: post)
      with ((pre ++ ra' :: map cleared mid ++ [rb']) ++ post)
      by (rewrite <-!app_assoc; simpl; by rewrite <-app_assoc).
    rewrite with_runs_app.
    - unfold post. by rewrite with_runs_same.
    - rewrite !length_app. simpl. rewrite !length_app, length_map. done. }
  split; [|split; [done|split; [exact Hitems|by apply find_Some]]].
  unfold para_text. rewrite Hitems. unfold para. simpl p_items.
  rewrite !map_app, !concat_app, !text_of_runs.
  set (Trest := concat (map inline_text rest)).
  cbn [map concat]. rewrite !map_app, !concat_app. cbn [map concat].
  rewrite concat_cleared. cbn [r_text ra' rb'].
  set (Tpre := concat (map r_text pre)) in *.
  set (Tmid := concat (map r_text mid)) in *.
  rewrite !map_app, !concat_app in Hend. cbn [map concat] in Hend.
  fold Tpre Tmid in Hend. rewrite !length_app in Hend.
  rewrite !app_nil_r, <-!app_assoc. cbn [app].
  rewrite Hstart at 1. rewrite take_app_add', take_app_le by lia.
  rewrite <-!app_assoc. do 3 f_equal.
  replace (start + length old_text)
    with (length Tpre + (length (r_text ra) + (length Tmid + (cb + 1)))) by lia.
  rewrite drop_app_add' by done.
  rewrite drop_app_add' by done.
  rewrite drop_app_add' by done.
  by rewrite drop_app_le by lia.
Qed.

(** *** A replacement text that contains the text it replaces *)

(** One pass on ["cat" ++ s], replacing "cat" by "cats", leaves
    ["cat" ++ "s" ++ s]: the text to find is still there. *)
Lemma replace_body_grows (s : text) :
  replace_body (growing s) (t "cat") (t "cats") = Next (growing (ch "s" :: s)).
Proof.
  unfold replace_body, growing. simpl. reflexivity.
Qed.

Lemma loop_diverges fuel : ∀ s count,
  _replace_in_paragraph_loop fuel (growing s) (t "cat") (t "cats") count = None.
Proof.
  induction fuel as [|fuel IH]; intros s count; [done|].
  cbn [_replace_in_paragraph_loop].
  rewrite replace_body_grows.
  assert (PyStr.contains (para_text (growing s)) (t "cat") = true) as -> by done.
  apply IH.
Qed.

(** C5.  On the paragraph "cat", with "cat" to be replaced by "cats", the
    loop of _replace_in_paragraph does not end: no amount of fuel yields a
    count. *)
Theorem replace_in_paragraph_diverges (fuel : nat) :
  _replace_in_paragraph fuel (ex_para "Normal" [ex_run "cat"]) (t "cat") (t "cats") = None.
Proof. apply (loop_diverges fuel []). Qed.

Lemma find_and_replace_text_first_None (fuel : nat) (doc : Doc) (old_text new_text : text)
    (n : Node) (rest : list Node) (p : Paragraph) :
  body doc = n :: rest → n_el n = EPara p →
  replace_in fuel old_text new_text p = None →
  find_and_replace_text fuel doc old_text new_text = None.
Proof.
  intros Hbody Hel Hin. unfold find_and_replace_text.
  rewrite Hbody. cbn [replace_each]. rewrite Hel, Hin. reflexivity.
Qed.

(** The same on a document: find_and_replace_text(doc, "cat", "cats") does
    not return when a paragraph reads "cat". *)
Lemma find_and_replace_text_diverges (fuel : nat) :
  find_and_replace_text fuel (load (sample [para "Normal" "cat"])) (t "cat") (t "cats")
  = None.
Proof.
  eapply (find_and_replace_text_first_None _ _ _ _ _ _ (growing []));
    [reflexivity|reflexivity|].
  unfold replace_in.
  replace (skips_toc (growing [])) with false by reflexivity.
  replace (PyStr.contains (para_text (growing [])) (t "cat")) with true by reflexivity.
  apply (loop_diverges fuel []).
Qed.

(** ** Two-pass searches *)

Lemma first_match_Some {A} (c : A → bool) l i x :
  first_match c l = Some (i, x) ↔
  l !! i = Some x ∧ c x = true ∧ ∀ j y, j < i → l !! j = Some y → c y = false.
Proof.
  unfold first_match. rewrite list_find_Some. split.
  - intros (Hl & Hc & Hfirst). split; [done|]. split; [by apply Is_true_true|].
    intros j y Hj Hy. specialize (Hfirst j y Hy Hj).
    by apply negb_prop_intro, Is_true_true, negb_true_iff in Hfirst.
  - intros (Hl & Hc & Hfirst). split; [done|]. split; [by apply Is_true_true|].
    intros j y Hy Hj. rewrite (Hfirst j y Hj Hy). simpl. tauto.
Qed.

Lemma first_match_None {A} (c : A → bool) l :
  first_match c l = None ↔ ∀ j y, l !! j = Some y → c y = false.
Proof.
  unfold first_match. rewrite list_find_None, Forall_lookup. split.
  - intros Hall j y Hy. specialize (Hall j y Hy).
    by apply negb_prop_intro, Is_true_true, negb_true_iff in Hall.
  - intros Hall j y Hy. rewrite (Hall j y Hy). simpl. tauto.
Qed.

Lemma two_pass_search {A} (pass1 pass2 : A → bool) (P1 P2 : A → Prop) (l : list A) :
  (∀ x, pass1 x = true ↔ P1 x) →
  (∀ x, pass2 x = true ↔ P2 x) →
  two_pass_result P1 P2 l
    (match first_match pass1 l with
     | Some r => Some r
     | None => first_match pass2 l
     end).
Proof.
  intros H1 H2.
  assert (N1 : ∀ x, pass1 x = false → ¬ P1 x).
  { intros x Hx HP. apply H1 in HP. congruence. }
  assert (N2 : ∀ x, pass2 x = false → ¬ P2 x).
  { intros x Hx HP. apply H2 in HP. congruence. }
  destruct (first_match pass1 l) as [[i x]|] eqn:E1.
  - apply first_match_Some in E1 as (Hl & Hc & Hfirst). simpl.
    split; [done|]. left. split; [by apply H1|].
    intros j y Hj Hy. apply N1. eauto.
  - rewrite first_match_None in E1.
    destruct (first_match pass2 l) as [[i x]|] eqn:E2.
    + apply first_match_Some in E2 as (Hl & Hc & Hfirst). simpl.
      split; [done|]. right. split; [|split; [by apply H2|]].
      * intros j y Hy. apply N1. eauto.
      * intros j y Hj Hy. apply N2. eauto.
    + rewrite first_match_None in E2. simpl.
      intros j y Hy. split; [apply N1|apply N2]; eauto.
Qed.

Section HeaderQueries.
  Context `{UnicodeData}.

(** The style tests of the code, in words. *)
Lemma style_prefix_spec (fold : text → text) (prefix : text) (p : Paragraph) :
  match p_style p with
  | Some name => PyStr.startswith (fold name) prefix
  | None => false
  end = true ↔ style_prefix fold prefix p.
Proof.
  unfold style_prefix. destruct (p_style p) as [name|].
  - rewrite startswith_spec. split.
    + intros [rest Hr]. by exists name, rest.
    + intros (name' & rest & [= <-] & Hr). eauto.
  - split; [done|]. by intros (? & ? & ? & _).
Qed.

Lemma is_toc_paragraph_spec (p : Paragraph) :
  is_toc_paragraph p = true ↔ style_prefix PyStr.upper (t "TOC") p.
Proof. apply style_prefix_spec. Qed.

Lemma is_heading_paragraph_spec (p : Paragraph) :
  is_heading_paragraph p = true ↔ style_prefix PyStr.lower (t "heading") p.
Proof. apply style_prefix_spec. Qed.

Lemma is_Heading_spec (p : Paragraph) :
  is_Heading p = true ↔ style_prefix id (t "Heading") p.
Proof. apply (style_prefix_spec id). Qed.

Lemma not_toc_spec (p : Paragraph) :
  negb (is_toc_paragraph p) = true ↔ ¬ style_prefix PyStr.upper (t "TOC") p.
Proof.
  rewrite negb_true_iff, <-is_toc_paragraph_spec.
  destruct (is_toc_paragraph p); split; congruence.
Qed.

(** C8.  The header search of replace_paragraph_block_below_header (and the
    one it repeats in delete_block_under_header) and the heading search of
    get_section_paragraphs are two-pass searches.  Pass 1 accepts a
    paragraph whose normalized text equals the normalized query; pass 2
    accepts a heading-styled paragraph in whose normalized text the
    normalized query occurs.  The result is the first paragraph, in document
    order, that pass 1 accepts; pass 2 decides only when pass 1 accepts no
    paragraph at all, and then the result is the first paragraph that pass 2
    accepts.  The header searches compare the lower-cased normal forms,
    and the one of replace_paragraph_block_below_header leaves out the
    paragraphs of a TOC style in both passes; get_section_paragraphs takes
    only paragraphs of a "Heading" style in both passes. *)
Theorem header_query_two_passes (paras : list (nat * Paragraph)) (query : text) :
  let h := PyStr.lower (_normalize_text query) in
  let q := _normalize_text query in
  let folded_text (p : nat * Paragraph) :=
    PyStr.lower (_normalize_text (para_text (snd p))) in
  let normal_text (p : nat * Paragraph) := _normalize_text (para_text (snd p)) in
  let toc (p : nat * Paragraph) := style_prefix PyStr.upper (t "TOC") (snd p) in
  let heading (p : nat * Paragraph) := style_prefix PyStr.lower (t "heading") (snd p) in
  let Heading (p : nat * Paragraph) := style_prefix id (t "Heading") (snd p) in
  (* replace_paragraph_block_below_header *)
  two_pass_result
    (fun p => ¬ toc p ∧ folded_text p = h)
    (fun p => ¬ toc p ∧ heading p ∧ occurs_in h (folded_text p))
    paras (find_header_for_replace paras query)
  (* ... and the search it repeats in delete_block_under_header *)
  ∧ two_pass_result
      (fun p => folded_text p = h)
      (fun p => heading p ∧ occurs_in h (folded_text p))
      paras (find_header_for_delete paras query)
  (* get_section_paragraphs *)
  ∧ (∃ r, section_heading_idx paras query = fst <$> r
          ∧ two_pass_result
              (fun p => Heading p ∧ normal_text p = q)
              (fun p => Heading p ∧ occurs_in q (normal_text p))
              paras r)
  (* a header that is not an exact match is heading-styled *)
  ∧ (∀ i p, find_header_for_replace paras query = Some (i, p) →
       folded_text p = h ∨ heading p).
Proof.
  intros h q folded_text normal_text toc heading Heading.
  assert (R1 : two_pass_result
    (fun p => ¬ toc p ∧ folded_text p = h)
    (fun p => ¬ toc p ∧ heading p ∧ occurs_in h (folded_text p))
    paras (find_header_for_replace paras query)).
  { apply two_pass_search; intros p.
    - rewrite andb_true_iff, not_toc_spec. unfold exact_header. by rewrite eqb_true.
    - rewrite !andb_true_iff, not_toc_spec, is_heading_paragraph_spec.
      unfold contains_header. by rewrite contains_occurs. }
  split; [exact R1|]. split; [|split].
  - apply two_pass_search; intros p.
    + unfold exact_header. by rewrite eqb_true.
    + rewrite andb_true_iff, is_heading_paragraph_spec.
      unfold contains_header. by rewrite contains_occurs.
  - eexists. split.
    2:{ apply (two_pass_search
                 (fun p => is_Heading (snd p)
                           && PyStr.eqb (_normalize_text (para_text (snd p))) q)
                 (fun p => is_Heading (snd p)
                           && PyStr.contains (_normalize_text (para_text (snd p))) q));
        intros p.
        - by rewrite andb_true_iff, is_Heading_spec, eqb_true.
        - by rewrite andb_true_iff, is_Heading_spec, contains_occurs. }
    unfold section_heading_idx. fold q.
    by destruct (first_match _ paras) as [[i x]|].
  - intros i p Hfind. rewrite Hfind in R1.
    destruct R1 as [_ [[[_ Hc] _]|(_ & (_ & Hc & _) & _)]]; [by left|by right].
Qed.

End HeaderQueries.

(** ** Whole-word search *)

Lemma elem_of_concat {A} (x : A) (ls : list (list A)) :
  x ∈ concat ls ↔ ∃ l, l ∈ ls ∧ x ∈ l.
Proof.
  induction ls as [|l ls IH]; simpl.
  - split; [by intros ?%elem_of_nil|]. by intros (l & ?%elem_of_nil & _).
  - rewrite elem_of_app, IH. split.
    + intros [Hx|(l' & Hl' & Hx)]; [exists l|exists l']; split; auto; by constructor.
    + intros (l' & Hl' & Hx). apply elem_of_cons in Hl' as [->|Hl']; eauto.
Qed.

Section WholeWord.
  Context `{UnicodeData}.

Lemma word_positions_spec (match_case : bool) (para_text search_text : text) k :
  k ∈ word_positions match_case para_text search_text ↔
  ∃ w, PyStr.split para_text !! k = Some w
       ∧ (w = search_text
          ∨ (match_case = false ∧ PyStr.lower w = PyStr.lower search_text)).
Proof.
  unfold word_positions. rewrite list_elem_of_fmap. split.
  - intros ([i w] & -> & Hin). apply list_elem_of_filter in Hin as [Hc Hin].
    apply elem_of_lookup_imap in Hin as (j & y & [= -> ->] & Hl).
    exists y. split; [done|].
    apply Is_true_true, orb_true_iff in Hc as [Hc|Hc].
    + left. by apply eqb_true.
    + right. apply andb_true_iff in Hc as [Hm Hc].
      apply negb_true_iff in Hm. split; [done|by apply eqb_true].
  - intros (w & Hl & Hc). exists (k, w). split; [done|].
    apply list_elem_of_filter. split.
    + apply Is_true_true, orb_true_iff. destruct Hc as [->|[-> Hc]].
      * left. by apply eqb_true.
      * right. simpl. by apply eqb_true.
    + apply elem_of_lookup_imap. eauto.
Qed.

Lemma occurrences_in_whole_word place para text_to_find match_case incl o :
  o ∈ occurrences_in place para text_to_find match_case true incl ↔
  o = {| o_where := place; o_position := o_position o;
         o_detail :=
           if incl then FullText (para_text para) (default (t "Normal") (p_style para))
           else Excerpt (take 100 (para_text para)
                           ++ (if 100 <? length (para_text para) then t "..." else [])) |}
  ∧ ∃ w, PyStr.split (folded match_case (para_text para)) !! o_position o = Some w
         ∧ word_matches match_case text_to_find w.
Proof.
  unfold occurrences_in. rewrite list_elem_of_fmap.
  fold (folded match_case (para_text para)). fold (folded match_case text_to_find).
  split.
  - intros (k & -> & Hk). split; [done|]. simpl.
    by apply word_positions_spec in Hk.
  - intros [Ho Hs]. exists (o_position o). split; [done|].
    by apply word_positions_spec.
Qed.

End WholeWord.

Lemma load_elements (c : Content) : n_el <$> body (load c) = c_body c.
Proof.
  unfold load. simpl. rewrite fmap_imap.
  rewrite (imap_ext _ (const id)); [|by intros].
  by rewrite imap_const, list_fmap_id.
Qed.

Lemma omap_cons {A B} (f : A → option B) x l :
  omap f (x :: l) = match f x with Some y => y :: omap f l | None => omap f l end.
Proof. reflexivity. Qed.

Lemma paragraphs_elements (doc : Doc) :
  snd <$> paragraphs doc = omap el_para (n_el <$> body doc).
Proof.
  unfold paragraphs. induction (body doc) as [|n b IH]; [done|].
  rewrite fmap_cons, !omap_cons. unfold para_of_node at 1.
  destruct (n_el n); simpl; [f_equal|..]; exact IH.
Qed.

Lemma tables_elements (doc : Doc) :
  snd <$> tables doc = omap el_table (n_el <$> body doc).
Proof.
  unfold tables. induction (body doc) as [|n b IH]; [done|].
  rewrite fmap_cons, !omap_cons. unfold table_of_node at 1.
  destruct (n_el n); simpl; [|f_equal|]; exact IH.
Qed.

Lemma paragraphs_load (c : Content) : snd <$> paragraphs (load c) = doc_paragraphs c.
Proof. by rewrite paragraphs_elements, load_elements. Qed.

Lemma tables_load (c : Content) : snd <$> tables (load c) = doc_tables c.
Proof. by rewrite tables_elements, load_elements. Qed.

Lemma lookup_snd {A B} (l : list (A * B)) i x :
  l !! i = Some x → (snd <$> l) !! i = Some (snd x).
Proof. intros Hl. by rewrite list_lookup_fmap, Hl. Qed.

Lemma lookup_snd_inv {A B} (l : list (A * B)) i y :
  (snd <$> l) !! i = Some y → ∃ x, l !! i = Some x ∧ snd x = y.
Proof.
  rewrite list_lookup_fmap. destruct (l !! i) as [x|]; [|done].
  intros [= <-]. eauto.
Qed.

Section WholeWordSearch.
  Context `{UnicodeData}.

(** C10.  With whole_word=True, find_text on a document that exists and a
    non-empty search text returns occurrences whose position is an index into
    the whitespace-split words of the paragraph text (lower-cased when
    match_case is False), and the word at that index passes the test of the
    loop: it equals the search text (lower-cased likewise), or match_case is
    False and the two are equal once lower-cased.  A word that differs
    from the search text, as one with punctuation attached does, is not
    reported.  Every word of a body paragraph or of a table cell that passes
    the test is reported. *)
Theorem find_text_whole_word (fs : FS) (doc_path : string) (c : Content)
    (text_to_find : text) (match_case include_paragraph_text : bool) :
  fs !! doc_path = Some (Docx c) →
  text_to_find ≠ [] →
  ∃ occurrences,
    find_text doc_path text_to_find match_case true include_paragraph_text fs
    = (Ok (SearchResults text_to_find match_case true occurrences
             (length occurrences)), fs)
    (* a reported position in a body paragraph is the index of a word that
       passes the test *)
    ∧ (∀ o i, o ∈ occurrences → o_where o = InBody i →
         ∃ p w, doc_paragraphs c !! i = Some p
                ∧ PyStr.split (folded match_case (para_text p)) !! o_position o = Some w
                ∧ word_matches match_case text_to_find w)
    (* the same in a table cell *)
    ∧ (∀ o ti ri ci, o ∈ occurrences → o_where o = InTable ti ri ci →
         ∃ tb row cell p w,
           doc_tables c !! ti = Some tb ∧ tb !! ri = Some row
           ∧ row !! ci = Some cell ∧ p ∈ cell
           ∧ PyStr.split (folded match_case (para_text p)) !! o_position o = Some w
           ∧ word_matches match_case text_to_find w)
    (* and every such word of a body paragraph is reported *)
    ∧ (∀ i p k w, doc_paragraphs c !! i = Some p →
         PyStr.split (folded match_case (para_text p)) !! k = Some w →
         word_matches match_case text_to_find w →
         ∃ o, o ∈ occurrences ∧ o_where o = InBody i ∧ o_position o = k)
    (* ... and of a table cell *)
    ∧ (∀ ti tb ri row ci cell p k w,
         doc_tables c !! ti = Some tb → tb !! ri = Some row →
         row !! ci = Some cell → p ∈ cell →
         PyStr.split (folded match_case (para_text p)) !! k = Some w →
         word_matches match_case text_to_find w →
         ∃ o, o ∈ occurrences ∧ o_where o = InTable ti ri ci ∧ o_position o = k).
Proof.
  intros Hfs Hne. destruct text_to_find as [|ch0 rest]; [done|].
  eexists. split; [|split; [|split; [|split]]].
  - unfold find_text, bind, path_exists, try_except, Document, ret.
    rewrite Hfs. simpl. rewrite Hfs. reflexivity.
  - intros o i Ho Hw. apply elem_of_app in Ho as [Ho|Ho].
    + apply elem_of_concat in Ho as (l & Hl & Ho).
      apply elem_of_lookup_imap in Hl as (j & [id p] & -> & Hj).
      apply occurrences_in_whole_word in Ho as [Ho (w & Hs & Hm)].
      rewrite Ho in Hw. simpl in Hw. injection Hw as ->.
      exists p, w. split; [|done].
      rewrite <-paragraphs_load. by apply (lookup_snd _ _ _ Hj).
    + exfalso.
      apply elem_of_concat in Ho as (l & Hl & Ho).
      apply elem_of_lookup_imap in Hl as (j & [id tb] & -> & Hj).
      apply elem_of_concat in Ho as (l & Hl & Ho).
      apply elem_of_lookup_imap in Hl as (r & row & -> & Hr).
      apply elem_of_concat in Ho as (l & Hl & Ho).
      apply elem_of_lookup_imap in Hl as (cc & cell & -> & Hc).
      apply elem_of_concat in Ho as (l & Hl & Ho).
      apply list_elem_of_fmap in Hl as (p & -> & Hp).
      apply occurrences_in_whole_word in Ho as [Ho Hs].
      rewrite Ho in Hw. discriminate.
  - intros o ti ri ci Ho Hw. apply elem_of_app in Ho as [Ho|Ho].
    + exfalso.
      apply elem_of_concat in Ho as (l & Hl & Ho).
      apply elem_of_lookup_imap in Hl as (j & [id p] & -> & Hj).
      apply occurrences_in_whole_word in Ho as [Ho Hs].
      rewrite Ho in Hw. discriminate.
    + apply elem_of_concat in Ho as (l & Hl & Ho).
      apply elem_of_lookup_imap in Hl as (j & [id tb] & -> & Hj).
      apply elem_of_concat in Ho as (l & Hl & Ho).
      apply elem_of_lookup_imap in Hl as (r & row & -> & Hr).
      apply elem_of_concat in Ho as (l & Hl & Ho).
      apply elem_of_lookup_imap in Hl as (cc & cell & -> & Hc).
      apply elem_of_concat in Ho as (l & Hl & Ho).
      apply list_elem_of_fmap in Hl as (p & -> & Hp).
      apply occurrences_in_whole_word in Ho as [Ho (w & Hs & Hm)].
      rewrite Ho in Hw. simpl in Hw. injection Hw as -> -> ->.
      exists tb, row, cell, p, w. split; [|done].
      rewrite <-tables_load. by apply (lookup_snd _ _ _ Hj).
  - intros i p k w Hi Hk Hm.
    rewrite <-paragraphs_load in Hi. apply lookup_snd_inv in Hi as ([id p'] & Hi & Hp).
    simpl in Hp. subst p'.
    eexists {| o_where := InBody i; o_position := k; o_detail := _ |}.
    split; [|done]. apply elem_of_app. left.
    apply elem_of_concat. eexists. split.
    + apply elem_of_lookup_imap. exists i, (id, p). split; [reflexivity|done].
    + apply occurrences_in_whole_word. simpl. split; [reflexivity|eauto].
  - intros ti tb ri row ci cell p k w Hti Hri Hci Hp Hk Hm.
    rewrite <-tables_load in Hti. apply lookup_snd_inv in Hti as ([id tb'] & Hti & Htb).
    simpl in Htb. subst tb'.
    eexists {| o_where := InTable ti ri ci; o_position := k; o_detail := _ |}.
    split; [|done]. apply elem_of_app. right.
    apply elem_of_concat. eexists. split.
    { apply elem_of_lookup_imap. exists ti, (id, tb). split; [reflexivity|done]. }
    apply elem_of_concat. eexists. split.
    { apply elem_of_lookup_imap. exists ri, row. split; [reflexivity|done]. }
    apply elem_of_concat. eexists. split.
    { apply elem_of_lookup_imap. exists ci, cell. split; [reflexivity|done]. }
    apply elem_of_concat. eexists. split.
    { apply list_elem_of_fmap. exists p. split; [reflexivity|done]. }
    apply occurrences_in_whole_word. simpl. split; [reflexivity|eauto].
Qed.

(** Without a document to read, or without a text to find, [find_text]
    returns an error entry: there is no occurrence to speak of. *)
Lemma find_text_error_cases (fs : FS) (doc_path : string) (text_to_find : text)
    (match_case whole_word include_paragraph_text : bool) :
  (∀ c, fs !! doc_path = Some (Docx c) → text_to_find = []) →
  ∃ e, find_text doc_path text_to_find match_case whole_word include_paragraph_text fs
       = (Ok (SearchError e), fs).
Proof.
  intros Hbad. unfold find_text, bind, path_exists, try_except, Document, ret.
  destruct (fs !! doc_path) as [[c|]|] eqn:Hfs; simpl.
  - rewrite (Hbad c eq_refl). eauto.
  - destruct text_to_find; [eauto|]. rewrite Hfs. eauto.
  - eauto.
Qed.

End WholeWordSearch.

(** ** Element identities *)

Lemma load_ids (c : Content) : n_id <$> body (load c) = seq 0 (length (c_body c)).
Proof.
  unfold load. simpl. rewrite fmap_imap.
  rewrite (imap_ext _ (fun i _ => id i)); [|by intros].
  by rewrite imap_seq_0, list_fmap_id.
Qed.

Lemma load_well_formed (c : Content) : well_formed (load c).
Proof.
  split.
  - rewrite load_ids. apply NoDup_seq.
  - apply Forall_forall. intros n Hn.
    assert (Hid : n_id n ∈ n_id <$> body (load c)) by (by apply list_elem_of_fmap_2).
    rewrite load_ids in Hid. apply elem_of_seq in Hid. simpl. lia.
Qed.

Lemma paragraph_id_in_body (b : list Node) i k p :
  omap para_of_node b !! i = Some (k, p) → k ∈ n_id <$> b.
Proof.
  intros Hi. apply list_elem_of_lookup_2, list_elem_of_omap in Hi as (n & Hn & Hp).
  unfold para_of_node in Hp. destruct (n_el n); try done.
  injection Hp as <- <-. by apply list_elem_of_fmap_2.
Qed.

Lemma remove_node_fresh (b : list Node) id : id ∉ n_id <$> b → remove_node id b = b.
Proof.
  intros Hid. unfold remove_node. induction b as [|n b IH]; [done|].
  rewrite fmap_cons, not_elem_of_cons in Hid. destruct Hid as [Hn Hb].
  rewrite filter_cons_True by done. by rewrite IH.
Qed.

Lemma remove_node_elem (b : list Node) id n :
  n ∈ remove_node id b ↔ n_id n ≠ id ∧ n ∈ b.
Proof. unfold remove_node. by rewrite list_elem_of_filter. Qed.

Lemma remove_node_NoDup (b : list Node) id :
  NoDup (n_id <$> b) → NoDup (n_id <$> remove_node id b).
Proof.
  unfold remove_node. induction b as [|n b IH]; [done|].
  rewrite fmap_cons. intros [Hn Hnd]%NoDup_cons.
  destruct (decide (n_id n = id)) as [Heq|Hne].
  - rewrite filter_cons_False by (by intros ?). by apply IH.
  - rewrite filter_cons_True by done. rewrite fmap_cons. apply NoDup_cons.
    split; [|by apply IH].
    intros (m & Hm & Hin)%list_elem_of_fmap. apply list_elem_of_filter in Hin as [_ Hin].
    apply Hn. rewrite Hm. by apply list_elem_of_fmap_2.
Qed.

Lemma para_of_node_Some n k p :
  para_of_node n = Some (k, p) → k = n_id n ∧ n_el n = EPara p.
Proof. unfold para_of_node. destruct (n_el n); try done. by intros [= <- <-]. Qed.

Lemma remove_nth_paragraph (b : list Node) i k p :
  NoDup (n_id <$> b) →
  omap para_of_node b !! i = Some (k, p) →
  omap para_of_node (remove_node k b) = delete i (omap para_of_node b)
  ∧ omap el_table (n_el <$> remove_node k b) = omap el_table (n_el <$> b).
Proof.
  revert i. induction b as [|n b IH]; intros i Hnd Hi; [done|].
  rewrite fmap_cons in Hnd. apply NoDup_cons in Hnd as [Hn Hnd].
  unfold remove_node in *. rewrite omap_cons in Hi. rewrite omap_cons, fmap_cons, omap_cons.
  destruct (para_of_node n) as [[k' p']|] eqn:Hpn.
  - destruct (para_of_node_Some _ _ _ Hpn) as [-> Hel].
    assert (Htb : el_table (n_el n) = None) by (by rewrite Hel).
    rewrite Htb.
    destruct i as [|i]; simpl in Hi.
    + injection Hi as <- <-. rewrite filter_cons_False by (by intros ?).
      fold (remove_node (n_id n) b). by rewrite remove_node_fresh.
    + assert (k ≠ n_id n).
      { intros ->. by apply Hn, (paragraph_id_in_body _ i _ p). }
      rewrite filter_cons_True by done.
      destruct (IH i Hnd Hi) as [IH1 IH2].
      rewrite omap_cons, fmap_cons, omap_cons, Hpn, Htb, IH1, IH2. done.
  - assert (k ≠ n_id n).
    { intros ->. by apply Hn, (paragraph_id_in_body _ i _ p). }
    rewrite filter_cons_True by done.
    destruct (IH i Hnd Hi) as [IH1 IH2].
    rewrite omap_cons, fmap_cons, omap_cons, Hpn, IH1, IH2. done.
Qed.

Lemma index_in_range {A} (l : list A) (i : Z) :
  (0 ≤ i < len l)%Z → ∃ x, l !! Z.to_nat i = Some x ∧ PyStr.index l i = Ok x.
Proof.
  intros Hi. unfold len in Hi.
  destruct (lookup_lt_is_Some_2 l (Z.to_nat i)) as [x Hx]; [lia|].
  exists x. split; [done|]. rewrite <-(Z2Nat.id i) by lia.
  by apply index_nat.
Qed.


(** ** Ranges *)

Lemma remove_node_well_formed (doc : Doc) id :
  well_formed doc → well_formed (with_body doc (remove_node id (body doc))).
Proof.
  intros [Hnd Hlt]. split; simpl.
  - by apply remove_node_NoDup.
  - rewrite Forall_forall in Hlt. apply Forall_forall.
    intros n [_ Hn]%remove_node_elem. by apply Hlt.
Qed.

Lemma remove_paragraph_at_spec (doc : Doc) (i : Z) :
  well_formed doc → (0 ≤ i < len (paragraphs doc))%Z →
  ∃ doc', remove_paragraph_at doc i = Ok doc'
          ∧ well_formed doc'
          ∧ paragraphs doc' = delete (Z.to_nat i) (paragraphs doc)
          ∧ doc_tables (content_of doc') = doc_tables (content_of doc)
          ∧ styles doc' = styles doc ∧ next_id doc' = next_id doc.
Proof.
  intros Hwf Hi. destruct (index_in_range _ _ Hi) as ([k p] & Hl & Hidx).
  unfold remove_paragraph_at. rewrite Hidx. simpl.
  eexists. split; [reflexivity|]. split; [by apply remove_node_well_formed|].
  destruct (remove_nth_paragraph (body doc) (Z.to_nat i) k p (proj1 Hwf) Hl) as [H1 H2].
  split; [exact H1|]. split; [exact H2|]. done.
Qed.

Lemma range_down_cons (hi lo : Z) :
  (lo ≤ hi)%Z → PyStr.range_down hi lo = hi :: PyStr.range_down (hi - 1) lo.
Proof.
  intros Hle. unfold PyStr.range_down.
  replace (Z.to_nat (hi - lo + 1)) with (S (Z.to_nat (hi - 1 - lo + 1))) by lia.
  cbn [seq map]. f_equal; [lia|].
  rewrite <-seq_shift, map_map. apply map_ext. intros k. lia.
Qed.

Lemma range_down_nil (hi lo : Z) : (hi < lo)%Z → PyStr.range_down hi lo = [].
Proof.
  intros Hlt. unfold PyStr.range_down.
  by replace (Z.to_nat (hi - lo + 1)) with 0 by lia.
Qed.

Lemma remove_range_spec (k : nat) : ∀ (doc : Doc) (s e : Z),
  well_formed doc → (0 ≤ s)%Z → e = (s + Z.of_nat k)%Z →
  (e < len (paragraphs doc))%Z →
  ∃ doc', remove_range doc s e = Ok doc'
          ∧ well_formed doc'
          ∧ paragraphs doc'
            = take (Z.to_nat s) (paragraphs doc) ++ drop (S (Z.to_nat e)) (paragraphs doc)
          ∧ doc_tables (content_of doc') = doc_tables (content_of doc)
          ∧ styles doc' = styles doc ∧ next_id doc' = next_id doc.
Proof.
  induction k as [|k IH]; intros doc s e Hwf Hs He Hlt.
  - assert (e = s) as -> by lia.
    unfold remove_range. rewrite range_down_cons, range_down_nil by lia.
    destruct (remove_paragraph_at_spec doc s Hwf) as (doc' & Hr & Hwf' & Hp & Ht & Hst & Hn);
      [lia|].
    cbn [for_each]. rewrite Hr. simpl. exists doc'.
    rewrite Hp, delete_take_drop. done.
  - unfold remove_range. rewrite range_down_cons by lia.
    destruct (remove_paragraph_at_spec doc e Hwf) as (doc1 & Hr & Hwf1 & Hp1 & Ht1 & Hst1 & Hn1);
      [lia|].
    cbn [for_each]. rewrite Hr. simpl.
    assert (Hlen1 : length (paragraphs doc1) = length (paragraphs doc) - 1).
    { rewrite Hp1, length_delete; [done|]. apply lookup_lt_is_Some_2. unfold len in Hlt. lia. }
    destruct (IH doc1 s (e - 1)%Z Hwf1 Hs) as (doc' & Hr' & Hwf' & Hp' & Ht' & Hst' & Hn');
      [lia|unfold len in *; lia|].
    fold (remove_range doc1 s (e - 1)). rewrite Hr'. exists doc'.
    split; [done|]. split; [done|]. split; [|by rewrite Ht', Hst', Hn'].
    rewrite Hp', Hp1, delete_take_drop. unfold len in Hlt.
    rewrite take_app_le by (rewrite length_take; lia).
    rewrite take_take. replace (Z.to_nat s `min` Z.to_nat e) with (Z.to_nat s) by lia.
    f_equal.
    replace (S (Z.to_nat (e - 1))) with (Z.to_nat e) by lia.
    rewrite drop_app_length'; [done|]. rewrite length_take. lia.
Qed.

Lemma length_paragraphs_load (c : Content) :
  length (paragraphs (load c)) = length (doc_paragraphs c).
Proof. by rewrite <-paragraphs_load, length_fmap. Qed.

Lemma content_paragraphs (doc : Doc) :
  doc_paragraphs (content_of doc) = snd <$> paragraphs doc.
Proof. by rewrite paragraphs_elements. Qed.

Lemma content_of_load (c : Content) : content_of (load c) = c.
Proof. destruct c as [b st]. unfold content_of. f_equal. apply load_elements. Qed.

(** C7.  On a document with paragraphs [before]: for bounds
    [0 <= start_index <= end_index < len before], delete_paragraph_range
    reports the deletion and saves a document with
    [end_index - start_index + 1] paragraphs less, in which the paragraphs
    before [start_index] and after [end_index] are the ones of [before], text
    and style, and the tables and styles are as they were; for any other
    bounds it returns an error message and the file system is as it was. *)
Theorem delete_paragraph_range_spec (fs : FS) (doc_path : string) (c : Content)
    (start_index end_index : Z) :
  fs !! doc_path = Some (Docx c) →
  let before := doc_paragraphs c in
  let count := (end_index - start_index + 1)%Z in
  if valid_range start_index end_index (len before) then
    ∃ c',
      delete_paragraph_range doc_path start_index end_index fs
      = (Ok (MsgDeleted count start_index end_index), <[doc_path := Docx c']> fs)
      ∧ len (doc_paragraphs c') = (len before - count)%Z
      ∧ (∀ i, (Z.of_nat i < start_index)%Z → doc_paragraphs c' !! i = before !! i)
      ∧ (∀ i, (end_index < Z.of_nat i)%Z →
           doc_paragraphs c' !! (i - Z.to_nat count) = before !! i)
      ∧ doc_tables c' = doc_tables c
      ∧ c_styles c' = c_styles c
  else
    ∃ m,
      delete_paragraph_range doc_path start_index end_index fs = (Ok m, fs)
      ∧ is_success m = false.
Proof.
  intros Hfs before count.
  unfold delete_paragraph_range, bind, path_exists, try_except, Document, ret, lift, save.
  rewrite Hfs. simpl. rewrite Hfs.
  unfold valid_range, len. rewrite length_paragraphs_load. fold before.
  destruct (Z.ltb_spec start_index 0) as [Hs|Hs].
  { replace (0 <=? start_index)%Z with false by lia. simpl. eauto. }
  replace (0 <=? start_index)%Z with true by lia.
  destruct (Z.geb_spec end_index (Z.of_nat (length before))) as [He|He].
  { replace (end_index <? Z.of_nat (length before))%Z with false by lia.
    rewrite andb_false_r. eauto. }
  replace (end_index <? Z.of_nat (length before))%Z with true by lia.
  destruct (Z.gtb_spec start_index end_index) as [Hse|Hse].
  { replace (start_index <=? end_index)%Z with false by lia. simpl. eauto. }
  replace (start_index <=? end_index)%Z with true by lia. simpl.
  destruct (remove_range_spec (Z.to_nat (end_index - start_index)) (load c)
              start_index end_index (load_well_formed c))
    as (doc' & Hr & Hwf' & Hp & Ht & Hst & Hn); [lia|lia|..].
  { unfold len. rewrite length_paragraphs_load. fold before. lia. }
  rewrite Hr. exists (content_of doc'). split; [done|].
  assert (Hps : doc_paragraphs (content_of doc')
                = take (Z.to_nat start_index) before
                    ++ drop (S (Z.to_nat end_index)) before).
  { rewrite content_paragraphs, Hp, fmap_app, fmap_take, fmap_drop.
    by rewrite paragraphs_load. }
  rewrite Hps. split; [|split; [|split; [|split]]].
  - rewrite length_app, length_take, length_drop. unfold count. lia.
  - intros i Hi. rewrite lookup_app_l by (rewrite length_take; lia).
    apply lookup_take_lt. lia.
  - intros i Hi. rewrite lookup_app_r by (rewrite length_take; unfold count; lia).
    rewrite length_take, lookup_drop. f_equal. unfold count. lia.
  - by rewrite Ht, content_of_load.
  - simpl. by rewrite Hst.
Qed.

Lemma link_after_middle (b1 b2 : list Node) x n :
  n_id x ∉ n_id <$> b1 →
  link_after (n_id x) n (b1 ++ x :: b2) = b1 ++ x :: n :: b2.
Proof.
  induction b1 as [|y b1 IH]; intros Hx; simpl.
  - by rewrite decide_True.
  - rewrite fmap_cons, not_elem_of_cons in Hx. destruct Hx as [Hy Hx].
    rewrite decide_False by done. by rewrite IH.
Qed.

Lemma remove_inserted (b : list Node) n :
  n_id n ∉ n_id <$> b → remove_node (n_id n) (insert_before_sectPr n b) = b.
Proof.
  intros Hn. induction b as [|x b IH]; simpl.
  - unfold remove_node. by rewrite filter_cons_False by (by intros ?).
  - rewrite fmap_cons, not_elem_of_cons in Hn. destruct Hn as [Hx Hn].
    assert (Hkeep : remove_node (n_id n) (x :: b) = x :: b).
    { apply remove_node_fresh. rewrite fmap_cons, not_elem_of_cons. done. }
    destruct (n_el x); unfold remove_node in *.
    + rewrite filter_cons_True by done. by rewrite IH.
    + rewrite filter_cons_True by done. by rewrite IH.
    + rewrite filter_cons_False by (by intros ?). exact Hkeep.
Qed.

Lemma fresh_id (doc : Doc) : well_formed doc → next_id doc ∉ n_id <$> body doc.
Proof.
  intros [_ Hlt] (n & Hn & Hin)%list_elem_of_fmap.
  rewrite Forall_forall in Hlt. specialize (Hlt n Hin). lia.
Qed.

Lemma well_formed_insert (doc : Doc) (b1 b2 : list Node) x e :
  well_formed doc → body doc = b1 ++ x :: b2 →
  well_formed {| body := b1 ++ x :: {| n_id := next_id doc; n_el := e |} :: b2;
                 styles := styles doc; next_id := S (next_id doc) |}.
Proof.
  intros Hwf Hb. pose proof (fresh_id doc Hwf) as Hfresh.
  destruct Hwf as [Hnd Hlt]. rewrite Hb in *. split; simpl.
  - assert (Hperm : n_id <$> (b1 ++ x :: {| n_id := next_id doc; n_el := e |} :: b2)
                    ≡ₚ next_id doc :: (n_id <$> (b1 ++ x :: b2))).
    { rewrite !fmap_app, !fmap_cons. simpl.
      rewrite (cons_middle (n_id x)), app_assoc, <-Permutation_middle.
      by rewrite <-app_assoc. }
    rewrite Hperm. by apply NoDup_cons.
  - apply Forall_app in Hlt as [Hl1 Hl2]. apply Forall_cons in Hl2 as [Hlx Hl2].
    apply Forall_app. split; [eapply Forall_impl; [exact Hl1|simpl; lia]|].
    constructor; [lia|]. constructor; [simpl; lia|].
    eapply Forall_impl; [exact Hl2|simpl; lia].
Qed.

Lemma insert_loop_after (style_to_use : text) (name : option text) (news : list text) :
  ∀ (doc : Doc) (b1 b2 : list Node) (x : Node),
  well_formed doc → body doc = b1 ++ x :: b2 →
  (news ≠ [] → assign_style (styles doc) style_to_use = Ok name) →
  ∃ doc' last,
    for_each news (insert_new_paragraph style_to_use) (doc, Some (n_id x))
    = Ok (doc', last)
    ∧ body doc' = b1 ++ x :: new_nodes (next_id doc) name news ++ b2
    ∧ styles doc' = styles doc.
Proof.
  induction news as [|txt news IH]; intros doc b1 b2 x Hwf Hb Hst.
  - exists doc, (Some (n_id x)). simpl. done.
  - cbn [for_each]. unfold insert_new_paragraph at 1, add_paragraph.
    rewrite Hst by done. cbn [res_bind].
    pose proof (fresh_id doc Hwf) as Hfresh.
    set (n := {| n_id := next_id doc; n_el := EPara (new_paragraph txt name) |}).
    cbn [body n_id]. 
    change (next_id doc) with (n_id n) at 1 2.
    rewrite (remove_inserted (body doc) n) by done.
    unfold addnext. rewrite remove_node_fresh by done.
    rewrite Hb, link_after_middle.
    2:{ destruct Hwf as [Hnd _]. rewrite Hb, fmap_app, fmap_cons in Hnd.
        apply NoDup_app in Hnd as (_ & H12 & _). intros Hin. eapply H12; [exact Hin|left]. }
    unfold with_body. cbn [styles next_id].
    edestruct (IH {| body := (b1 ++ [x]) ++ n :: b2; styles := styles doc;
                     next_id := S (next_id doc) |} (b1 ++ [x]) b2 n)
      as (doc' & last & Hfor & Hbody & Hstyles).
    + rewrite <-app_assoc. simpl. by apply well_formed_insert.
    + done.
    + simpl. intros _. by apply Hst.
    + rewrite <-app_assoc in Hfor. simpl in Hfor.
      exists doc', last. split; [exact Hfor|]. split; [|exact Hstyles].
      rewrite Hbody. simpl. by rewrite <-app_assoc.
Qed.

Lemma insert_loop_first (style_to_use : text) (name : option text) (news : list text)
    (doc : Doc) :
  well_formed doc →
  (news ≠ [] → assign_style (styles doc) style_to_use = Ok name) →
  ∃ doc' last,
    for_each news (insert_new_paragraph style_to_use) (doc, None) = Ok (doc', last)
    ∧ body doc' = new_nodes (next_id doc) name news ++ body doc
    ∧ styles doc' = styles doc.
Proof.
  intros Hwf Hst. destruct news as [|txt news].
  - exists doc, None. done.
  - cbn [for_each]. unfold insert_new_paragraph at 1, add_paragraph.
    rewrite Hst by done. cbn [res_bind].
    pose proof (fresh_id doc Hwf) as Hfresh.
    set (n := {| n_id := next_id doc; n_el := EPara (new_paragraph txt name) |}).
    cbn [body n_id].
    change (next_id doc) with (n_id n) at 1 2.
    rewrite (remove_inserted (body doc) n) by done.
    unfold insert_first. rewrite remove_node_fresh by done.
    unfold with_body. cbn [styles next_id].
    edestruct (insert_loop_after style_to_use name news
                 {| body := n :: body doc; styles := styles doc;
                    next_id := S (next_id doc) |} [] (body doc) n)
      as (doc' & last & Hfor & Hbody & Hstyles).
    + destruct Hwf as [Hnd Hlt]. split; simpl.
      * apply NoDup_cons. done.
      * constructor; [simpl; lia|]. eapply Forall_impl; [exact Hlt|simpl; lia].
    + done.
    + simpl. intros _. by apply Hst.
    + exists doc', last. split; [exact Hfor|]. split; [|exact Hstyles].
      rewrite Hbody. done.
Qed.

Lemma split_at_paragraph (b : list Node) i k p :
  omap para_of_node b !! i = Some (k, p) →
  ∃ b1 x b2,
    b = b1 ++ x :: b2 ∧ n_id x = k
    ∧ omap para_of_node (b1 ++ [x]) = take (S i) (omap para_of_node b)
    ∧ omap para_of_node b2 = drop (S i) (omap para_of_node b).
Proof.
  revert i. induction b as [|n b IH]; intros i Hi; [done|].
  rewrite omap_cons in Hi. rewrite omap_cons.
  destruct (para_of_node n) as [[k' p']|] eqn:Hpn.
  - destruct i as [|i]; simpl in Hi.
    + injection Hi as -> ->. destruct (para_of_node_Some _ _ _ Hpn) as [-> _].
      exists [], n, b. split; [done|]. split; [done|].
      change ([] ++ [n]) with [n]. rewrite omap_cons, Hpn. done.
    + destruct (IH i Hi) as (b1 & x & b2 & -> & Hx & Ht & Hd).
      exists (n :: b1), x, b2. split; [done|]. split; [done|].
      change ((n :: b1) ++ [x]) with (n :: (b1 ++ [x])).
      rewrite omap_cons, Hpn, Ht, Hd. done.
  - destruct (IH i Hi) as (b1 & x & b2 & -> & Hx & Ht & Hd).
    exists (n :: b1), x, b2. split; [done|]. split; [done|].
    change ((n :: b1) ++ [x]) with (n :: (b1 ++ [x])).
    rewrite omap_cons, Hpn, Ht, Hd. done.
Qed.

Lemma new_nodes_paragraphs next style news :
  snd <$> omap para_of_node (new_nodes next style news)
  = (fun txt => new_paragraph txt style) <$> news.
Proof.
  revert next. induction news as [|txt news IH]; intros next; [done|].
  cbn [new_nodes]. rewrite omap_cons. unfold para_of_node at 1. cbn [n_el n_id].
  rewrite !fmap_cons. by rewrite IH.
Qed.

Lemma new_nodes_tables next style news :
  omap el_table (n_el <$> new_nodes next style news) = [].
Proof.
  revert next. induction news as [|txt news IH]; intros next; [done|].
  cbn [new_nodes]. rewrite fmap_cons, omap_cons. cbn [n_el el_table]. apply IH.
Qed.

Lemma bind_ok {A B} (m : M A) (k : A → M B) (fs fs' : FS) (a : A) :
  m fs = (Ok a, fs') → bind m k fs = k a fs'.
Proof. unfold bind. by intros ->. Qed.

Lemma try_except_ok {A} (m : M A) (h : exn → A) (fs fs' : FS) (a : A) :
  m fs = (Ok a, fs') → try_except m h fs = (Ok a, fs').
Proof. unfold try_except. by intros ->. Qed.

Lemma path_exists_true (doc_path : string) (fs : FS) (f : File) :
  fs !! doc_path = Some f → path_exists doc_path fs = (Ok true, fs).
Proof. unfold path_exists. intros ->. by rewrite bool_decide_eq_true_2. Qed.

Lemma Document_ok (doc_path : string) (fs : FS) (c : Content) :
  fs !! doc_path = Some (Docx c) → Document doc_path fs = (Ok (load c), fs).
Proof. unfold Document. by intros ->. Qed.

Lemma doc_tables_app (b1 b2 : list Node) :
  omap el_table (n_el <$> (b1 ++ b2))
  = omap el_table (n_el <$> b1) ++ omap el_table (n_el <$> b2).
Proof. by rewrite fmap_app, omap_app. Qed.

Lemma insert_at (doc : Doc) (anchor : option nat) (s : nat) (style_to_use : text)
    (name : option text) (news : list text) :
  well_formed doc →
  match s with
  | 0 => anchor = None
  | S s' => ∃ k p, paragraphs doc !! s' = Some (k, p) ∧ anchor = Some k
  end →
  (news ≠ [] → assign_style (styles doc) style_to_use = Ok name) →
  ∃ doc' last,
    for_each news (insert_new_paragraph style_to_use) (doc, anchor) = Ok (doc', last)
    ∧ snd <$> paragraphs doc'
      = take s (snd <$> paragraphs doc)
          ++ ((fun txt => new_paragraph txt name) <$> news)
          ++ drop s (snd <$> paragraphs doc)
    ∧ doc_tables (content_of doc') = doc_tables (content_of doc)
    ∧ styles doc' = styles doc.
Proof.
  intros Hwf Hanchor Hst. destruct s as [|s'].
  - subst anchor.
    destruct (insert_loop_first style_to_use name news doc Hwf Hst)
      as (doc' & last & Hfor & Hbody & Hstyles).
    exists doc', last. split; [done|]. split; [|split; [|done]].
    + unfold paragraphs. rewrite Hbody, omap_app, fmap_app, new_nodes_paragraphs.
      by rewrite take_0, drop_0.
    + unfold doc_tables, content_of. simpl.
      by rewrite Hbody, doc_tables_app, new_nodes_tables.
  - destruct Hanchor as (k & p & Hk & ->).
    destruct (split_at_paragraph _ _ _ _ Hk) as (b1 & x & b2 & Hb & <- & Ht & Hd).
    destruct (insert_loop_after style_to_use name news doc b1 b2 x Hwf Hb Hst)
      as (doc' & last & Hfor & Hbody & Hstyles).
    exists doc', last. split; [done|]. split; [|split; [|done]].
    + unfold paragraphs. rewrite Hbody.
      rewrite (cons_middle x), app_assoc, omap_app.
      rewrite (omap_app _ (new_nodes _ _ _) b2), !fmap_app.
      rewrite new_nodes_paragraphs, Ht, Hd, fmap_take, fmap_drop. done.
    + unfold doc_tables, content_of. simpl. rewrite Hbody, Hb.
      rewrite (cons_middle x b1), (cons_middle x b1 b2).
      rewrite !doc_tables_app, new_nodes_tables. done.
Qed.

Lemma insert_loop_raises (style_to_use : text) (e : exn) (news : list text)
    (doc : Doc) (anchor : option nat) :
  news ≠ [] → assign_style (styles doc) style_to_use = Raise e →
  for_each news (insert_new_paragraph style_to_use) (doc, anchor) = Raise e.
Proof.
  intros Hne He. destruct news as [|txt news]; [done|].
  cbn [for_each]. unfold insert_new_paragraph at 1, add_paragraph.
  by rewrite He.
Qed.

(** C6, amended.  On a document with paragraphs [before] and for bounds
    [0 <= start_index <= end_index < len before], let the resolved style be
    the explicit style, else with preserve_style the style of the paragraph
    at start_index, else "Normal".  When the styles of the document give a
    paragraph style for it (by name, else by style id), or when
    new_paragraphs is empty, replace_paragraph_range saves a document whose
    paragraphs are those before start_index, then one new paragraph per
    entry of new_paragraphs, in order and in that style (an empty entry
    gives a paragraph without text), then those after end_index.  When
    new_paragraphs is not empty and the styles of the document give no
    paragraph style for the resolved style, it returns the message "Failed
    to replace paragraph range: ..." and the file is as it was. *)
Theorem replace_paragraph_range_spec (fs : FS) (doc_path : string) (c : Content)
    (start_index end_index : Z) (new_paragraphs : list text)
    (style : option text) (preserve_style : bool) :
  fs !! doc_path = Some (Docx c) →
  let before := doc_paragraphs c in
  let style_to_use := resolved_style c start_index style preserve_style in
  valid_range start_index end_index (len before) = true →
  (∀ name,
     (new_paragraphs ≠ [] → assign_style (c_styles c) style_to_use = Ok name) →
     ∃ c',
       replace_paragraph_range doc_path start_index end_index new_paragraphs style
         preserve_style fs
       = (Ok (MsgReplacedRange (end_index - start_index + 1) start_index end_index
                (length new_paragraphs)),
          <[doc_path := Docx c']> fs)
       ∧ doc_paragraphs c'
         = take (Z.to_nat start_index) before
             ++ ((fun txt => new_paragraph txt name) <$> new_paragraphs)
             ++ drop (S (Z.to_nat end_index)) before
       ∧ len (doc_paragraphs c')
         = (len before - (end_index - start_index + 1) + len new_paragraphs)%Z
       ∧ (∀ i, (Z.of_nat i < start_index)%Z → doc_paragraphs c' !! i = before !! i)
       ∧ (∀ k txt, new_paragraphs !! k = Some txt →
            doc_paragraphs c' !! (Z.to_nat start_index + k)
            = Some (new_paragraph txt name))
       ∧ para_text (new_paragraph [] name) = []
       ∧ doc_tables c' = doc_tables c
       ∧ c_styles c' = c_styles c)
  ∧ (∀ e,
       new_paragraphs ≠ [] → assign_style (c_styles c) style_to_use = Raise e →
       replace_paragraph_range doc_path start_index end_index new_paragraphs style
         preserve_style fs
       = (Ok (MsgFailed OpReplaceRange e), fs)).
Proof.
  intros Hfs before style_to_use Hvalid.
  unfold valid_range in Hvalid. apply andb_true_iff in Hvalid as [Hvalid He].
  apply andb_true_iff in Hvalid as [Hs Hse].
  apply Z.leb_le in Hs, Hse. apply Z.ltb_lt in He. unfold len in He.
  (* the paragraph at start_index *)
  destruct (index_in_range (paragraphs (load c)) start_index) as ([k0 p0] & Hl0 & Hidx0).
  { unfold len. rewrite length_paragraphs_load. fold before. lia. }
  assert (Hp0 : before !! Z.to_nat start_index = Some p0).
  { unfold before. rewrite <-paragraphs_load. by apply (lookup_snd _ _ _ Hl0). }
  (* the style that the code computes *)
  assert (Hsty :
    (if truthy style then ret (default [] style)
     else if preserve_style then
       bind (lift (PyStr.index (paragraphs (load c)) start_index))
         (fun p => ret (default (t "Normal") (p_style (snd p))))
     else ret (t "Normal")) fs = (Ok style_to_use, fs)).
  { unfold style_to_use, resolved_style. fold before. rewrite Hp0.
    destruct style as [[|ch0 rest]|]; simpl; try done;
      destruct preserve_style; try done;
      unfold bind, lift, ret; by rewrite Hidx0. }
  (* the removal *)
  destruct (remove_range_spec (Z.to_nat (end_index - start_index)) (load c)
              start_index end_index (load_well_formed c))
    as (doc1 & Hr & Hwf1 & Hp1 & Ht1 & Hst1 & Hn1); [lia|lia|..].
  { unfold len. rewrite length_paragraphs_load. fold before. lia. }
  (* the anchor and the insertion *)
  assert (Hanchor : ∃ anchor,
    (if (start_index >? 0)%Z then
       bind (lift (PyStr.index (paragraphs (load c)) (start_index - 1)))
         (fun p => ret (Some (fst p)))
     else ret None) fs = (Ok anchor, fs)
    ∧ match Z.to_nat start_index with
      | 0 => anchor = None
      | S s' => ∃ k p, paragraphs doc1 !! s' = Some (k, p) ∧ anchor = Some k
      end).
  { destruct (Z.gtb_spec start_index 0) as [Hpos|Hzero].
    - destruct (index_in_range (paragraphs (load c)) (start_index - 1))
        as ([ka pa] & Hla & Hidxa).
      { unfold len. rewrite length_paragraphs_load. fold before. lia. }
      exists (Some ka). unfold bind, lift, ret. rewrite Hidxa. split; [done|].
      destruct (Z.to_nat start_index) as [|s'] eqn:Hs'; [lia|].
      exists ka, pa. split; [|done]. rewrite Hp1.
      rewrite lookup_app_l by (rewrite length_take, length_paragraphs_load; fold before; lia).
      rewrite lookup_take_lt by lia.
      by replace s' with (Z.to_nat (start_index - 1)) by lia.
    - exists None. split; [done|]. by replace (Z.to_nat start_index) with 0 by lia. }
  destruct Hanchor as (anchor & Hanc & Hanchor).
  assert (Hstart : ∀ k : Doc * option nat → M message,
    replace_paragraph_range doc_path start_index end_index new_paragraphs style
      preserve_style fs
    = try_except
        (bind (lift (for_each new_paragraphs (insert_new_paragraph style_to_use)
                       (doc1, anchor)))
           (fun st => bind (save (fst st) doc_path) (fun _ =>
              ret (MsgReplacedRange (end_index - start_index + 1) start_index
                     end_index (length new_paragraphs)))))
        (MsgFailed OpReplaceRange) fs).
  { intros _. unfold replace_paragraph_range.
    rewrite (bind_ok _ _ _ _ _ (path_exists_true _ _ _ Hfs)). cbn [negb].
    unfold try_except.
    rewrite (bind_ok _ _ _ _ _ (Document_ok _ _ _ Hfs)).
    unfold len at 1. rewrite length_paragraphs_load. fold before.
    replace (start_index <? 0)%Z with false by lia.
    replace (end_index >=? Z.of_nat (length before))%Z with false by lia.
    replace (start_index >? end_index)%Z with false by lia.
    cbn [orb].
    rewrite (bind_ok _ _ _ _ _ Hsty), (bind_ok _ _ _ _ _ Hanc).
    unfold bind at 1, lift at 1. rewrite Hr. done. }
  specialize (Hstart (fun _ => ret (MsgDoesNotExist doc_path))).
  split.
  2:{ intros e Hne Hraise. rewrite Hstart.
      unfold try_except, bind, lift.
      rewrite (insert_loop_raises _ e) by (by rewrite ?Hst1). done. }
  intros name Hstyle.
  destruct (insert_at doc1 anchor (Z.to_nat start_index) style_to_use name new_paragraphs
              Hwf1 Hanchor) as (doc2 & last & Hfor & Hp2 & Ht2 & Hst2).
  { intros Hne. rewrite Hst1. by apply Hstyle. }
  exists (content_of doc2).
  assert (Hps : doc_paragraphs (content_of doc2)
                = take (Z.to_nat start_index) before
                    ++ ((fun txt => new_paragraph txt name) <$> new_paragraphs)
                    ++ drop (S (Z.to_nat end_index)) before).
  { rewrite content_paragraphs, Hp2, Hp1, fmap_app, fmap_take, fmap_drop, paragraphs_load.
    fold before.
    rewrite take_app_le by (rewrite length_take; lia).
    rewrite take_take, Nat.min_id.
    rewrite drop_app_length' by (rewrite length_take; lia). done. }
  split; [|split; [exact Hps|rewrite Hps; split; [|split; [|split; [|split; [|split]]]]]].
  - rewrite Hstart. unfold try_except, bind, lift, save, ret. by rewrite Hfor.
  - unfold len. rewrite !length_app, length_take, length_drop, length_fmap. lia.
  - intros i Hi. rewrite lookup_app_l by (rewrite length_take; lia).
    apply lookup_take_lt. lia.
  - intros k txt Hk.
    rewrite lookup_app_r by (rewrite length_take; lia).
    rewrite length_take.
    replace (Z.to_nat start_index + k - Z.to_nat start_index `min` length before)
      with k by lia.
    rewrite lookup_app_l by (rewrite length_fmap; by eapply lookup_lt_Some).
    by rewrite list_lookup_fmap, Hk.
  - done.
  - by rewrite Ht2, Ht1, content_of_load.
  - simpl. by rewrite Hst2, Hst1.
Qed.

(** ** Table-of-contents paragraphs *)








Section TOC.
  Context `{UnicodeData}.

Lemma upper_app (s1 s2 : text) : PyStr.upper (s1 ++ s2) = PyStr.upper s1 ++ PyStr.upper s2.
Proof. unfold PyStr.upper. by rewrite map_app, concat_app. Qed.

Lemma upper_TOC : PyStr.upper (t "TOC") = t "TOC".
Proof.
  unfold PyStr.upper. cbn [t list_ascii_of_string map concat].
  rewrite !to_upper_ascii by (vm_compute; reflexivity). reflexivity.
Qed.

Lemma skips_toc_is_toc (p : Paragraph) : skips_toc p = true → is_toc_paragraph p = true.
Proof.
  unfold skips_toc, is_toc_paragraph. destruct (p_style p) as [name|]; [|done].
  intros (r & ->)%startswith_spec. apply startswith_spec.
  exists (PyStr.upper r). by rewrite upper_app, upper_TOC.
Qed.



End TOC.

(** ** One save per operation *)

(** The range operations and replace_paragraph_block_below_header save
    once, as their last step: when they do not report success, the file
    system is as it was. *)

Ltac run_cases :=
  unfold bind, path_exists, try_except, Document, ret, lift, save;
  repeat (simpl; case_match; simplify_eq; auto).

Lemma delete_paragraph_range_all_or_nothing (fs fs' : FS) (doc_path : string)
    (start_index end_index : Z) (r : res message) :
  delete_paragraph_range doc_path start_index end_index fs = (r, fs') →
  (∃ m, r = Ok m ∧ is_success m = true) ∨ fs' = fs.
Proof.
  unfold delete_paragraph_range. run_cases; intros; simplify_eq; eauto.
Qed.

Lemma replace_paragraph_range_all_or_nothing (fs fs' : FS) (doc_path : string)
    (start_index end_index : Z) (new_paragraphs : list text) (style : option text)
    (preserve_style : bool) (r : res message) :
  replace_paragraph_range doc_path start_index end_index new_paragraphs style
    preserve_style fs = (r, fs') →
  (∃ m, r = Ok m ∧ is_success m = true) ∨ fs' = fs.
Proof.
  unfold replace_paragraph_range. run_cases; intros; simplify_eq; eauto.
Qed.

Section OneSave.
  Context `{UnicodeData}.

Lemma replace_below_header_all_or_nothing (fs fs' : FS) (doc_path : string)
    (header_text : text) (new_paragraphs : list text)
    (new_paragraph_style : option text) (r : res message) :
  replace_paragraph_block_below_header doc_path header_text new_paragraphs
    new_paragraph_style fs = (r, fs') →
  (∃ m, r = Ok m ∧ is_success m = true) ∨ fs' = fs.
Proof.
  unfold replace_paragraph_block_below_header. run_cases; intros; simplify_eq; eauto.
Qed.

End OneSave.

(** ** The operations on sample documents *)

Section Samples.
  #[local] Existing Instance ascii_only.

(** C1.  replace_block_between_manual_anchors saves the document right after
    the removal and only then looks for the start anchor again, by text.
    With a [match_fn] that finds the markers and an anchor text that no
    paragraph contains, the call returns "Start anchor ... not found after
    deletion (unexpected)." and the file has lost the block. *)
Theorem anchor_block_saved_before_failure :
  let fs := on_disk marked in
  let r := replace_block_between_manual_anchors "report.docx" (t "block")
             [t "new text"] (Some (t "block end")) (Some by_marker) None fs in
  r.1 = Ok (MsgStartAnchorLost (t "block"))
  ∧ is_success (MsgStartAnchorLost (t "block")) = false
  ∧ r.2 !! "report.docx"%string
    = Some (Docx (sample [para "Normal" "Title"; para "Normal" "## begin";
                          para "Normal" "## end"; para "Normal" "tail"]))
  ∧ r.2 !! "report.docx"%string ≠ fs !! "report.docx"%string.
Proof. vm_compute. repeat split; try reflexivity. discriminate. Qed.

(** The same happens without [match_fn] when the insertion raises: the file
    keeps the removal. *)
Lemma anchor_block_saved_before_fault :
  let fs := on_disk marked in
  let r := replace_block_between_manual_anchors "report.docx" (t "## begin")
             [t "new text"] (Some (t "## end")) None (Some (t "Fancy")) fs in
  r.1 = Raise (KeyError (t "Fancy"))
  ∧ r.2 !! "report.docx"%string
    = Some (Docx (sample [para "Normal" "Title"; para "Normal" "## begin";
                          para "Normal" "## end"; para "Normal" "tail"])).
Proof. vm_compute. split; reflexivity. Qed.

(** C2.  replace_paragraph_block_below_header and
    replace_block_between_manual_anchors have no handler: a style that the
    document does not define, or a file that is not a document, makes the
    call raise instead of returning a message. *)
Theorem composite_operations_raise :
  replace_paragraph_block_below_header "report.docx" (t "Summary") [t "new text"]
    (Some (t "Fancy")) (on_disk one_section)
  = (Raise (KeyError (t "Fancy")), on_disk one_section)
  ∧ replace_block_between_manual_anchors "report.docx" (t "Title") [t "new text"]
      None None None {[ "report.docx"%string := Corrupt ]}
    = (Raise PackageNotFoundError, {[ "report.docx"%string := Corrupt ]}).
Proof. split; vm_compute; reflexivity. Qed.

(** The operations with a handler return a message on the same inputs. *)
Lemma range_operations_catch :
  (replace_paragraph_range "report.docx" 0 0 [t "new text"] (Some (t "Fancy")) false
     (on_disk one_section)).1
  = Ok (MsgFailed OpReplaceRange (KeyError (t "Fancy")))
  ∧ (delete_paragraph_range "report.docx" 0 0 {[ "report.docx"%string := Corrupt ]}).1
    = Ok (MsgFailed OpDeleteRange PackageNotFoundError).
Proof. split; vm_compute; reflexivity. Qed.

(** C3.  Under a heading followed by four paragraphs, to the end of the
    document, replace_paragraph_block_below_header removes two paragraphs
    only, reports 2, and the last two stay after the new paragraph. *)
Theorem header_block_partly_removed :
  let r := replace_paragraph_block_below_header "report.docx" (t "Summary")
             [t "new text"] None (on_disk one_section) in
  r.1 = Ok (MsgReplacedUnder (t "Summary") 1 (t "Normal") 2)
  ∧ r.2 !! "report.docx"%string
    = Some (Docx (sample [para "Heading 1" "Summary"; para "Normal" "new text";
                          para "Normal" "third"; para "Normal" "fourth"])).
Proof. vm_compute. split; reflexivity. Qed.

(** With a TOC entry of the same text before the heading,
    delete_block_under_header takes the entry for the header: nothing below
    the heading is removed. *)
Lemma header_block_under_toc_entry :
  let r := replace_paragraph_block_below_header "report.docx" (t "Summary")
             [t "new text"] None (on_disk with_toc) in
  r.1 = Ok (MsgReplacedUnder (t "Summary") 1 (t "Normal") 0)
  ∧ r.2 !! "report.docx"%string
    = Some (Docx (sample [para "TOC 1" "Summary"; para "Heading 1" "Summary";
                          para "Normal" "new text"; para "Normal" "body"])).
Proof. vm_compute. split; reflexivity. Qed.


(** C6 as stated fails: with a style that the document does not define,
    replace_paragraph_range returns a failure and the document keeps its
    five paragraphs. *)
Lemma replace_range_unknown_style :
  let fs := on_disk abcde in
  let r := replace_paragraph_range "report.docx" 1 3 [t "X"; t "Y"]
             (Some (t "Fancy")) false fs in
  r.1 = Ok (MsgFailed OpReplaceRange (KeyError (t "Fancy")))
  ∧ r.2 !! "report.docx"%string = Some (Docx abcde)
  ∧ ¬ (∃ c', r.2 !! "report.docx"%string = Some (Docx c')
             ∧ len (doc_paragraphs c')
               = (len (doc_paragraphs abcde) - (3 - 1 + 1) + 2)%Z).
Proof.
  split; [vm_compute; reflexivity|]. split; [vm_compute; reflexivity|].
  intros (c' & Hc' & Hlen). vm_compute in Hc'. injection Hc' as <-.
  vm_compute in Hlen. discriminate.
Qed.

(** C9 as stated fails: in the runs "ab ", "a", "b" the text "ab" occurs at
    offset 3, across the last two runs, but one pass of the loop replaces
    the occurrence at offset 0, inside the first run: the text becomes
    "X ab", not "ab X", and the last two runs are as they were. *)
Lemma spanning_occurrence_not_replaced :
  let para := ex_para "Normal" [ex_run "ab "; ex_run "a"; ex_run "b"] in
  para_text para = take 3 (para_text para) ++ t "ab" ++ drop 5 (para_text para)
  ∧ char_map (p_runs para) !! 3 = Some (1, 0)
  ∧ char_map (p_runs para) !! 4 = Some (2, 0)
  ∧ ∃ para',
      replace_body para (t "ab") (t "X") = Next para'
      ∧ para_text para' = t "X ab"
      ∧ para_text para' ≠ take 3 (para_text para) ++ t "X" ++ drop 5 (para_text para)
      ∧ p_runs para' = [ex_run "X "; ex_run "a"; ex_run "b"].
Proof.
  repeat split; try (vm_compute; reflexivity).
  eexists. split; [vm_compute; reflexivity|].
  repeat split; try (vm_compute; reflexivity).
  vm_compute. discriminate.
Qed.

(** *** The theorems at work *)

Lemma cross_run_replacement_witness :
  ∃ para',
    replace_body hello_world (t "Hello World") (t "Bye") = Next para'
    ∧ para_text para' = t "Bye!"
    ∧ p_style para' = Some (t "Normal")
    ∧ p_items para' = map IRun [ex_bold "Bye"; ex_run ""; ex_run "!"]
    ∧ para_text hello_world = t "" ++ t "Hello World" ++ t "!".
Proof.
  assert (Hca : 0 < length (r_text (ex_bold "Hel"))) by (simpl; lia).
  assert (Hcb : 2 < length (r_text (ex_run "rld!"))) by (simpl; lia).
  exact (cross_run_replacement (Some (t "Normal")) [] [ex_run "lo Wo"] []
           (ex_bold "Hel") (ex_run "rld!") (t "Hello World") (t "Bye") 0 0 2
           eq_refl Hca eq_refl Hcb eq_refl).
Defined.

Lemma delete_paragraph_range_witness :
  (∃ c',
      delete_paragraph_range "report.docx"%string 1 3 (on_disk abcde)
      = (Ok (MsgDeleted 3 1 3), <["report.docx"%string := Docx c']> (on_disk abcde))
      ∧ len (doc_paragraphs c') = 2%Z
      ∧ (∀ i, (Z.of_nat i < 1)%Z → doc_paragraphs c' !! i = doc_paragraphs abcde !! i)
      ∧ (∀ i, (3 < Z.of_nat i)%Z →
           doc_paragraphs c' !! (i - 3) = doc_paragraphs abcde !! i)
      ∧ doc_tables c' = doc_tables abcde
      ∧ c_styles c' = c_styles abcde)
  ∧ (∃ m,
      delete_paragraph_range "report.docx"%string 2 7 (on_disk abcde) = (Ok m, on_disk abcde)
      ∧ is_success m = false).
Proof.
  split.
  - apply (delete_paragraph_range_spec (on_disk abcde) "report.docx"%string abcde 1 3).
    reflexivity.
  - apply (delete_paragraph_range_spec (on_disk abcde) "report.docx"%string abcde 2 7).
    reflexivity.
Defined.

Lemma replace_paragraph_range_witness :
  (∃ c',
     replace_paragraph_range "report.docx"%string 1 3 [t "X"; t "Y"] None false
       (on_disk abcde)
     = (Ok (MsgReplacedRange 3 1 3 2), <["report.docx"%string := Docx c']> (on_disk abcde))
     ∧ doc_paragraphs c'
       = omap el_para [para "Normal" "A"; para "Normal" "X"; para "Normal" "Y";
                       para "Normal" "E"])
  ∧ replace_paragraph_range "report.docx"%string 1 3 [t "X"; t "Y"] (Some (t "Fancy"))
      false (on_disk abcde)
    = (Ok (MsgFailed OpReplaceRange (KeyError (t "Fancy"))), on_disk abcde).
Proof.
  split.
  - destruct (replace_paragraph_range_spec (on_disk abcde) "report.docx"%string abcde 1 3
                [t "X"; t "Y"] None false eq_refl eq_refl) as [Hdone _].
    destruct (Hdone (Some (t "Normal")) (fun _ => eq_refl)) as (c' & Hrun & Hps & _).
    exists c'. split; [exact Hrun|exact Hps].
  - destruct (replace_paragraph_range_spec (on_disk abcde) "report.docx"%string abcde 1 3
                [t "X"; t "Y"] (Some (t "Fancy")) false eq_refl eq_refl) as [_ Hfail].
    apply Hfail; [discriminate|reflexivity].
Defined.

Lemma find_text_whole_word_witness :
  ∃ occurrences,
    find_text "report.docx"%string (t "hello") false true false (on_disk greeting)
    = (Ok (SearchResults (t "hello") false true occurrences (length occurrences)),
       on_disk greeting)
    ∧ (∀ o i, o ∈ occurrences → o_where o = InBody i →
         ∃ p w, doc_paragraphs greeting !! i = Some p
                ∧ PyStr.split (PyStr.lower (para_text p)) !! o_position o = Some w
                ∧ word_matches false (t "hello") w).
Proof.
  destruct (find_text_whole_word (on_disk greeting) "report.docx"%string greeting (t "hello")
              false false) as (occs & Hrun & Hbody & _).
  - reflexivity.
  - discriminate.
  - exists occs. split; [exact Hrun|exact Hbody].
Defined.


End Samples.

(** * Further properties *)

(** ** The replacement loop *)

Lemma locate_char (runs : list Run) (k : nat) :
  k < length (concat (map r_text runs)) →
  ∃ pre r post ci,
    runs = pre ++ r :: post ∧ ci < length (r_text r)
    ∧ k = length (concat (map r_text pre)) + ci.
Proof.
  revert k. induction runs as [|r runs IH]; intros k Hk; simpl in Hk; [lia|].
  rewrite length_app in Hk.
  destruct (decide (k < length (r_text r))) as [Hlt|Hge].
  - exists [], r, runs, k. simpl. done.
  - destruct (IH (k - length (r_text r))) as (pre & r' & post & ci & -> & Hci & Heq); [lia|].
    exists (r :: pre), r', post, ci. split; [done|]. split; [done|].
    simpl. rewrite length_app. lia.
Qed.

Lemma app_cons_split {A} (pre pre2 post post2 : list A) (a b : A) :
  pre ++ a :: post = pre2 ++ b :: post2 → length pre < length pre2 →
  ∃ mid, pre2 = pre ++ a :: mid ∧ post = mid ++ b :: post2.
Proof.
  revert pre2. induction pre as [|x pre IH]; intros pre2 Heq Hlen.
  - destruct pre2 as [|y pre2]; [simpl in Hlen; lia|].
    simpl in Heq. injection Heq as <- ->. by exists pre2.
  - destruct pre2 as [|y pre2]; [simpl in Hlen; lia|].
    simpl in Heq. injection Heq as <- Heq. simpl in Hlen.
    destruct (IH pre2 Heq) as (mid & -> & ->); [lia|]. by exists mid.
Qed.

Lemma app_cons_same {A} (pre pre2 post post2 : list A) (a b : A) :
  pre ++ a :: post = pre2 ++ b :: post2 → length pre = length pre2 →
  pre = pre2 ∧ a = b ∧ post = post2.
Proof.
  intros Heq Hlen. apply app_inj_1 in Heq as [-> Heq]; [|done].
  by injection Heq as -> ->.
Qed.

Lemma length_concat_app_cons (pre mid : list Run) (a : Run) :
  length (concat (map r_text (pre ++ a :: mid)))
  = length (concat (map r_text pre)) + length (r_text a)
    + length (concat (map r_text mid)).
Proof. rewrite map_app, concat_app, length_app. simpl. rewrite length_app. lia. Qed.

(** *** Paragraphs with and without hyperlinks *)

Lemma no_hyperlink_text (p : Paragraph) : no_hyperlink p → para_text p = runs_text p.
Proof. unfold no_hyperlink, para_text, runs_text. intros ->. apply text_of_runs. Qed.

Lemma no_hyperlink_of_runs style runs : no_hyperlink (of_runs style runs).
Proof. unfold no_hyperlink. by rewrite p_runs_of_runs. Qed.

Lemma p_runs_set_runs (p : Paragraph) (rs : list Run) :
  length rs = length (p_runs p) → p_runs (set_runs p rs) = rs.
Proof. apply runs_with_runs. Qed.

Lemma no_hyperlink_set_runs (p : Paragraph) (rs : list Run) :
  no_hyperlink p → length rs = length (p_runs p) → no_hyperlink (set_runs p rs).
Proof.
  intros Hp Hlen. unfold no_hyperlink. rewrite p_runs_set_runs by done.
  unfold set_runs. cbn [p_items]. rewrite Hp. by apply with_runs_of_runs.
Qed.

Lemma without_runs_with_runs (items : list Inline) (rs : list Run) :
  without_runs (with_runs items rs) = without_runs items.
Proof.
  unfold without_runs. revert rs.
  induction items as [|[r|l] items IH]; intros rs; [done| |].
  - destruct rs as [|r' rs]; cbn [with_runs];
      rewrite !filter_cons_False by (simpl; congruence); apply IH.
  - cbn [with_runs]. rewrite !filter_cons_True by done. f_equal. apply IH.
Qed.

Lemma length_runs_text (items : list Inline) :
  length (concat (map r_text (omap inline_run items)))
  ≤ length (concat (map inline_text items)).
Proof.
  induction items as [|[r|l] items IH]; [done| |].
  - change (omap inline_run (IRun r :: items)) with (r :: omap inline_run items).
    cbn [map concat inline_text]. rewrite !length_app. lia.
  - change (omap inline_run (ILink l :: items)) with (omap inline_run items).
    cbn [map concat inline_text]. rewrite length_app. lia.
Qed.

Lemma runs_text_le (p : Paragraph) : length (runs_text p) ≤ length (para_text p).
Proof. apply length_runs_text. Qed.

Lemma length_map_fmt (l l' : list Run) : map r_fmt l = map r_fmt l' → length l = length l'.
Proof. intros E. apply (f_equal (@length _)) in E. by rewrite !length_map in E. Qed.

(** *** One pass of the loop *)

(** One pass within one run. *)
Lemma replace_body_in_run (para : Paragraph) (pre post : list Run) (r : Run)
    (old_text new_text : text) (start ca : nat) :
  p_runs para = pre ++ r :: post →
  old_text ≠ [] →
  PyStr.find (para_text para) old_text = Some start →
  start = length (concat (map r_text pre)) + ca →
  ca + length old_text ≤ length (r_text r) →
  replace_body para old_text new_text
  = Next (set_runs para
            (pre ++ {| r_text := take ca (r_text r) ++ new_text
                                   ++ drop (ca + length old_text) (r_text r);
                       r_fmt := r_fmt r |} :: post)).
Proof.
  intros Hruns Hne Hfind Hstart Hfit. set (runs := pre ++ r :: post) in *.
  assert (Hold : 0 < length old_text) by (destruct old_text; [done|simpl; lia]).
  assert (Ha : char_map runs !! start = Some (length pre, ca)).
  { subst start. apply char_map_lookup. lia. }
  assert (Hb : char_map runs !! (start + length old_text - 1)
               = Some (length pre, ca + length old_text - 1)).
  { replace (start + length old_text - 1)
      with (length (concat (map r_text pre)) + (ca + length old_text - 1)) by lia.
    apply char_map_lookup. lia. }
  assert (Hr : runs !! length pre = Some r) by (unfold runs; by rewrite list_lookup_middle).
  unfold replace_body. rewrite Hfind, Hruns.
  assert (Hnil : ∀ X : step, match runs with [] => Break | _ :: _ => X end = X).
  { intros X. unfold runs. by destruct pre. }
  rewrite Hnil.
  assert (Hcm : (length (char_map runs) <? start + length old_text) = false).
  { apply Nat.ltb_ge. unfold char_map. rewrite length_char_map_from.
    unfold runs. rewrite length_concat_app_cons. lia. }
  rewrite Hcm, (index_nat _ _ _ Ha).
  replace (Z.of_nat (start + length old_text) - 1)%Z
    with (Z.of_nat (start + length old_text - 1)) by lia.
  rewrite (index_nat _ _ _ Hb), Hr, Nat.eqb_refl.
  unfold runs. rewrite set_run_text_app.
  by replace (ca + length old_text - 1 + 1) with (ca + length old_text) by lia.
Qed.

(** One pass across runs. *)
Lemma replace_body_across_runs (para : Paragraph) (pre mid post : list Run)
    (ra rb : Run) (old_text new_text : text) (start ca cb : nat) :
  p_runs para = pre ++ ra :: mid ++ rb :: post →
  PyStr.find (para_text para) old_text = Some start →
  ca < length (r_text ra) →
  start = length (concat (map r_text pre)) + ca →
  cb < length (r_text rb) →
  start + length old_text = length (concat (map r_text (pre ++ ra :: mid))) + cb + 1 →
  replace_body para old_text new_text
  = Next (set_runs para
            (pre ++ {| r_text := take ca (r_text ra) ++ new_text; r_fmt := r_fmt ra |}
               :: map cleared mid
               ++ {| r_text := drop (cb + 1) (r_text rb); r_fmt := r_fmt rb |}
               :: post)).
Proof.
  intros Hruns Hfind Hca Hstart Hcb Hend.
  set (runs := pre ++ ra :: mid ++ rb :: post) in *.
  set (a := length pre). set (b := length (pre ++ ra :: mid)).
  assert (Hruns2 : runs = (pre ++ ra :: mid) ++ rb :: post).
  { unfold runs. by rewrite <-app_assoc. }
  assert (Ha : char_map runs !! start = Some (a, ca)).
  { subst start. by apply char_map_lookup. }
  assert (Hb : char_map runs !! (start + length old_text - 1) = Some (b, cb)).
  { replace (start + length old_text - 1)
      with (length (concat (map r_text (pre ++ ra :: mid))) + cb) by lia.
    rewrite Hruns2. by apply char_map_lookup. }
  assert (Hra : runs !! a = Some ra) by (unfold runs; by rewrite list_lookup_middle).
  assert (Hrb : runs !! b = Some rb) by (rewrite Hruns2; by rewrite list_lookup_middle).
  assert (Hne : (a =? b) = false).
  { apply Nat.eqb_neq. unfold a, b. rewrite length_app. simpl. lia. }
  unfold replace_body. rewrite Hfind, Hruns.
  assert (Hnil : ∀ X : step, match runs with [] => Break | _ :: _ => X end = X).
  { intros X. unfold runs. by destruct pre. }
  rewrite Hnil.
  assert (Hcm : (length (char_map runs) <? start + length old_text) = false).
  { apply Nat.ltb_ge. unfold char_map. rewrite length_char_map_from.
    rewrite Hruns2, length_concat_app_cons. lia. }
  rewrite Hcm, (index_nat _ _ _ Ha).
  replace (Z.of_nat (start + length old_text) - 1)%Z
    with (Z.of_nat (start + length old_text - 1)) by lia.
  rewrite (index_nat _ _ _ Hb), Hra, Hrb, Hne. do 2 f_equal.
  unfold runs, a, b. apply multi_run_assignments.
Qed.

(** The pass on a paragraph that contains a non-empty [old_text], when the
    runs hold enough characters: the characters of the runs at the offsets
    of the occurrence are replaced. *)
Lemma replace_body_step (para : Paragraph) (old_text new_text : text) (start : nat) :
  old_text ≠ [] →
  PyStr.find (para_text para) old_text = Some start →
  start + length old_text ≤ length (runs_text para) →
  ∃ runs',
    replace_body para old_text new_text = Next (set_runs para runs')
    ∧ concat (map r_text runs')
      = take start (runs_text para) ++ new_text
          ++ drop (start + length old_text) (runs_text para)
    ∧ map r_fmt runs' = map r_fmt (p_runs para).
Proof.
  intros Hne Hfind Hlen. unfold runs_text in *.
  remember (p_runs para) as runs eqn:Hruns0.
  assert (Hold : 0 < length old_text) by (destruct old_text; [done|simpl; lia]).
  destruct (locate_char runs start) as (pre & ra & post & ca & Hruns & Hca & Hstart); [lia|].
  destruct (locate_char runs (start + length old_text - 1))
    as (pre2 & rb & post2 & cb & Hruns2 & Hcb & Hend); [lia|].
  destruct (decide (length pre2 < length pre)) as [Hlt|Hge].
  { (* the last character cannot lie in an earlier run *)
    exfalso. rewrite Hruns2 in Hruns.
    destruct (app_cons_split _ _ _ _ _ _ Hruns Hlt) as (mid & -> & _).
    rewrite length_concat_app_cons in Hstart. lia. }
  destruct (decide (length pre = length pre2)) as [Heq|Hneq].
  - (* within one run *)
    rewrite Hruns in Hruns2.
    destruct (app_cons_same _ _ _ _ _ _ Hruns2 Heq) as (<- & <- & <-).
    eexists. split.
    { apply (replace_body_in_run para pre post ra old_text new_text start ca);
        [congruence|done|done|done|lia]. }
    rewrite Hruns. split.
    + rewrite !map_app, !concat_app. simpl.
      set (Tpre := concat (map r_text pre)) in *.
      rewrite Hstart at 1. rewrite take_app_add', take_app_le by lia.
      rewrite <-!app_assoc. do 3 f_equal.
      replace (start + length old_text)
        with (length Tpre + (ca + length old_text)) by lia.
      rewrite drop_app_add' by done. by rewrite drop_app_le by lia.
    + rewrite !map_app. done.
  - (* across runs *)
    rewrite Hruns in Hruns2.
    destruct (app_cons_split _ _ _ _ _ _ Hruns2) as (mid & -> & ->); [lia|].
    eexists. split.
    { apply (replace_body_across_runs para pre mid post2 ra rb old_text new_text
               start ca cb); [congruence|done|done|done|done|lia]. }
    rewrite Hruns. split.
    + rewrite !map_app, !concat_app. simpl. rewrite !map_app, !concat_app. simpl.
      rewrite concat_cleared. simpl.
      set (Tpre := concat (map r_text pre)) in *.
      set (Tmid := concat (map r_text mid)) in *.
      rewrite length_concat_app_cons in Hend. fold Tpre Tmid in Hend.
      rewrite Hstart at 1. rewrite take_app_add', take_app_le by lia.
      rewrite <-!app_assoc. do 3 f_equal.
      replace (start + length old_text)
        with (length Tpre + (length (r_text ra) + (length Tmid + (cb + 1)))) by lia.
      rewrite !drop_app_add' by done. by rewrite drop_app_le by lia.
    + rewrite !map_app. simpl. rewrite !map_app, map_map. simpl.
      reflexivity.
Qed.

(** The pass when the runs do not hold all the characters up to the end of
    the occurrence: one of the two guards ends the loop. *)
Lemma replace_body_guard (para : Paragraph) (old_text new_text : text) (start : nat) :
  PyStr.find (para_text para) old_text = Some start →
  length (runs_text para) < start + length old_text →
  replace_body para old_text new_text = Break.
Proof.
  intros Hfind Hlen. unfold replace_body. rewrite Hfind.
  unfold runs_text in Hlen. destruct (p_runs para) as [|r runs]; [done|].
  unfold char_map. rewrite length_char_map_from.
  by apply Nat.ltb_lt in Hlen as ->.
Qed.

(** What a pass that replaces leaves of the paragraph. *)
Lemma set_runs_keeps (para : Paragraph) (runs' : list Run) :
  map r_fmt runs' = map r_fmt (p_runs para) →
  p_runs (set_runs para runs') = runs'
  ∧ p_style (set_runs para runs') = p_style para
  ∧ without_runs (p_items (set_runs para runs')) = without_runs (p_items para)
  ∧ (no_hyperlink para → no_hyperlink (set_runs para runs')).
Proof.
  intros Hfmt. apply length_map_fmt in Hfmt.
  split; [by apply p_runs_set_runs|]. split; [done|].
  split; [apply without_runs_with_runs|].
  intros Hp. by apply no_hyperlink_set_runs.
Qed.

(** What the loop has done when it ends. *)
Lemma replace_loop_post (old_text new_text : text) :
  old_text ≠ [] →
  ∀ fuel para count r,
    _replace_in_paragraph_loop fuel para old_text new_text count = Some r →
    ∃ n para',
      r = Ok (count + n, para')
      ∧ p_style para' = p_style para
      ∧ map r_fmt (p_runs para') = map r_fmt (p_runs para)
      ∧ without_runs (p_items para') = without_runs (p_items para)
      ∧ length (runs_text para') + n * length old_text
        = length (runs_text para) + n * length new_text
      ∧ (no_hyperlink para → no_hyperlink para')
      ∧ match PyStr.find (para_text para') old_text with
        | Some start => length (runs_text para') < start + length old_text
        | None => True
        end.
Proof.
  intros Hne. induction fuel as [|fuel IH]; intros para count r Hr; [done|].
  cbn [_replace_in_paragraph_loop] in Hr.
  destruct (PyStr.contains (para_text para) old_text) eqn:Hc.
  - apply contains_true in Hc as [start Hfind].
    destruct (decide (start + length old_text ≤ length (runs_text para))) as [Hfit|Hout].
    + destruct (replace_body_step para old_text new_text start Hne Hfind Hfit)
        as (runs' & Hstep & Htext & Hfmt).
      rewrite Hstep in Hr.
      destruct (set_runs_keeps para runs' Hfmt) as (Hruns' & Hstyle & Hlinks & Hnh).
      destruct (IH _ _ _ Hr) as (n & para' & -> & Hs' & Hf' & Hk' & Hl' & Hn' & Hend).
      exists (S n), para'. split; [f_equal; f_equal; lia|].
      split; [congruence|]. split; [congruence|]. split; [congruence|].
      split; [|split; [tauto|exact Hend]].
      unfold runs_text in Hl' at 2. rewrite Hruns', Htext in Hl'.
      rewrite !length_app, length_take, length_drop in Hl'. lia.
    + rewrite (replace_body_guard para old_text new_text start Hfind) in Hr by lia.
      injection Hr as <-. exists 0, para. rewrite Nat.add_0_r.
      repeat (split; [done|]). rewrite Hfind. lia.
  - injection Hr as <-. exists 0, para. rewrite Nat.add_0_r.
    repeat (split; [done|]). apply contains_false in Hc. by rewrite Hc.
Qed.

(** Without hyperlinks the loop ends only when no occurrence is left. *)
Lemma no_hyperlink_clean (para : Paragraph) (old_text : text) :
  no_hyperlink para →
  match PyStr.find (para_text para) old_text with
  | Some start => length (runs_text para) < start + length old_text
  | None => True
  end →
  PyStr.contains (para_text para) old_text = false.
Proof.
  intros Hp Hend. apply contains_false.
  destruct (PyStr.find (para_text para) old_text) as [start|] eqn:Hfind; [|done].
  apply find_Some_length in Hfind. rewrite (no_hyperlink_text _ Hp) in Hfind. lia.
Qed.

(** More fuel does not change a result. *)
Lemma replace_loop_fuel (old_text new_text : text) :
  ∀ fuel para count r,
    _replace_in_paragraph_loop fuel para old_text new_text count = Some r →
    _replace_in_paragraph_loop (S fuel) para old_text new_text count = Some r.
Proof.
  induction fuel as [|fuel IH]; intros para count r Hr; [done|].
  cbn [_replace_in_paragraph_loop] in Hr |- *.
  destruct (PyStr.contains (para_text para) old_text); [|done].
  destruct (replace_body para old_text new_text); try done.
  by apply IH.
Qed.

(** A replacement shorter than the text it replaces: the loop ends. *)
Lemma replace_loop_shrinks (old_text new_text : text) :
  old_text ≠ [] → length new_text < length old_text →
  ∀ fuel para count,
    length (runs_text para) < fuel →
    ∃ r, _replace_in_paragraph_loop fuel para old_text new_text count = Some r.
Proof.
  intros Hne Hshort. induction fuel as [|fuel IH]; intros para count Hfuel; [lia|].
  cbn [_replace_in_paragraph_loop].
  destruct (PyStr.contains (para_text para) old_text) eqn:Hc; [|eauto].
  apply contains_true in Hc as [start Hfind].
  destruct (decide (start + length old_text ≤ length (runs_text para))) as [Hfit|Hout].
  - destruct (replace_body_step para old_text new_text start Hne Hfind Hfit)
      as (runs' & Hstep & Htext & Hfmt).
    rewrite Hstep. apply IH.
    destruct (set_runs_keeps para runs' Hfmt) as (Hruns' & _).
    unfold runs_text at 1. rewrite Hruns', Htext.
    rewrite !length_app, length_take, length_drop. lia.
  - rewrite (replace_body_guard para old_text new_text start Hfind) by lia. eauto.
Qed.

Lemma char_map_nil (runs : list Run) :
  concat (map r_text runs) = [] → char_map runs = [].
Proof.
  intros Ht. apply length_zero_iff_nil. unfold char_map.
  by rewrite length_char_map_from, Ht.
Qed.

(** X1.  One pass of the loop of _replace_in_paragraph on a paragraph whose
    text contains a non-empty [old_text], the first occurrence at offset
    [start].  The pass takes the characters to replace from the text of the
    runs of the paragraph, at the offsets of the occurrence.  When the runs
    hold that many characters, these characters are replaced by [new_text],
    within one run or across runs, and the paragraph keeps its style, its
    hyperlinks, its runs and the formatting of each run; when they do not,
    the pass leaves the loop.  On a paragraph without hyperlinks the text
    becomes the text with the first occurrence replaced by [new_text]. *)
Theorem replace_pass_first_occurrence (para : Paragraph) (old_text new_text : text)
    (start : nat) :
  old_text ≠ [] →
  PyStr.find (para_text para) old_text = Some start →
  (start + length old_text ≤ length (runs_text para) →
   ∃ para',
     replace_body para old_text new_text = Next para'
     ∧ runs_text para'
       = take start (runs_text para) ++ new_text
           ++ drop (start + length old_text) (runs_text para)
     ∧ p_style para' = p_style para
     ∧ map r_fmt (p_runs para') = map r_fmt (p_runs para)
     ∧ without_runs (p_items para') = without_runs (p_items para))
  ∧ (length (runs_text para) < start + length old_text →
     replace_body para old_text new_text = Break)
  ∧ (no_hyperlink para →
     ∃ para',
       replace_body para old_text new_text = Next para'
       ∧ no_hyperlink para'
       ∧ para_text para'
         = take start (para_text para) ++ new_text
             ++ drop (start + length old_text) (para_text para)).
Proof.
  intros Hne Hfind.
  assert (Hpass : start + length old_text ≤ length (runs_text para) →
    ∃ para',
      replace_body para old_text new_text = Next para'
      ∧ runs_text para'
        = take start (runs_text para) ++ new_text
            ++ drop (start + length old_text) (runs_text para)
      ∧ p_style para' = p_style para
      ∧ map r_fmt (p_runs para') = map r_fmt (p_runs para)
      ∧ without_runs (p_items para') = without_runs (p_items para)
      ∧ (no_hyperlink para → no_hyperlink para')).
  { intros Hfit.
    destruct (replace_body_step para old_text new_text start Hne Hfind Hfit)
      as (runs' & Hstep & Htext & Hfmt).
    destruct (set_runs_keeps para runs' Hfmt) as (Hruns' & Hstyle & Hlinks & Hnh).
    exists (set_runs para runs'). split; [done|].
    unfold runs_text at 1. rewrite Hruns'. done. }
  split; [|split].
  - intros Hfit. destruct (Hpass Hfit) as (para' & H1 & H2 & H3 & H4 & H5 & _). eauto 10.
  - by apply replace_body_guard.
  - intros Hp. pose proof (find_Some_length _ _ _ Hfind) as Hlen.
    rewrite (no_hyperlink_text _ Hp) in Hlen |- *.
    destruct (Hpass Hlen) as (para' & H1 & H2 & _ & _ & _ & H6).
    exists para'. split; [done|]. split; [by apply H6|].
    by rewrite (no_hyperlink_text _ (H6 Hp)).
Qed.

(** X2.  For a non-empty [old_text], _replace_in_paragraph does not raise.
    When it returns [n], the paragraph keeps its style, its hyperlinks and
    the formatting of every run, and the text of its runs has changed in
    length by [n] times the difference of the two lengths.  The loop has
    ended because no occurrence of [old_text] is left in the text of the
    paragraph, or because the runs do not hold all the characters up to the
    end of the next occurrence; on a paragraph without hyperlinks no
    occurrence is left. *)
Theorem replace_in_paragraph_result (fuel : nat) (para : Paragraph)
    (old_text new_text : text) (r : res (nat * Paragraph)) :
  old_text ≠ [] →
  _replace_in_paragraph fuel para old_text new_text = Some r →
  ∃ n para',
    r = Ok (n, para')
    ∧ p_style para' = p_style para
    ∧ map r_fmt (p_runs para') = map r_fmt (p_runs para)
    ∧ without_runs (p_items para') = without_runs (p_items para)
    ∧ length (runs_text para') + n * length old_text
      = length (runs_text para) + n * length new_text
    ∧ match PyStr.find (para_text para') old_text with
      | Some start => length (runs_text para') < start + length old_text
      | None => True
      end
    ∧ (no_hyperlink para →
       no_hyperlink para' ∧ PyStr.contains (para_text para') old_text = false).
Proof.
  intros Hne Hr. unfold _replace_in_paragraph in Hr.
  destruct (replace_loop_post old_text new_text Hne _ _ _ _ Hr)
    as (n & para' & -> & Hs & Hf & Hk & Hl & Hn & Hend).
  exists n, para'. repeat (split; [done|]).
  intros Hp. split; [by apply Hn|]. apply no_hyperlink_clean; [by apply Hn|done].
Qed.

(** X3.  When [new_text] is shorter than a non-empty [old_text], the loop
    ends: as many passes as the runs of the paragraph have characters, and
    one more, are enough, and the count is at most that number of
    characters; on a paragraph without hyperlinks no occurrence is left. *)
Theorem replace_in_paragraph_shrinking (fuel : nat) (para : Paragraph)
    (old_text new_text : text) :
  old_text ≠ [] →
  length new_text < length old_text →
  length (runs_text para) < fuel →
  ∃ n para',
    _replace_in_paragraph fuel para old_text new_text = Some (Ok (n, para'))
    ∧ n ≤ length (runs_text para)
    ∧ (no_hyperlink para → PyStr.contains (para_text para') old_text = false).
Proof.
  intros Hne Hshort Hfuel. unfold _replace_in_paragraph.
  destruct (replace_loop_shrinks old_text new_text Hne Hshort fuel para 0 Hfuel)
    as [r Hr].
  destruct (replace_loop_post old_text new_text Hne _ _ _ _ Hr)
    as (n & para' & -> & _ & _ & _ & Hl & Hn & Hend).
  exists n, para'. split; [done|]. split; [nia|].
  intros Hp. apply no_hyperlink_clean; [by apply Hn|done].
Qed.

(** X4.  With an empty [old_text] the loop is entered (the empty string is
    in every text): a paragraph without runs leaves it at once with count 0,
    a paragraph with runs and no text makes it raise IndexError. *)
Theorem replace_in_paragraph_empty_old (fuel : nat) (para : Paragraph) (new_text : text) :
  para_text para = [] →
  _replace_in_paragraph (S fuel) para [] new_text
  = match p_runs para with
    | [] => Some (Ok (0, para))
    | _ => Some (Raise IndexError)
    end.
Proof.
  intros Ht. unfold _replace_in_paragraph. cbn [_replace_in_paragraph_loop].
  unfold replace_body. rewrite Ht. simpl.
  destruct (p_runs para) as [|r runs] eqn:Hruns; [done|].
  rewrite <-Hruns.
  assert (Hnil : concat (map r_text (p_runs para)) = []).
  { apply length_zero_iff_nil. pose proof (runs_text_le para) as Hle.
    unfold runs_text in Hle. rewrite Ht in Hle. simpl in Hle. lia. }
  rewrite (char_map_nil _ Hnil). reflexivity.
Qed.

Lemma replace_pass_first_occurrence_witness :
  (6 + 5 ≤ 11 →
   ∃ para',
     replace_body (ex_para "Normal" [ex_bold "Hello "; ex_run "World"]) (t "World")
       (t "There") = Next para'
     ∧ runs_text para' = t "Hello " ++ t "There" ++ []
     ∧ p_style para' = Some (t "Normal")
     ∧ map r_fmt (p_runs para') = [r_fmt (ex_bold ""); plain]
     ∧ without_runs (p_items para') = [])
  ∧ (11 < 6 + 5 →
     replace_body (ex_para "Normal" [ex_bold "Hello "; ex_run "World"]) (t "World")
       (t "There") = Break)
  ∧ (no_hyperlink (ex_para "Normal" [ex_bold "Hello "; ex_run "World"]) →
     ∃ para',
       replace_body (ex_para "Normal" [ex_bold "Hello "; ex_run "World"]) (t "World")
         (t "There") = Next para'
       ∧ no_hyperlink para'
       ∧ para_text para' = t "Hello " ++ t "There" ++ []).
Proof.
  assert (Hne : t "World" ≠ []) by discriminate.
  exact (replace_pass_first_occurrence
           (ex_para "Normal" [ex_bold "Hello "; ex_run "World"]) (t "World")
           (t "There") 6 Hne eq_refl).
Defined.

Lemma replace_in_paragraph_result_witness :
  ∃ n para',
    Ok (2, ex_para "Normal" [ex_run "b"; ex_run ""; ex_run " b"]) = Ok (n, para')
    ∧ p_style para' = Some (t "Normal")
    ∧ map r_fmt (p_runs para') = [plain; plain; plain]
    ∧ without_runs (p_items para') = []
    ∧ length (runs_text para') + n * 2 = 5 + n * 1
    ∧ match PyStr.find (para_text para') (t "aa") with
      | Some start => length (runs_text para') < start + 2
      | None => True
      end
    ∧ (no_hyperlink (ex_para "Normal" [ex_run "a"; ex_run "a"; ex_run " aa"]) →
       no_hyperlink para' ∧ PyStr.contains (para_text para') (t "aa") = false).
Proof.
  assert (Hne : t "aa" ≠ []) by discriminate.
  exact (replace_in_paragraph_result 5
           (ex_para "Normal" [ex_run "a"; ex_run "a"; ex_run " aa"]) (t "aa") (t "b")
           _ Hne eq_refl).
Defined.

Lemma replace_in_paragraph_shrinking_witness :
  ∃ n para',
    _replace_in_paragraph 6 (ex_para "Normal" [ex_run "a"; ex_run "a"; ex_run " aa"])
      (t "aa") (t "b") = Some (Ok (n, para'))
    ∧ n ≤ 5
    ∧ (no_hyperlink (ex_para "Normal" [ex_run "a"; ex_run "a"; ex_run " aa"]) →
       PyStr.contains (para_text para') (t "aa") = false).
Proof.
  assert (Hne : t "aa" ≠ []) by discriminate.
  assert (Hshort : length (t "b") < length (t "aa")) by (simpl; lia).
  assert (Hfuel : length (runs_text (ex_para "Normal"
                    [ex_run "a"; ex_run "a"; ex_run " aa"])) < 6) by (simpl; lia).
  exact (replace_in_paragraph_shrinking 6 _ (t "aa") (t "b") Hne Hshort Hfuel).
Defined.

Lemma replace_in_paragraph_empty_old_witness :
  _replace_in_paragraph 1 (ex_para "Normal" [ex_run ""]) [] (t "x")
  = Some (Raise IndexError).
Proof.
  exact (replace_in_paragraph_empty_old 0 (ex_para "Normal" [ex_run ""]) (t "x") eq_refl).
Defined.

(** A hyperlink before the occurrence: the text reads "abcatxx", the
    occurrence of "cat" is at offset 2, and the pass replaces the characters
    at the offsets 2 to 4 of the run "catxx": the text becomes "abcadog".
    With the hyperlink after a run that is too short, the pass leaves the loop
    and the text keeps its "cat". *)
Lemma replace_body_beside_hyperlink :
  let linked := {| p_style := None;
                   p_items := [ILink [ex_run "ab"]; IRun (ex_run "catxx")] |} in
  let short := {| p_style := None;
                  p_items := [IRun (ex_run "x"); ILink [ex_run "cat"]] |} in
  para_text linked = t "abcatxx"
  ∧ (∃ para', replace_body linked (t "cat") (t "dog") = Next para'
              ∧ para_text para' = t "abcadog")
  ∧ _replace_in_paragraph 5 short (t "cat") (t "dog") = Some (Ok (0, short))
  ∧ PyStr.contains (para_text short) (t "cat") = true.
Proof.
  split; [reflexivity|]. split; [eexists; split; vm_compute; reflexivity|].
  split; vm_compute; reflexivity.
Qed.

(** ** Replacement in a document *)

Lemma replace_each_id {X} (f : X → T (nat * X)) (l : list X) :
  (∀ x, x ∈ l → f x = Some (Ok (0, x))) → replace_each f l = Some (Ok (0, l)).
Proof.
  induction l as [|x l IH]; intros Hf; [done|].
  cbn [replace_each]. rewrite (Hf x) by (by left). cbn [T_bind].
  rewrite IH by (intros y Hy; apply Hf; by right). done.
Qed.

Lemma replace_each_total {X} (f : X → T (nat * X)) (l : list X) :
  (∀ x, x ∈ l → ∃ r, f x = Some (Ok r)) → ∃ r, replace_each f l = Some (Ok r).
Proof.
  induction l as [|x l IH]; intros Hf; [by eexists|].
  cbn [replace_each]. destruct (Hf x) as [r1 ->]; [by left|]. cbn [T_bind].
  destruct IH as [r2 ->]; [intros y Hy; apply Hf; by right|]. by eexists.
Qed.

Lemma elem_of_node_paragraphs (doc : Doc) (p : Paragraph) :
  p ∈ all_paragraphs doc ↔ ∃ n, n ∈ body doc ∧ p ∈ node_paragraphs n.
Proof.
  unfold all_paragraphs. rewrite elem_of_concat. split.
  - intros (l & Hl & Hp). apply list_elem_of_fmap in Hl as (n & -> & Hn). eauto.
  - intros (n & Hn & Hp). exists (node_paragraphs n). split; [|done].
    by apply list_elem_of_fmap_2.
Qed.

Lemma replace_in_absent (fuel : nat) (old_text new_text : text) (p : Paragraph) :
  (skips_toc p = false → PyStr.contains (para_text p) old_text = false) →
  replace_in fuel old_text new_text p = Some (Ok (0, p)).
Proof.
  intros Hp. unfold replace_in. destruct (skips_toc p); [done|]. by rewrite Hp.
Qed.

(** X5.  When no paragraph outside the table of contents contains
    [old_text], in the body or in a table cell, find_and_replace_text
    returns 0 and the document is as it was. *)
Theorem find_and_replace_text_absent (fuel : nat) (doc : Doc) (old_text new_text : text) :
  (∀ p, p ∈ all_paragraphs doc → skips_toc p = false →
        PyStr.contains (para_text p) old_text = false) →
  find_and_replace_text fuel doc old_text new_text = Some (Ok (0, doc)).
Proof.
  intros Habsent. unfold find_and_replace_text.
  assert (Hnode : ∀ n p, n ∈ body doc → p ∈ node_paragraphs n →
            replace_in fuel old_text new_text p = Some (Ok (0, p))).
  { intros n p Hn Hp. apply replace_in_absent. apply Habsent.
    apply elem_of_node_paragraphs. eauto. }
  rewrite replace_each_id; cbn [T_bind fst snd].
  - rewrite replace_each_id; cbn [T_bind fst snd].
    + by destruct doc.
    + intros n Hn. destruct n as [id el]. destruct el as [p|tb|]; try done. simpl.
      rewrite replace_each_id; [done|].
      intros row Hrow. apply replace_each_id. intros cell Hcell.
      apply replace_each_id. intros p Hp. apply (Hnode _ p Hn).
      unfold node_paragraphs. simpl. apply elem_of_concat. exists cell. split; [|done].
      apply elem_of_concat. eauto.
  - intros n Hn. destruct n as [id el]. destruct el as [p|tb|]; try done. simpl.
    rewrite (Hnode _ p Hn); [done|]. unfold node_paragraphs. simpl. by left.
Qed.

Lemma replace_each_spec {X} (P : X → Prop) (Q : X → X → Prop)
    (f : X → T (nat * X)) (l : list X) :
  (∀ x, x ∈ l → P x → ∃ r, f x = Some (Ok r) ∧ Q x (snd r)) →
  Forall P l →
  ∃ r, replace_each f l = Some (Ok r) ∧ Forall2 Q l (snd r).
Proof.
  induction l as [|x l IH]; intros Hf HP.
  - eexists. split; [done|]. constructor.
  - apply Forall_cons in HP as [Hx HP]. cbn [replace_each].
    destruct (Hf x) as (r1 & -> & HQ); [by left|done|]. cbn [T_bind].
    destruct IH as (r2 & -> & HQs); [intros y Hy; apply Hf; by right|done|].
    cbn [T_bind]. eexists. split; [done|]. by constructor.
Qed.

Lemma replace_in_shrinks (fuel : nat) (old_text new_text : text) (p : Paragraph) :
  old_text ≠ [] → length new_text < length old_text →
  no_hyperlink p ∧ length (para_text p) < fuel →
  ∃ r, replace_in fuel old_text new_text p = Some (Ok r) ∧ clean_of old_text (snd r).
Proof.
  intros Hne Hshort [Hnh Hfuel]. rewrite (no_hyperlink_text _ Hnh) in Hfuel.
  unfold replace_in, clean_of.
  destruct (skips_toc p) eqn:Htoc.
  { eexists. split; [done|]. simpl. congruence. }
  destruct (PyStr.contains (para_text p) old_text) eqn:Hc.
  - unfold _replace_in_paragraph.
    destruct (replace_loop_shrinks old_text new_text Hne Hshort fuel p 0 Hfuel)
      as [r Hr].
    destruct (replace_loop_post old_text new_text Hne _ _ _ _ Hr)
      as (n & p' & -> & _ & _ & _ & _ & Hn & Hend).
    rewrite Hr. eexists. split; [done|]. intros _.
    apply no_hyperlink_clean; [by apply Hn|done].
  - eexists. split; [done|]. done.
Qed.

Lemma Forall_concat {A} (P : A → Prop) (ls : list (list A)) :
  Forall (Forall P) ls → Forall P (concat ls).
Proof. induction 1; simpl; [constructor|]. by apply Forall_app. Qed.

Lemma Forall_concat_inv {A} (P : A → Prop) (ls : list (list A)) :
  Forall P (concat ls) → Forall (Forall P) ls.
Proof.
  induction ls as [|l ls IH]; simpl; [constructor|].
  intros [? ?]%Forall_app. constructor; auto.
Qed.

Lemma Forall2_Forall_r' {A} (Q : A → A → Prop) (P : A → Prop) (l l' : list A) :
  Forall2 Q l l' → (∀ x y, Q x y → P y) → Forall P l'.
Proof. induction 1; intros HQ; constructor; eauto. Qed.

(** X6.  On a document whose paragraphs have no hyperlinks, with a
    replacement shorter than the non-empty text it replaces, and fuel above
    the length of every paragraph, find_and_replace_text returns, and no
    paragraph outside the table of contents contains [old_text] afterwards,
    in the body or in a table cell; the elements of the body keep their
    identities and their order. *)
Theorem find_and_replace_text_shrinking (fuel : nat) (doc : Doc)
    (old_text new_text : text) :
  old_text ≠ [] →
  length new_text < length old_text →
  (∀ p, p ∈ all_paragraphs doc → no_hyperlink p ∧ length (para_text p) < fuel) →
  ∃ n doc',
    find_and_replace_text fuel doc old_text new_text = Some (Ok (n, doc'))
    ∧ (∀ p, p ∈ all_paragraphs doc' → skips_toc p = false →
            PyStr.contains (para_text p) old_text = false)
    ∧ n_id <$> body doc' = n_id <$> body doc.
Proof.
  intros Hne Hshort Hfuel. unfold find_and_replace_text.
  set (P := fun n : Node =>
              Forall (fun p => no_hyperlink p ∧ length (para_text p) < fuel) (node_paragraphs n)).
  set (Q1 := fun n n' : Node =>
               n_id n' = n_id n ∧
               match n_el n with
               | EPara _ => ∃ p', n_el n' = EPara p' ∧ clean_of old_text p'
               | _ => n' = n
               end).
  set (Q2 := fun n n' : Node =>
               n_id n' = n_id n ∧
               match n_el n with
               | ETable _ => Forall (clean_of old_text) (node_paragraphs n')
               | _ => n' = n
               end).
  assert (HP : Forall P (body doc)).
  { apply Forall_forall. intros n Hn. apply Forall_forall. intros p Hp.
    apply Hfuel, elem_of_node_paragraphs. eauto. }
  edestruct (replace_each_spec P Q1) as ([c1 b1] & -> & H1); [|exact HP|].
  { intros n _ Hn. destruct n as [id el]. unfold P, node_paragraphs in Hn.
    destruct el as [p|tb|]; simpl in *.
    - apply Forall_cons in Hn as [Hp _].
      destruct (replace_in_shrinks fuel old_text new_text p Hne Hshort Hp)
        as (r & -> & Hr).
      cbn [T_bind]. eexists. split; [done|]. split; [done|]. simpl. eauto.
    - eexists. split; [done|]. by split.
    - eexists. split; [done|]. by split. }
  cbn [T_bind fst snd] in H1 |- *.
  assert (HP1 : Forall (fun n => match n_el n with ETable _ => P n | _ => True end) b1).
  { clear -H1 HP. set (l0 := body doc) in *. clearbody l0. revert HP.
    induction H1 as [|n n' l l' [_ Hn] Hl IH]; intros HP; [constructor|].
    apply Forall_cons in HP as [Hp HP]. constructor; [|by apply IH].
    destruct (n_el n) eqn:Hel; subst; try by rewrite Hel.
    destruct Hn as (p' & -> & _). done. }
  edestruct (replace_each_spec
               (fun n => match n_el n with ETable _ => P n | _ => True end) Q2)
    as ([c2 b2] & -> & H2); [|exact HP1|].
  { intros n _ Hn. destruct n as [id el].
    destruct el as [p|tb|]; simpl in *.
    - eexists. split; [done|]. by split.
    - unfold P, node_paragraphs in Hn. simpl in Hn.
      edestruct (replace_each_spec
                   (Forall (Forall (fun p => no_hyperlink p ∧ length (para_text p) < fuel)))
                   (fun _ row' => Forall (Forall (clean_of old_text)) row'))
        as (r & -> & Hr); [| |].
      { intros row _ Hrow.
        edestruct (replace_each_spec
                     (Forall (fun p => no_hyperlink p ∧ length (para_text p) < fuel))
                     (fun _ cell' => Forall (clean_of old_text) cell'))
          as (rr & -> & Hrr); [|exact Hrow|].
        { intros cell _ Hcell.
          edestruct (replace_each_spec
                       (fun p => no_hyperlink p ∧ length (para_text p) < fuel)
                       (fun _ p' => clean_of old_text p'))
            as (rc & -> & Hrc); [|exact Hcell|].
          { intros p _ Hp. by apply replace_in_shrinks. }
          eexists. split; [done|]. eapply Forall2_Forall_r'; [exact Hrc|done]. }
        eexists. split; [done|]. eapply Forall2_Forall_r'; [exact Hrr|done]. }
      { apply Forall_concat_inv in Hn. by apply Forall_concat_inv in Hn. }
      cbn [T_bind]. eexists. split; [done|]. split; [done|].
      unfold node_paragraphs. simpl.
      apply Forall_concat, Forall_concat.
      eapply Forall2_Forall_r'; [exact Hr|done].
    - eexists. split; [done|]. by split. }
  cbn [T_bind fst snd] in H2 |- *.
  do 2 eexists. split; [done|]. split.
  - intros p Hp. change (clean_of old_text p). revert p Hp.
    apply Forall_forall. unfold all_paragraphs. cbn [body with_body].
    apply Forall_concat, Forall_fmap.
    clear -H1 H2. set (l0 := body doc) in *. clearbody l0. revert b2 H2.
    induction H1 as [|n n1 l l1 [_ Hn1] Hl IH]; intros b2 H2;
      inversion H2 as [|? n2 ? l2 [_ Hn2] Hl2]; subst; constructor; [|by apply IH].
    simpl. destruct (n_el n) eqn:Hel.
    + destruct Hn1 as (p' & Hel1 & Hp'). rewrite Hel1 in Hn2. subst.
      unfold node_paragraphs. rewrite Hel1. by constructor.
    + subst. by rewrite Hel in Hn2.
    + subst. rewrite Hel in Hn2. subst. unfold node_paragraphs. rewrite Hel. constructor.
  - cbn [body with_body]. clear -H1 H2. set (l0 := body doc) in *. clearbody l0.
    revert b2 H2.
    induction H1 as [|n n1 l l1 [Hid1 _] Hl IH]; intros b2 H2;
      inversion H2 as [|? n2 ? l2 [Hid2 _] Hl2]; subst; [done|].
    rewrite !fmap_cons. f_equal; [congruence|]. by apply IH.
Qed.

Lemma find_and_replace_text_absent_witness :
  find_and_replace_text 3
    (load (sample [para "TOC 1" "Summary"; para "Normal" "body"]))
    (t "Summary") (t "Outline")
  = Some (Ok (0, load (sample [para "TOC 1" "Summary"; para "Normal" "body"]))).
Proof.
  apply (find_and_replace_text_absent 3
           (load (sample [para "TOC 1" "Summary"; para "Normal" "body"]))
           (t "Summary") (t "Outline")).
  intros p Hp Htoc. vm_compute in Hp.
  apply elem_of_cons in Hp as [->|Hp]; [discriminate Htoc|].
  apply elem_of_cons in Hp as [->|Hp]; [reflexivity|].
  by apply elem_of_nil in Hp.
Defined.

Lemma find_and_replace_text_shrinking_witness :
  ∃ n doc',
    find_and_replace_text 6
      (load (sample [para "Normal" "aa aa";
                     ETable [[[ex_para "Normal" [ex_run "xa"; ex_run "ax"]]]]]))
      (t "aa") (t "b") = Some (Ok (n, doc'))
    ∧ (∀ p, p ∈ all_paragraphs doc' → skips_toc p = false →
            PyStr.contains (para_text p) (t "aa") = false)
    ∧ n_id <$> body doc' = [0; 1].
Proof.
  assert (Hne : t "aa" ≠ []) by discriminate.
  assert (Hshort : length (t "b") < length (t "aa")) by (simpl; lia).
  apply (find_and_replace_text_shrinking 6
           (load (sample [para "Normal" "aa aa";
                          ETable [[[ex_para "Normal" [ex_run "xa"; ex_run "ax"]]]]]))
           (t "aa") (t "b") Hne Hshort).
  intros p Hp. vm_compute in Hp.
  apply elem_of_cons in Hp as [->|Hp]; [split; [reflexivity|simpl; lia]|].
  apply elem_of_cons in Hp as [->|Hp]; [split; [reflexivity|simpl; lia]|].
  by apply elem_of_nil in Hp.
Defined.

(** ** Normalized text *)

Section Normalized.
  Context `{UnicodeData}.

Lemma isspace_space : PyStr.isspace (ch " ") = true.
Proof. unfold PyStr.isspace. by rewrite is_space_ascii. Qed.

Lemma lstrip_app (u v : text) :
  PyStr.lstrip (u ++ v)
  = match PyStr.lstrip u with [] => PyStr.lstrip v | _ => PyStr.lstrip u ++ v end.
Proof.
  induction u as [|c u IH]; simpl; [done|].
  destruct (PyStr.isspace c); [exact IH|done].
Qed.

Lemma lstrip_collapse_ws (b : bool) (s : text) :
  PyStr.lstrip (PyStr.collapse_ws b s) = PyStr.collapse_ws true (PyStr.lstrip s).
Proof.
  revert b. induction s as [|c s IH]; intros b; simpl; [done|].
  destruct (PyStr.isspace c) eqn:Hc.
  - destruct b; cbn [PyStr.lstrip]; rewrite ?isspace_space; apply IH.
  - simpl. by rewrite Hc.
Qed.

Lemma split_lstrip (s : text) : PyStr.split (PyStr.lstrip s) = PyStr.split s.
Proof.
  unfold PyStr.split. induction s as [|c s IH]; simpl; [done|].
  destruct (PyStr.isspace c) eqn:Hc; [exact IH|]. simpl. by rewrite Hc.
Qed.

Lemma split_from_nonempty (cur s : text) :
  Forall (fun w => w ≠ []) (PyStr.split_from cur s).
Proof.
  revert cur. induction s as [|c s IH]; intros cur; simpl.
  - destruct cur as [|d cur]; [constructor|]. constructor; [|constructor].
    simpl. by destruct (rev cur).
  - destruct (PyStr.isspace c); [|apply IH].
    destruct cur as [|d cur]; [apply IH|]. constructor; [|apply IH].
    simpl. by destruct (rev cur).
Qed.

Lemma str_join_nil (sep : text) (l : list text) :
  Forall (fun w => w ≠ []) l → str_join sep l = [] → l = [].
Proof.
  intros Hl. destruct Hl as [|w l Hw Hl]; [done|]. simpl.
  destruct l; [done|]. by destruct w.
Qed.

(** [s.rstrip()], as [strip] computes it. *)
Lemma rstrip_app (a b : text) :
  rev (PyStr.lstrip (rev (a ++ b)))
  = match rev (PyStr.lstrip (rev b)) with
    | [] => rev (PyStr.lstrip (rev a))
    | _ => a ++ rev (PyStr.lstrip (rev b))
    end.
Proof.
  rewrite rev_app_distr, lstrip_app.
  destruct (PyStr.lstrip (rev b)) as [|c r] eqn:Hb; [done|].
  rewrite rev_app_distr, rev_involutive.
  destruct (rev (c :: r)) eqn:Hr; [|done].
  apply (f_equal (@length _)) in Hr. rewrite length_rev in Hr. done.
Qed.

Lemma rstrip_word (c : char) (cur : text) :
  PyStr.isspace c = false →
  rev (PyStr.lstrip (rev (rev (c :: cur)))) = rev (c :: cur).
Proof. intros Hc. rewrite rev_involutive. simpl. by rewrite Hc. Qed.

Lemma collapse_split (s : text) :
  rev (PyStr.lstrip (rev (PyStr.collapse_ws true s)))
  = str_join (t " ") (PyStr.split_from [] s)
  ∧ ∀ c cur, PyStr.isspace c = false →
      rev (PyStr.lstrip (rev (rev (c :: cur) ++ PyStr.collapse_ws false s)))
      = str_join (t " ") (PyStr.split_from (c :: cur) s).
Proof.
  induction s as [|d s [IHa IHb]].
  - split; [done|]. intros c cur Hc. cbn [PyStr.collapse_ws PyStr.split_from str_join].
    rewrite app_nil_r. by apply rstrip_word.
  - cbn [PyStr.collapse_ws PyStr.split_from].
    destruct (PyStr.isspace d) eqn:Hd.
    + split; [exact IHa|]. intros c cur Hc.
      rewrite rstrip_app, (rstrip_word c cur Hc).
      change (ch " " :: PyStr.collapse_ws true s)
        with ([ch " "] ++ PyStr.collapse_ws true s).
      rewrite rstrip_app, IHa.
      assert (Hsp : rev (PyStr.lstrip (rev [ch " "])) = []).
      { cbn [rev app PyStr.lstrip]. by rewrite isspace_space. }
      rewrite Hsp.
      pose proof (split_from_nonempty [] s) as Hne.
      destruct (PyStr.split_from [] s) as [|w l] eqn:Hs; [done|].
      destruct (str_join (t " ") (w :: l)) eqn:Hj.
      { apply str_join_nil in Hj; done. }
      cbn [str_join]. rewrite <- Hj. done.
    + split.
      * apply (IHb d []). done.
      * intros c cur Hc.
        replace (rev (c :: cur) ++ d :: PyStr.collapse_ws false s)
          with (rev (d :: c :: cur) ++ PyStr.collapse_ws false s).
        { by apply IHb. }
        cbn [rev]. by rewrite <- !app_assoc.
Qed.

Lemma strip_collapse_split (s : text) :
  PyStr.strip (PyStr.collapse_ws false s) = str_join (t " ") (PyStr.split s).
Proof.
  unfold PyStr.strip. rewrite lstrip_collapse_ws.
  rewrite (proj1 (collapse_split _)). fold (PyStr.split (PyStr.lstrip s)).
  by rewrite split_lstrip.
Qed.

(** X7.  _normalize_text(s) is the words of the NFKC form of s, as
    str.split() cuts them, joined by single spaces. *)
Theorem normalize_text_words (s : text) :
  _normalize_text s = str_join (t " ") (PyStr.split (nfkc s)).
Proof. unfold _normalize_text. apply strip_collapse_split. Qed.

(** X8.  Two header or anchor queries whose NFKC forms have the same words
    resolve to the same paragraph: the header searches of
    delete_block_under_header and replace_paragraph_block_below_header, the
    heading search of get_section_paragraphs and the anchor search after the
    reload give the same result for both. *)
Theorem header_query_whitespace (paras : list (nat * Paragraph)) (a b : text) :
  PyStr.split (nfkc a) = PyStr.split (nfkc b) →
  find_header_for_delete paras a = find_header_for_delete paras b
  ∧ find_header_for_replace paras a = find_header_for_replace paras b
  ∧ section_heading_idx paras a = section_heading_idx paras b
  ∧ refind_anchor paras a = refind_anchor paras b.
Proof.
  intros Hwords.
  assert (Hnorm : _normalize_text a = _normalize_text b).
  { unfold _normalize_text. by rewrite !strip_collapse_split, Hwords. }
  unfold find_header_for_delete, find_header_for_replace, section_heading_idx,
    refind_anchor.
  by rewrite Hnorm.
Qed.

End Normalized.

Section NormalizedSamples.
  #[local] Existing Instance ascii_only.

Lemma header_query_whitespace_witness :
  find_header_for_delete (paragraphs (load one_section)) (t "  Summary ")
  = find_header_for_delete (paragraphs (load one_section)) (t "Summary")
  ∧ find_header_for_replace (paragraphs (load one_section)) (t "  Summary ")
    = find_header_for_replace (paragraphs (load one_section)) (t "Summary")
  ∧ section_heading_idx (paragraphs (load one_section)) (t "  Summary ")
    = section_heading_idx (paragraphs (load one_section)) (t "Summary")
  ∧ refind_anchor (paragraphs (load one_section)) (t "  Summary ")
    = refind_anchor (paragraphs (load one_section)) (t "Summary").
Proof.
  exact (@header_query_whitespace ascii_only (paragraphs (load one_section))
           (t "  Summary ") (t "Summary") eq_refl).
Defined.

End NormalizedSamples.

(** ** The substring search of find_text *)



Lemma find_from_Some (s sub : text) (start pos : nat) :
  PyStr.find_from s sub start = Some pos →
  start ≤ pos ∧ pos + length sub ≤ length s
  ∧ PyStr.startswith (drop pos s) sub = true
  ∧ ∀ q, start ≤ q → q < pos → PyStr.startswith (drop q s) sub = false.
Proof.
  unfold PyStr.find_from. destruct (start <=? length s) eqn:Hs; [|done].
  apply Nat.leb_le in Hs.
  destruct (PyStr.find (drop start s) sub) as [k|] eqn:Hk; [|done].
  intros [= <-]. split; [lia|].
  pose proof (find_Some_length _ _ _ Hk) as Hlen. rewrite length_drop in Hlen.
  split; [lia|]. split.
  - apply find_startswith in Hk. by rewrite drop_drop in Hk.
  - intros q Hq1 Hq2.
    pose proof (find_lowest _ _ _ Hk (q - start)) as Hlow.
    rewrite drop_drop in Hlow. replace (start + (q - start)) with q in Hlow by lia.
    apply Hlow. lia.
Qed.

Lemma find_from_None (s sub : text) (start q : nat) :
  sub ≠ [] →
  PyStr.find_from s sub start = None → start ≤ q →
  PyStr.startswith (drop q s) sub = false.
Proof.
  intros Hne. unfold PyStr.find_from. destruct (start <=? length s) eqn:Hs.
  - destruct (PyStr.find (drop start s) sub) as [k|] eqn:Hk; [done|].
    intros _ Hq. pose proof (find_None _ _ (q - start) Hk) as Hn.
    rewrite drop_drop in Hn. by replace (start + (q - start)) with q in Hn by lia.
  - intros _ Hq. apply Nat.leb_gt in Hs.
    rewrite drop_ge by lia. destruct sub; done.
Qed.

Lemma substring_positions_spec (s sub : text) :
  sub ≠ [] →
  ∀ fuel start, length s < fuel + start →
    let l := substring_positions fuel s sub start in
    (* every reported position is at or after [start], and an occurrence *)
    (∀ p, p ∈ l → start ≤ p ∧ PyStr.startswith (drop p s) sub = true)
    (* reported occurrences do not overlap *)
    ∧ (∀ i p q, l !! i = Some p → l !! S i = Some q → p + length sub ≤ q)
    (* an occurrence from [start] on is reported, or overlaps one that is *)
    ∧ (∀ q, start ≤ q → PyStr.startswith (drop q s) sub = true →
            ∃ p, p ∈ l ∧ p ≤ q < p + length sub)
    (* more passes through the loop do not change the result *)
    ∧ (∀ fuel', fuel ≤ fuel' → substring_positions fuel' s sub start = l).
Proof.
  intros Hne. induction fuel as [|fuel IH]; intros start Hfuel; cbn zeta.
  - (* [start] is beyond the end of [s] *)
    assert (Hnone : PyStr.find_from s sub start = None).
    { unfold PyStr.find_from. destruct (start <=? length s) eqn:Hs; [|done].
      apply Nat.leb_le in Hs. simpl in Hfuel. lia. }
    simpl. split; [by intros p ?%elem_of_nil|]. split; [done|]. split.
    + intros q Hq Hocc. by rewrite (find_from_None s sub start q) in Hocc.
    + intros [|fuel'] _; [done|]. simpl. by rewrite Hnone.
  - cbn [substring_positions].
    destruct (PyStr.find_from s sub start) as [pos|] eqn:Hfind.
    + apply find_from_Some in Hfind as (Hle & Hlen & Hocc & Hlow).
      assert (Hsub : 0 < length sub) by (destruct sub; [done|simpl; lia]).
      destruct (IH (pos + length sub)) as (IH1 & IH2 & IH3 & IH4); [lia|].
      split; [|split; [|split]].
      * intros p [->|Hp]%elem_of_cons; [done|].
        destruct (IH1 p Hp). split; [lia|done].
      * intros [|i] p q Hp Hq; simpl in Hp, Hq.
        -- injection Hp as <-. apply list_elem_of_lookup_2 in Hq.
           by destruct (IH1 q Hq).
        -- by apply (IH2 i).
      * intros q Hq Hq'. destruct (decide (q < pos + length sub)) as [Hlt|Hge].
        -- exists pos. split; [by left|]. split; [|done].
           destruct (decide (pos ≤ q)); [done|].
           rewrite Hlow in Hq'; [done|done|lia].
        -- destruct (IH3 q) as (p & Hp & Hpq); [lia|done|].
           exists p. split; [by right|done].
      * intros [|fuel'] Hf; [lia|]. cbn [substring_positions].
        destruct (PyStr.find_from s sub start) as [pos'|] eqn:Hfind'.
        -- apply find_from_Some in Hfind' as (Hle' & Hlen' & Hocc' & Hlow').
           assert (pos' = pos) as ->.
           { destruct (Nat.lt_trichotomy pos' pos) as [Hlt|[->|Hgt]]; [|done|].
             - rewrite Hlow in Hocc'; [done|done|done].
             - rewrite Hlow' in Hocc; [done|done|done]. }
           f_equal. apply IH4. lia.
        -- by rewrite (find_from_None s sub start pos) in Hocc.
    + split; [by intros p ?%elem_of_nil|]. split; [done|]. split.
      * intros q Hq Hocc. by rewrite (find_from_None s sub start q) in Hocc.
      * intros [|fuel'] Hf; [lia|]. simpl.
        destruct (PyStr.find_from s sub start) eqn:E; [|done].
        apply find_from_Some in E as (? & ? & E & _).
        by rewrite (find_from_None s sub start) in E.
Qed.

Section Substring.
  Context `{UnicodeData}.

Lemma to_lower_nonempty (before : text) (c : char) (after : text) :
  to_lower before c after ≠ [].
Proof.
  destruct (decide (c < 128)%N) as [Hc|Hc].
  - by rewrite to_lower_ascii.
  - apply to_lower_other. lia.
Qed.

Lemma lower_nonempty (s : text) : s ≠ [] → PyStr.lower s ≠ [].
Proof.
  destruct s as [|c s]; [done|]. intros _. unfold PyStr.lower. cbn [PyStr.lower_from].
  pose proof (to_lower_nonempty [] c s) as Hne.
  by destruct (to_lower [] c s).
Qed.

Lemma folded_nonempty (match_case : bool) (s : text) : s ≠ [] → folded match_case s ≠ [].
Proof. destruct match_case; [done|]. apply lower_nonempty. Qed.

(** X9.  The positions find_text reports for a paragraph in a substring
    search (whole_word false), for a non-empty search text: each one is the
    offset of an occurrence of the search text in the paragraph text, both
    case-folded unless match_case; consecutive ones are at least the length
    of the search text apart; every occurrence is reported or overlaps a
    reported one that starts before it; and the scan has ended: more passes
    through the loop would report the same positions. *)
Theorem find_text_substring_positions (place : Location) (para : Paragraph)
    (text_to_find : text) (match_case include_paragraph_text : bool) :
  text_to_find ≠ [] →
  let s := folded match_case (para_text para) in
  let sub := folded match_case text_to_find in
  let l := o_position <$> occurrences_in place para text_to_find match_case false
                            include_paragraph_text in
  (∀ p, p ∈ l → PyStr.startswith (drop p s) sub = true)
  ∧ (∀ i p q, l !! i = Some p → l !! S i = Some q → p + length sub ≤ q)
  ∧ (∀ q, PyStr.startswith (drop q s) sub = true →
          ∃ p, p ∈ l ∧ p ≤ q < p + length sub)
  ∧ (∀ fuel, length s < fuel → substring_positions fuel s sub 0 = l).
Proof.
  intros Hne s sub l.
  assert (Hl : l = substring_positions (S (length s)) s sub 0).
  { unfold l, occurrences_in. rewrite <- list_fmap_compose.
    unfold s, sub, folded. destruct match_case; cbn [negb]; apply list_fmap_id. }
  destruct (substring_positions_spec s sub (folded_nonempty _ _ Hne)
              (S (length s)) 0) as (H1 & H2 & H3 & H4); [lia|].
  cbn zeta in *. rewrite Hl. split; [|split; [|split]].
  - intros p Hp. by destruct (H1 p Hp).
  - exact H2.
  - intros q Hq. apply H3; [lia|done].
  - intros fuel Hfuel. apply H4. lia.
Qed.

End Substring.

Section SubstringSamples.
  #[local] Existing Instance ascii_only.

Lemma find_text_substring_positions_witness :
  let s := PyStr.lower (t "Banana bandana") in
  let sub := PyStr.lower (t "ANA") in
  let l := [1; 11] in
  (∀ p, p ∈ l → PyStr.startswith (drop p s) sub = true)
  ∧ (∀ i p q, l !! i = Some p → l !! S i = Some q → p + length sub ≤ q)
  ∧ (∀ q, PyStr.startswith (drop q s) sub = true →
          ∃ p, p ∈ l ∧ p ≤ q < p + length sub)
  ∧ (∀ fuel, length s < fuel → substring_positions fuel s sub 0 = l).
Proof.
  assert (Hne : t "ANA" ≠ []) by discriminate.
  exact (find_text_substring_positions (InBody 0)
           (ex_para "Normal" [ex_run "Banana "; ex_run "bandana"]) (t "ANA")
           false false Hne).
Defined.

End SubstringSamples.

(** ** Reading paragraphs *)

Lemma index_Ok {A} (l : list A) (i : Z) (x : A) :
  (0 ≤ i)%Z → l !! Z.to_nat i = Some x → PyStr.index l i = Ok x.
Proof.
  intros Hi Hx. unfold PyStr.index.
  destruct (i <? 0)%Z eqn:E; [lia|]. rewrite E. by rewrite Hx.
Qed.

Lemma collect_infos_loop (doc : Doc) (lo : Z) (n : nat)
    (acc : list ParagraphInfo) :
  (0 ≤ lo)%Z → Z.to_nat lo + n ≤ length (paragraphs doc) →
  for_each (map (fun k => (lo + Z.of_nat k)%Z) (seq 0 n))
    (fun acc i =>
       res_bind (PyStr.index (paragraphs doc) i)
         (fun para => Ok (acc ++ [paragraph_info i (snd para)])))
    acc
  = Ok (acc ++ imap (fun k p => paragraph_info (lo + Z.of_nat k) (snd p))
                 (take n (drop (Z.to_nat lo) (paragraphs doc)))).
Proof.
  revert lo acc. induction n as [|n IH]; intros lo acc Hlo Hn.
  - simpl. by rewrite app_nil_r.
  - cbn [seq map for_each].
    destruct (lookup_lt_is_Some_2 (paragraphs doc) (Z.to_nat lo)) as [p Hp]; [lia|].
    rewrite Z.add_0_r, (index_Ok _ lo p Hlo Hp). cbn [res_bind].
    rewrite <- seq_shift, map_map.
    rewrite (map_ext _ (fun k => (lo + 1 + Z.of_nat k)%Z)) by (intros; lia).
    rewrite IH by lia.
    replace (Z.to_nat (lo + 1)) with (S (Z.to_nat lo)) by lia.
    rewrite (drop_S _ _ _ Hp). cbn [take imap]. rewrite Z.add_0_r.
    rewrite <- app_assoc. cbn [app]. do 3 f_equal.
    apply imap_ext. intros k q _. simpl. f_equal. lia.
Qed.

Lemma collect_infos_spec (doc : Doc) (lo hi : Z) :
  (0 ≤ lo)%Z → (hi ≤ len (paragraphs doc))%Z →
  collect_infos doc lo hi
  = Ok (imap (fun k p => paragraph_info (lo + Z.of_nat k) (snd p))
          (take (Z.to_nat (hi - lo)) (drop (Z.to_nat lo) (paragraphs doc)))).
Proof.
  intros Hlo Hhi. unfold collect_infos, PyStr.range, len in *.
  destruct (decide (lo ≤ hi)%Z).
  - rewrite collect_infos_loop by lia. done.
  - replace (Z.to_nat (hi - lo)) with 0 by lia. done.
Qed.

Lemma paragraph_infos_load (c : Content) (lo : Z) (n : nat) :
  imap (fun k p => paragraph_info (lo + Z.of_nat k) (snd p))
    (take n (drop (Z.to_nat lo) (paragraphs (load c))))
  = imap (fun k p => paragraph_info (lo + Z.of_nat k) p)
      (take n (drop (Z.to_nat lo) (doc_paragraphs c))).
Proof.
  rewrite <- paragraphs_load, <- fmap_drop, <- fmap_take, imap_fmap. done.
Qed.

Lemma get_paragraph_text_run (fs : FS) (doc_path : string) (c : Content) (i : Z) :
  fs !! doc_path = Some (Docx c) →
  get_paragraph_text doc_path i fs
  = (Ok (match (if (0 <=? i)%Z then doc_paragraphs c !! Z.to_nat i else None) with
         | Some p => inr (paragraph_info i p)
         | None => inl (ErrInvalidIndex i (len (doc_paragraphs c)))
         end), fs).
Proof.
  intros Hfs. unfold get_paragraph_text.
  rewrite (bind_ok _ _ _ _ _ (path_exists_true _ _ _ Hfs)). cbn [negb].
  unfold try_except. rewrite (bind_ok _ _ _ _ _ (Document_ok _ _ _ Hfs)).
  unfold len. rewrite length_paragraphs_load.
  destruct (Z.ltb_spec i 0) as [Hneg|Hpos]; cbn [orb].
  { unfold ret. destruct (Z.leb_spec 0 i); [lia|done]. }
  destruct (Z.leb_spec 0 i); [|lia].
  destruct (Z.geb_spec i (Z.of_nat (length (doc_paragraphs c)))) as [Hbig|Hin].
  { unfold ret. rewrite lookup_ge_None_2 by lia. done. }
  destruct (index_in_range (paragraphs (load c)) i) as (p & Hp & Hidx).
  { unfold len. rewrite length_paragraphs_load. lia. }
  unfold bind, lift, ret. rewrite Hidx.
  apply lookup_snd in Hp. rewrite paragraphs_load in Hp. by rewrite Hp.
Qed.

(** X10.  On a document with the paragraphs [doc_paragraphs c] and for
    bounds [0 <= start_index <= end_index < total], get_paragraph_range
    returns the entries of the paragraphs from start_index to end_index in
    order, numbered from start_index, with their count
    [end_index - start_index + 1]; each entry is what get_paragraph_text
    returns for its index; the file system is not changed. *)
Theorem get_paragraph_range_entries (fs : FS) (doc_path : string) (c : Content)
    (start_index end_index : Z) :
  fs !! doc_path = Some (Docx c) →
  valid_range start_index end_index (len (doc_paragraphs c)) = true →
  let infos :=
    imap (fun k p => paragraph_info (start_index + Z.of_nat k) p)
      (take (Z.to_nat (end_index - start_index + 1))
         (drop (Z.to_nat start_index) (doc_paragraphs c))) in
  get_paragraph_range doc_path start_index end_index fs
  = (Ok (inr {| g_paragraphs := infos;
                g_count := Z.to_nat (end_index - start_index + 1) |}), fs)
  ∧ ∀ k info, infos !! k = Some info →
      get_paragraph_text doc_path (start_index + Z.of_nat k) fs = (Ok (inr info), fs).
Proof.
  intros Hfs Hvalid infos. unfold valid_range, len in Hvalid.
  apply andb_true_iff in Hvalid as [Hvalid H3].
  apply andb_true_iff in Hvalid as [H1 H2].
  apply Z.leb_le in H1, H2. apply Z.ltb_lt in H3.
  assert (Hlen : length infos = Z.to_nat (end_index - start_index + 1)).
  { unfold infos. rewrite length_imap, length_take, length_drop. lia. }
  split.
  - unfold get_paragraph_range.
    rewrite (bind_ok _ _ _ _ _ (path_exists_true _ _ _ Hfs)). cbn [negb].
    unfold try_except. rewrite (bind_ok _ _ _ _ _ (Document_ok _ _ _ Hfs)).
    unfold len. rewrite length_paragraphs_load.
    destruct (Z.ltb_spec start_index 0); [lia|].
    destruct (Z.geb_spec end_index (Z.of_nat (length (doc_paragraphs c)))); [lia|].
    destruct (Z.gtb_spec start_index end_index); [lia|].
    unfold bind, lift, ret.
    rewrite collect_infos_spec; [|lia|unfold len; rewrite length_paragraphs_load; lia].
    replace (end_index + 1 - start_index)%Z with (end_index - start_index + 1)%Z by lia.
    rewrite paragraph_infos_load. fold infos. by rewrite Hlen.
  - intros k info Hk. rewrite (get_paragraph_text_run _ _ c) by done.
    unfold infos in Hk. apply list_lookup_imap_Some in Hk as (p & Hp & ->).
    rewrite lookup_take_Some in Hp. destruct Hp as [Hp Hlt].
    rewrite lookup_drop in Hp.
    destruct (Z.leb_spec 0 (start_index + Z.of_nat k)); [|lia].
    replace (Z.to_nat (start_index + Z.of_nat k)) with (Z.to_nat start_index + k) by lia.
    by rewrite Hp.
Qed.

(** X11.  get_paragraph_text on a document returns the entry of the
    paragraph at [paragraph_index] when [0 <= paragraph_index < total], and
    the invalid-index error otherwise: a negative index is refused, not
    counted from the end.  The file system is not changed. *)
Theorem get_paragraph_text_in_bounds (fs : FS) (doc_path : string) (c : Content)
    (paragraph_index : Z) :
  fs !! doc_path = Some (Docx c) →
  get_paragraph_text doc_path paragraph_index fs
  = (Ok (match (if (0 <=? paragraph_index)%Z
                then doc_paragraphs c !! Z.to_nat paragraph_index else None) with
         | Some p => inr (paragraph_info paragraph_index p)
         | None => inl (ErrInvalidIndex paragraph_index (len (doc_paragraphs c)))
         end), fs).
Proof. apply get_paragraph_text_run. Qed.

(** X12.  For bounds that are not [0 <= start_index <= end_index < total],
    get_paragraph_range returns an error and no paragraphs, by the order of
    its checks: a negative start first, then an end beyond the last
    paragraph, then a start after the end. *)
Theorem get_paragraph_range_refused (fs : FS) (doc_path : string) (c : Content)
    (start_index end_index : Z) :
  fs !! doc_path = Some (Docx c) →
  valid_range start_index end_index (len (doc_paragraphs c)) = false →
  get_paragraph_range doc_path start_index end_index fs
  = (Ok (inl (if (start_index <? 0)%Z then ErrStartNegative start_index
              else if (end_index >=? len (doc_paragraphs c))%Z
                   then ErrEndExceeds end_index (len (doc_paragraphs c))
                   else ErrStartAfterEnd start_index end_index)), fs).
Proof.
  intros Hfs Hvalid. unfold valid_range in Hvalid.
  unfold get_paragraph_range.
  rewrite (bind_ok _ _ _ _ _ (path_exists_true _ _ _ Hfs)). cbn [negb].
  unfold try_except. rewrite (bind_ok _ _ _ _ _ (Document_ok _ _ _ Hfs)).
  unfold len in *. rewrite length_paragraphs_load.
  destruct (Z.ltb_spec start_index 0); [done|].
  destruct (Z.geb_spec end_index (Z.of_nat (length (doc_paragraphs c)))); [done|].
  destruct (Z.gtb_spec start_index end_index); [done|].
  exfalso. revert Hvalid.
  destruct (Z.leb_spec 0 start_index); [|lia].
  destruct (Z.leb_spec start_index end_index); [|lia].
  destruct (Z.ltb_spec end_index (Z.of_nat (length (doc_paragraphs c)))); [|lia].
  done.
Qed.

Lemma get_paragraph_range_entries_witness :
  get_paragraph_range "report.docx" 1 2 (on_disk one_section)
  = (Ok (inr {| g_paragraphs :=
                  [ {| i_index := 1; i_text := t "first"; i_style := t "Normal";
                       i_is_heading := false |};
                    {| i_index := 2; i_text := t "second"; i_style := t "Normal";
                       i_is_heading := false |} ];
                g_count := 2 |}), on_disk one_section)
  ∧ ∀ k info,
      [ {| i_index := 1%Z; i_text := t "first"; i_style := t "Normal";
           i_is_heading := false |};
        {| i_index := 2%Z; i_text := t "second"; i_style := t "Normal";
           i_is_heading := false |} ] !! k = Some info →
      get_paragraph_text "report.docx" (1 + Z.of_nat k) (on_disk one_section)
      = (Ok (inr info), on_disk one_section).
Proof.
  exact (get_paragraph_range_entries (on_disk one_section) "report.docx" one_section
           1 2 eq_refl eq_refl).
Defined.

Lemma get_paragraph_text_in_bounds_witness :
  get_paragraph_text "report.docx" (-1) (on_disk one_section)
  = (Ok (inl (ErrInvalidIndex (-1) 5)), on_disk one_section).
Proof.
  exact (get_paragraph_text_in_bounds (on_disk one_section) "report.docx" one_section
           (-1) eq_refl).
Defined.

Lemma get_paragraph_range_refused_witness :
  get_paragraph_range "report.docx" 3 1 (on_disk one_section)
  = (Ok (inl (ErrStartAfterEnd 3 1)), on_disk one_section).
Proof.
  exact (get_paragraph_range_refused (on_disk one_section) "report.docx" one_section
           3 1 eq_refl eq_refl).
Defined.

(** ** Sections of a document *)

Section Sections.
  Context `{UnicodeData} `{IntOfStr}.

Lemma section_heading_idx_Some (paras : list (nat * Paragraph)) (heading_text : text)
    (h : nat) :
  section_heading_idx paras heading_text = Some h →
  ∃ x, paras !! h = Some x ∧ is_Heading (snd x) = true.
Proof.
  unfold section_heading_idx.
  destruct (first_match _ paras) as [[i x]|] eqn:H1.
  - intros [= <-]. apply first_match_Some in H1 as (Hx & Hc & _).
    apply andb_true_iff in Hc as [Hc _]. eauto.
  - destruct (first_match (fun p => _ && PyStr.contains _ _) paras)
      as [[i x]|] eqn:H2; [|by cbn].
    cbn. intros [= <-]. apply first_match_Some in H2 as (Hx & Hc & _).
    apply andb_true_iff in Hc as [Hc _]. eauto.
Qed.

(** X13.  get_section_paragraphs on a document.  When no heading matches,
    the result is the heading-not-found error.  When the heading search
    gives index [h], the result is a section whose heading is the paragraph
    at [h], a heading paragraph; the section runs to [stop], the index of
    the first later heading paragraph whose level is at most the level of
    the heading, or the paragraph count when there is none; no paragraph
    between [h] and [stop] is such a heading; the paragraphs reported are
    those from [h] (from [h + 1] without include_heading) up to [stop],
    in order; the content bounds are None for an empty section.  The file
    system is not changed. *)
Theorem get_section_paragraphs_spec (fs : FS) (doc_path : string) (c : Content)
    (heading_text : text) (include_heading : bool) :
  fs !! doc_path = Some (Docx c) →
  let ps := doc_paragraphs c in
  match section_heading_idx (paragraphs (load c)) heading_text with
  | None =>
      get_section_paragraphs doc_path heading_text include_heading fs
      = (Ok (inl (ErrHeadingNotFound heading_text)), fs)
  | Some h =>
      ∃ sec hp stop,
        get_section_paragraphs doc_path heading_text include_heading fs
        = (Ok (inr sec), fs)
        ∧ ps !! h = Some hp ∧ is_Heading hp = true
        ∧ s_heading_index sec = h
        ∧ s_heading_text sec = para_text hp
        ∧ p_style hp = Some (s_heading_style sec)
        ∧ s_heading_level sec = level_of (s_heading_style sec) 1
        ∧ h < stop ≤ length ps
        ∧ (∀ j p, h < j < stop → ps !! j = Some p →
                  ends_section (s_heading_level sec) p = false)
        ∧ match s_next_heading_index sec with
          | Some j => j = stop ∧ ∃ p, ps !! j = Some p
                                  ∧ ends_section (s_heading_level sec) p = true
          | None => stop = length ps
          end
        ∧ (let start := if include_heading then h else h + 1 in
           s_paragraphs sec
           = imap (fun k p => paragraph_info (Z.of_nat (start + k)) p)
               (take (stop - start) (drop start ps)))
        ∧ s_content_start_index sec
          = (if decide (h + 1 < stop) then Some (Z.of_nat (h + 1)) else None)
        ∧ s_content_end_index sec
          = (if decide (h + 1 < stop) then Some (Z.of_nat (stop - 1)) else None)
  end.
Proof.
  intros Hfs ps.
  unfold get_section_paragraphs.
  rewrite (bind_ok _ _ _ _ _ (path_exists_true _ _ _ Hfs)). cbn [negb].
  unfold try_except. rewrite (bind_ok _ _ _ _ _ (Document_ok _ _ _ Hfs)).
  cbv beta.
  destruct (section_heading_idx (paragraphs (load c)) heading_text) as [h|] eqn:Hh;
    [|done].
  destruct (section_heading_idx_Some _ _ _ Hh) as ([hid hp] & Hhp & Hhead).
  rewrite (bind_ok _ _ _ _ _ (f_equal (fun r => (r, fs)) (index_nat _ _ _ Hhp))).
  cbn [snd] in *.
  assert (Hstyle : ∃ name, p_style hp = Some name).
  { unfold is_Heading in Hhead. destruct (p_style hp); [eauto|done]. }
  destruct Hstyle as [name Hname]. rewrite Hname. cbn [default from_option id].
  pose proof (lookup_snd _ _ _ Hhp) as Hps. rewrite paragraphs_load in Hps.
  cbn [snd] in Hps. fold ps in Hps.
  pose proof (length_paragraphs_load c) as Hlen. fold ps in Hlen.
  pose proof (lookup_lt_Some _ _ _ Hps) as Hlt.
  set (lvl := level_of name 1).
  assert (Hdrop : ∀ k y, drop (h + 1) (paragraphs (load c)) !! k = Some y →
                         ps !! (h + 1 + k) = Some (snd y)).
  { intros k y Hy. rewrite lookup_drop in Hy. apply lookup_snd in Hy.
    by rewrite paragraphs_load in Hy. }
  destruct (first_match (fun p => ends_section lvl (snd p))
              (drop (h + 1) (paragraphs (load c)))) as [[k y]|] eqn:Hnext;
    cbn [fmap option_fmap option_map fst].
  - apply first_match_Some in Hnext as (Hy & Hc & Hfirst).
    pose proof (Hdrop k y Hy) as Hyps.
    pose proof (lookup_lt_Some _ _ _ Hyps) as Hklt.
    unfold bind, lift, ret.
    rewrite collect_infos_spec;
      [|destruct include_heading; lia|unfold len; rewrite Hlen; lia].
    rewrite paragraph_infos_load. fold ps.
    eexists _, hp, (h + 1 + k). split; [reflexivity|].
    cbn [s_heading_index s_heading_text s_heading_style s_heading_level
         s_content_start_index s_content_end_index s_next_heading_index
         s_paragraphs snd].
    split; [done|]. split; [done|]. split; [done|]. split; [done|].
    split; [done|]. split; [done|]. split; [lia|]. split.
    { intros j p Hj Hp. destruct (lookup_lt_is_Some_2 (paragraphs (load c)) j)
        as [[jid q] Hq]; [lia|].
      pose proof (lookup_snd _ _ _ Hq) as Hq'. rewrite paragraphs_load in Hq'.
      fold ps in Hq'. rewrite Hp in Hq'. injection Hq' as ->.
      apply (Hfirst (j - (h + 1)) (jid, q)); [lia|].
      rewrite lookup_drop. by replace (h + 1 + (j - (h + 1))) with j by lia. }
    split; [split; [done|eauto]|]. split.
    { destruct include_heading.
      - replace (Z.to_nat (Z.of_nat (h + 1 + k) - 1 + 1 - Z.of_nat h))
          with (h + 1 + k - h) by lia.
        rewrite Nat2Z.id. apply imap_ext. intros i p _. simpl. f_equal. lia.
      - replace (Z.to_nat (Z.of_nat (h + 1 + k) - 1 + 1 - (Z.of_nat h + 1)))
          with (h + 1 + k - (h + 1)) by lia.
        replace (Z.to_nat (Z.of_nat h + 1)) with (h + 1) by lia.
        apply imap_ext. intros i p _. simpl. f_equal. lia. }
    split.
    { destruct (Z.leb_spec (Z.of_nat h + 1) (Z.of_nat (h + 1 + k) - 1));
        destruct (decide (h + 1 < h + 1 + k)); try lia; [|done].
      f_equal. lia. }
    { destruct (Z.gtb_spec (Z.of_nat (h + 1 + k) - 1) (Z.of_nat h));
        destruct (decide (h + 1 < h + 1 + k)); try lia; [|done].
      f_equal. lia. }
  - rewrite first_match_None in Hnext.
    unfold bind, lift, ret.
    rewrite collect_infos_spec;
      [|destruct include_heading; lia|unfold len; rewrite Hlen; lia].
    rewrite paragraph_infos_load. fold ps.
    eexists _, hp, (length ps). split; [reflexivity|].
    cbn [s_heading_index s_heading_text s_heading_style s_heading_level
         s_content_start_index s_content_end_index s_next_heading_index
         s_paragraphs snd].
    split; [done|]. split; [done|]. split; [done|]. split; [done|].
    split; [done|]. split; [done|]. split; [lia|]. split.
    { intros j p Hj Hp. destruct (lookup_lt_is_Some_2 (paragraphs (load c)) j)
        as [[jid q] Hq]; [lia|].
      pose proof (lookup_snd _ _ _ Hq) as Hq'. rewrite paragraphs_load in Hq'.
      fold ps in Hq'. rewrite Hp in Hq'. injection Hq' as ->.
      apply (Hnext (j - (h + 1)) (jid, q)).
      rewrite lookup_drop. by replace (h + 1 + (j - (h + 1))) with j by lia. }
    split; [done|]. unfold len. rewrite Hlen. split.
    { destruct include_heading.
      - replace (Z.to_nat (Z.of_nat (length ps) - 1 + 1 - Z.of_nat h))
          with (length ps - h) by lia.
        rewrite Nat2Z.id. apply imap_ext. intros i p _. simpl. f_equal. lia.
      - replace (Z.to_nat (Z.of_nat (length ps) - 1 + 1 - (Z.of_nat h + 1)))
          with (length ps - (h + 1)) by lia.
        replace (Z.to_nat (Z.of_nat h + 1)) with (h + 1) by lia.
        apply imap_ext. intros i p _. simpl. f_equal. lia. }
    split.
    { destruct (Z.leb_spec (Z.of_nat h + 1) (Z.of_nat (length ps) - 1));
        destruct (decide (h + 1 < length ps)); try lia; [|done].
      f_equal. lia. }
    { destruct (Z.gtb_spec (Z.of_nat (length ps) - 1) (Z.of_nat h));
        destruct (decide (h + 1 < length ps)); try lia; [|done].
      f_equal. lia. }
Qed.

Lemma split_on_no_sep (sep : char) (cur s : text) :
  sep ∉ s → split_on sep cur s = [rev (rev s ++ cur)].
Proof.
  revert cur. induction s as [|c s IH]; intros cur Hs; [done|].
  apply not_elem_of_cons in Hs as [Hc Hs]. cbn [split_on].
  rewrite bool_decide_eq_false_2 by congruence.
  rewrite IH by done. cbn [rev]. by rewrite <- app_assoc.
Qed.

(** X14.  A style name without a space has no level number: the level
    parse falls back.  So a heading paragraph styled with such a name counts
    as level 1 and ends every section whose heading has level 1 or more. *)
Theorem heading_without_number (name : text) (fallback heading_level : Z)
    (items : list Inline) :
  ch " " ∉ name →
  level_of name fallback = fallback
  ∧ (PyStr.startswith name (t "Heading") = true → (1 ≤ heading_level)%Z →
     ends_section heading_level {| p_style := Some name; p_items := items |} = true).
Proof.
  intros Hname.
  assert (Hlevel : ∀ fb, level_of name fb = fb).
  { intros fb. unfold level_of. by rewrite split_on_no_sep. }
  split; [apply Hlevel|]. intros Hhead Hlvl. unfold ends_section. cbn [p_style].
  rewrite Hhead, Hlevel. cbn [andb]. by apply Z.leb_le.
Qed.

End Sections.

Section ReadOnly.
  Context `{UnicodeData} `{IntOfStr}.

Lemma read_only_bind {A B} (m : M A) (k : A → M B) :
  (∀ fs, snd (m fs) = fs) → (∀ a fs, snd (k a fs) = fs) →
  ∀ fs, snd (bind m k fs) = fs.
Proof.
  intros Hm Hk fs. unfold bind. specialize (Hm fs).
  destruct (m fs) as [[a|e] fs']; simpl in *; subst; [apply Hk|done].
Qed.

Lemma read_only_try {A} (m : M A) (h : exn → A) :
  (∀ fs, snd (m fs) = fs) →
  ∀ fs, ∃ a, try_except m h fs = (Ok a, fs).
Proof.
  intros Hm fs. unfold try_except. specialize (Hm fs).
  destruct (m fs) as [[a|e] fs']; simpl in *; subst; eauto.
Qed.

Lemma read_only_Document (doc_path : string) (fs : FS) :
  snd (Document doc_path fs) = fs.
Proof. unfold Document. by repeat case_match. Qed.

Lemma read_only_guard {A} (doc_path : string) (a : A) (m : M A) :
  (∀ fs, ∃ r, m fs = (Ok r, fs)) →
  ∀ fs, ∃ r, (ex <~ path_exists doc_path;; if negb ex then ret a else m) fs = (Ok r, fs).
Proof.
  intros Hm fs. unfold bind, path_exists.
  destruct (bool_decide _); cbn [negb]; [apply Hm|]. unfold ret. eauto.
Qed.

(** X15.  The read operations find_text, get_paragraph_text,
    get_paragraph_range and get_section_paragraphs return a result for every
    file system and every argument: what the calls inside raise is caught;
    and they leave the file system as it is. *)
Theorem read_operations_safe (fs : FS) (doc_path : string) :
  (∀ text_to_find match_case whole_word include_paragraph_text,
     ∃ r, find_text doc_path text_to_find match_case whole_word
            include_paragraph_text fs = (Ok r, fs))
  ∧ (∀ paragraph_index,
       ∃ r, get_paragraph_text doc_path paragraph_index fs = (Ok r, fs))
  ∧ (∀ start_index end_index,
       ∃ r, get_paragraph_range doc_path start_index end_index fs = (Ok r, fs))
  ∧ (∀ heading_text include_heading,
       ∃ r, get_section_paragraphs doc_path heading_text include_heading fs
            = (Ok r, fs)).
Proof.
  split; [|split; [|split]].
  - intros text_to_find match_case whole_word include_paragraph_text.
    unfold find_text. apply read_only_guard. clear fs. intros fs.
    destruct text_to_find; [unfold ret; eauto|].
    apply read_only_try. apply read_only_bind; [apply read_only_Document|done].
  - intros paragraph_index. unfold get_paragraph_text.
    apply read_only_guard, read_only_try.
    apply read_only_bind; [apply read_only_Document|].
    intros doc fs'. destruct (_ || _); [done|].
    apply read_only_bind; [done|done].
  - intros start_index end_index. unfold get_paragraph_range.
    apply read_only_guard, read_only_try.
    apply read_only_bind; [apply read_only_Document|].
    intros doc fs'. repeat (case_match; [done|]).
    apply read_only_bind; [done|done].
  - intros heading_text include_heading. unfold get_section_paragraphs.
    apply read_only_guard, read_only_try.
    apply read_only_bind; [apply read_only_Document|].
    intros doc fs'. case_match; [|done].
    apply read_only_bind; [done|]. intros p fs''.
    apply read_only_bind; [done|done].
Qed.

End ReadOnly.

Section SectionSamples.
  #[local] Existing Instance ascii_only.
  #[local] Existing Instance decimal.

Lemma get_section_paragraphs_spec_witness :
  let ps := doc_paragraphs chapters in
  ∃ sec hp stop,
    get_section_paragraphs "report.docx" (t "Intro") false (on_disk chapters)
    = (Ok (inr sec), on_disk chapters)
    ∧ ps !! 0 = Some hp ∧ is_Heading hp = true
    ∧ s_heading_index sec = 0
    ∧ s_heading_text sec = para_text hp
    ∧ p_style hp = Some (s_heading_style sec)
    ∧ s_heading_level sec = level_of (s_heading_style sec) 1
    ∧ 0 < stop ≤ length ps
    ∧ (∀ j p, 0 < j < stop → ps !! j = Some p →
              ends_section (s_heading_level sec) p = false)
    ∧ match s_next_heading_index sec with
      | Some j => j = stop ∧ ∃ p, ps !! j = Some p
                              ∧ ends_section (s_heading_level sec) p = true
      | None => stop = length ps
      end
    ∧ s_paragraphs sec
      = imap (fun k p => paragraph_info (Z.of_nat (1 + k)) p)
          (take (stop - 1) (drop 1 ps))
    ∧ s_content_start_index sec
      = (if decide (1 < stop) then Some 1%Z else None)
    ∧ s_content_end_index sec
      = (if decide (1 < stop) then Some (Z.of_nat (stop - 1)) else None).
Proof.
  exact (get_section_paragraphs_spec (on_disk chapters) "report.docx" chapters
           (t "Intro") false eq_refl).
Defined.

Lemma heading_without_number_witness :
  level_of (t "Heading") 1 = 1%Z
  ∧ (PyStr.startswith (t "Heading") (t "Heading") = true → (1 ≤ 2)%Z →
     ends_section 2 {| p_style := Some (t "Heading"); p_items := [] |} = true).
Proof.
  apply (heading_without_number (t "Heading") 1 2 []).
  intros Hin. vm_compute in Hin.
  repeat (apply elem_of_cons in Hin as [Hin|Hin]; [discriminate Hin|]).
  by apply elem_of_nil in Hin.
Defined.

End SectionSamples.

(** ** Insertion near a paragraph *)

Section Insertion.
  Context `{UnicodeData}.

Lemma link_before_middle (b1 b2 : list Node) x n :
  n_id x ∉ n_id <$> b1 →
  link_before (n_id x) n (b1 ++ x :: b2) = b1 ++ n :: x :: b2.
Proof.
  induction b1 as [|y b1 IH]; intros Hx; simpl.
  - by rewrite decide_True.
  - rewrite fmap_cons, not_elem_of_cons in Hx. destruct Hx as [Hy Hx].
    rewrite decide_False by congruence. by rewrite IH.
Qed.

Lemma paragraph_objects_lookup (doc : Doc) (first i : nat) (o : ParaObj) :
  paragraph_objects doc first !! i = Some o ↔
  ∃ p, paragraphs doc !! i = Some p
       ∧ o = {| o_id := first + i; o_el := fst p; o_para := snd p |}.
Proof.
  unfold paragraph_objects. rewrite list_lookup_imap.
  destruct (paragraphs doc !! i) as [p|]; simpl.
  - split; [intros [= <-]; eauto|]. by intros (q & [= <-] & ->).
  - split; [done|]. by intros (q & ? & _).
Qed.

Lemma length_paragraph_objects (doc : Doc) (first : nat) :
  length (paragraph_objects doc first) = length (paragraphs doc).
Proof. unfold paragraph_objects. apply length_imap. Qed.

(** The objects of a second access are not those of the first. *)
Lemma second_access_is_not (doc : Doc) (i : nat) (para : ParaObj) :
  paragraph_objects doc 0 !! i = Some para →
  first_match (fun p => bool_decide (o_id p = o_id para))
    (paragraph_objects doc (length (paragraph_objects doc 0))) = None.
Proof.
  intros Hpara. apply first_match_None. intros j q Hq.
  apply paragraph_objects_lookup in Hpara as (p & Hp & ->).
  apply paragraph_objects_lookup in Hq as (p' & Hp' & ->).
  apply lookup_lt_Some in Hp. rewrite length_paragraph_objects.
  apply bool_decide_eq_false. simpl. lia.
Qed.

Lemma first_match_objects (doc : Doc) (cond : Paragraph → bool) :
  first_match (fun p => cond (o_para p)) (paragraph_objects doc 0)
  = (fun r => (fst r, {| o_id := fst r; o_el := fst (snd r); o_para := snd (snd r) |}))
      <$> first_match (fun p => cond (snd p)) (paragraphs doc).
Proof.
  destruct (first_match (fun p => cond (snd p)) (paragraphs doc)) as [[i p]|] eqn:Hm.
  - apply first_match_Some in Hm as (Hp & Hc & Hfirst). simpl.
    apply first_match_Some. split; [|split].
    + apply paragraph_objects_lookup. eauto.
    + done.
    + intros j q Hj Hq. apply paragraph_objects_lookup in Hq as (p' & Hp' & ->).
      simpl. by apply (Hfirst j).
  - rewrite first_match_None in Hm. simpl. apply first_match_None.
    intros j q Hq. apply paragraph_objects_lookup in Hq as (p' & Hp' & ->).
    simpl. by apply (Hm j).
Qed.

Lemma split_at_paragraph_node (b : list Node) i k p :
  omap para_of_node b !! i = Some (k, p) →
  ∃ b1 x b2,
    b = b1 ++ x :: b2 ∧ para_of_node x = Some (k, p)
    ∧ omap para_of_node b1 = take i (omap para_of_node b)
    ∧ omap para_of_node b2 = drop (S i) (omap para_of_node b).
Proof.
  revert i. induction b as [|n b IH]; intros i Hi; [done|].
  rewrite omap_cons in Hi. rewrite omap_cons.
  destruct (para_of_node n) as [[k' p']|] eqn:Hpn.
  - destruct i as [|i]; simpl in Hi.
    + injection Hi as -> ->. by exists [], n, b.
    + destruct (IH i Hi) as (b1 & x & b2 & -> & Hx & Ht & Hd).
      exists (n :: b1), x, b2. split; [done|]. split; [done|].
      change ((n :: b1)) with ([n] ++ b1). rewrite omap_app, Ht, Hd.
      cbn [omap list_omap app]. by rewrite Hpn.
  - destruct (IH i Hi) as (b1 & x & b2 & -> & Hx & Ht & Hd).
    exists (n :: b1), x, b2. split; [done|]. split; [done|].
    change ((n :: b1)) with ([n] ++ b1). rewrite omap_app, Ht, Hd.
    cbn [omap list_omap app]. by rewrite Hpn.
Qed.

Lemma tables_insert_para (b1 b2 : list Node) (n : Node) (p : Paragraph) :
  n_el n = EPara p →
  omap el_table (n_el <$> (b1 ++ n :: b2)) = omap el_table (n_el <$> (b1 ++ b2)).
Proof.
  intros Hn. rewrite !doc_tables_app, fmap_cons, omap_cons, Hn. done.
Qed.

(** Where the new paragraph goes. *)
Lemma insert_header_at_spec (fs : FS) (doc_path : string) (doc : Doc)
    (para : ParaObj) (i : nat) (header_title position header_style : text)
    (name : option text) (anchor_index : option Z) :
  well_formed doc →
  paragraphs doc !! i = Some (o_el para, o_para para) →
  assign_style (styles doc) header_style = Ok name →
  ∃ c',
    insert_header_at doc_path doc para header_title position header_style
      anchor_index fs
    = (Ok (InsHeaderInserted header_title header_style position anchor_index),
       <[doc_path := Docx c']> fs)
    ∧ (let k := if PyStr.eqb position (t "before") then i else S i in
       doc_paragraphs c'
       = take k (snd <$> paragraphs doc)
           ++ new_paragraph header_title name
           :: drop k (snd <$> paragraphs doc))
    ∧ doc_tables c' = doc_tables (content_of doc)
    ∧ c_styles c' = styles doc.
Proof.
  intros Hwf Hi Hstyle.
  destruct (split_at_paragraph_node _ _ _ _ Hi) as (b1 & x & b2 & Hb & Hxp & Ht & Hd).
  destruct (para_of_node_Some _ _ _ Hxp) as [Hx Hel].
  pose proof (fresh_id doc Hwf) as Hfresh.
  assert (Hxb1 : n_id x ∉ n_id <$> b1).
  { destruct Hwf as [Hnd _]. rewrite Hb, fmap_app, fmap_cons in Hnd.
    apply NoDup_app in Hnd as (_ & H12 & _). intros Hin. eapply H12; [exact Hin|left]. }
  unfold insert_header_at, add_paragraph.
  rewrite Hstyle. cbn [res_bind].
  set (n := {| n_id := next_id doc;
               n_el := EPara (new_paragraph header_title name) |}).
  unfold bind, lift, save, ret, with_body. cbn [fst snd body styles next_id].
  set (b' := if PyStr.eqb position (t "before")
             then addprevious (o_el para) n (insert_before_sectPr n (body doc))
             else addnext (o_el para) n (insert_before_sectPr n (body doc))).
  assert (Hb' : b' = if PyStr.eqb position (t "before")
                     then b1 ++ n :: x :: b2 else b1 ++ x :: n :: b2).
  { unfold b', addprevious, addnext.
    change (next_id doc) with (n_id n) in Hfresh.
    rewrite (remove_inserted (body doc) n) by done.
    rewrite Hb, Hx. destruct (PyStr.eqb position (t "before")).
    - by apply link_before_middle.
    - by apply link_after_middle. }
  clearbody b'. subst b'.
  eexists. split; [reflexivity|].
  assert (Hnp : para_of_node n = Some (next_id doc, new_paragraph header_title name))
    by done.
  split; [|split; [|done]].
  - rewrite content_paragraphs. unfold paragraphs at 1. cbn [body].
    unfold paragraphs in *.
    destruct (PyStr.eqb position (t "before")); cbn zeta.
    + rewrite omap_app, !omap_cons, Hnp, Hxp, Ht, Hd, fmap_app, !fmap_cons.
      rewrite fmap_take, fmap_drop. cbn [snd].
      rewrite (drop_S (snd <$> omap para_of_node (body doc)) (o_para para) i); [done|].
      rewrite list_lookup_fmap, Hi. done.
    + rewrite omap_app, !omap_cons, Hnp, Hxp, Ht, Hd, fmap_app, !fmap_cons.
      rewrite fmap_take, fmap_drop. cbn [snd].
      rewrite (take_S_r (snd <$> omap para_of_node (body doc)) i (o_para para)).
      * by rewrite <- app_assoc.
      * rewrite list_lookup_fmap, Hi. done.
  - destruct (PyStr.eqb position (t "before"));
      unfold doc_tables, content_of; cbn [c_body body]; rewrite Hb;
      change (map n_el) with (fmap (M:=list) n_el).
    + by apply (tables_insert_para b1 (x :: b2) n (new_paragraph header_title name)).
    + rewrite (cons_middle x b1 (n :: b2)), (cons_middle x b1 b2), !app_assoc.
      by apply (tables_insert_para (b1 ++ [x]) b2 n
                  (new_paragraph header_title name)).
Qed.

Lemma first_match_fmap {A B} (f : A → B) (cond : B → bool) (l : list A) :
  first_match cond (f <$> l)
  = (fun r => (fst r, f (snd r))) <$> first_match (fun x => cond (f x)) l.
Proof.
  destruct (first_match (fun x => cond (f x)) l) as [[i x]|] eqn:Hm; simpl.
  - apply first_match_Some in Hm as (Hx & Hc & Hfirst).
    apply first_match_Some. split; [by rewrite list_lookup_fmap, Hx|].
    split; [done|]. intros j y Hj Hy.
    rewrite list_lookup_fmap in Hy. destruct (l !! j) as [z|] eqn:Hz; [|done].
    injection Hy as <-. by apply (Hfirst j).
  - rewrite first_match_None in Hm. apply first_match_None. intros j y Hy.
    rewrite list_lookup_fmap in Hy. destruct (l !! j) as [z|] eqn:Hz; [|done].
    injection Hy as <-. by apply (Hm j).
Qed.

Lemma insert_header_open (fs : FS) (doc_path : string) (c : Content)
    (target_text : option text) (header_title position header_style : text)
    (target_paragraph_index : option Z) :
  fs !! doc_path = Some (Docx c) →
  insert_header_near_text doc_path target_text header_title position header_style
    target_paragraph_index fs
  = try_except
      (match target_paragraph_index with
       | Some i =>
           let total := len (paragraphs (load c)) in
           if (i <? 0)%Z || (i >=? total)%Z then ret (InsInvalidIndex i total)
           else
             para <~ lift (PyStr.index (paragraph_objects (load c) 0) i);;
             insert_header_at doc_path (load c) para header_title position
               header_style (Some i)
       | None =>
           let objects := paragraph_objects (load c) 0 in
           match first_match (fun p => is_target target_text (o_para p)) objects with
           | None => ret InsTargetNotFound
           | Some (_, para) =>
               let anchor_index :=
                 (fun r => Z.of_nat (fst r)) <$>
                   first_match (fun p => bool_decide (o_id p = o_id para))
                     (paragraph_objects (load c) (length objects)) in
               insert_header_at doc_path (load c) para header_title position
                 header_style anchor_index
           end
       end) InsFailed fs.
Proof.
  intros Hfs. unfold insert_header_near_text.
  rewrite (bind_ok _ _ _ _ _ (path_exists_true _ _ _ Hfs)). cbn [negb].
  unfold try_except. by rewrite (bind_ok _ _ _ _ _ (Document_ok _ _ _ Hfs)).
Qed.

(** X16.  insert_header_near_text with a paragraph index
    [0 <= i < total] and a style the document defines (a string that its
    styles resolve, by name or by style id, to a paragraph style; the new
    paragraph shows the name of that style): the saved document
    has the new header paragraph right before the paragraph at the index for
    position "before", right after it for any other position; the other
    paragraphs, their order, the tables and the styles are as before; the
    message reports the index. *)
Theorem insert_header_by_index (fs : FS) (doc_path : string) (c : Content)
    (target_text : option text) (header_title position header_style : text)
    (name : option text) (i : Z) :
  fs !! doc_path = Some (Docx c) →
  (0 ≤ i < len (doc_paragraphs c))%Z →
  assign_style (c_styles c) header_style = Ok name →
  ∃ c',
    insert_header_near_text doc_path target_text header_title position header_style
      (Some i) fs
    = (Ok (InsHeaderInserted header_title header_style position (Some i)),
       <[doc_path := Docx c']> fs)
    ∧ (let k := if PyStr.eqb position (t "before") then Z.to_nat i
                else S (Z.to_nat i) in
       doc_paragraphs c'
       = take k (doc_paragraphs c)
           ++ new_paragraph header_title name :: drop k (doc_paragraphs c))
    ∧ doc_tables c' = doc_tables c
    ∧ c_styles c' = c_styles c.
Proof.
  intros Hfs Hi Hstyle. rewrite (insert_header_open _ _ c) by done.
  unfold len in *. rewrite length_paragraphs_load. cbn zeta.
  destruct (Z.ltb_spec i 0); [lia|].
  destruct (Z.geb_spec i (Z.of_nat (length (doc_paragraphs c)))); [lia|].
  cbn [orb].
  destruct (index_in_range (paragraph_objects (load c) 0) i) as (para & Hpara & Hidx).
  { unfold len. rewrite length_paragraph_objects, length_paragraphs_load. lia. }
  apply paragraph_objects_lookup in Hpara as ([id p] & Hp & Hobj).
  unfold try_except, bind at 1, lift. rewrite Hidx.
  destruct (insert_header_at_spec fs doc_path (load c) para (Z.to_nat i)
              header_title position header_style name (Some i))
    as (c' & Hrun & Hparas & Htables & Hstyles).
  { apply load_well_formed. }
  { by subst para. }
  { done. }
  rewrite Hrun. exists c'. split; [done|].
  rewrite paragraphs_load in Hparas.
  rewrite Htables, content_of_load. done.
Qed.

(** X17.  insert_header_near_text without an index.  The target is the
    first paragraph that is not a TOC paragraph and contains the non-empty
    target_text; when there is none, the result is the not-found message and
    the file system is unchanged.  Otherwise, for a style the document
    defines, the new header paragraph is saved right before or right after
    the target, as for an index; the message reports no index: the loop
    that looks for the target among doc.paragraphs compares objects of a
    second access and finds none. *)
Theorem insert_header_by_text (fs : FS) (doc_path : string) (c : Content)
    (target_text : option text) (header_title position header_style : text)
    (name : option text) :
  fs !! doc_path = Some (Docx c) →
  assign_style (c_styles c) header_style = Ok name →
  match first_match (is_target target_text) (doc_paragraphs c) with
  | None =>
      insert_header_near_text doc_path target_text header_title position
        header_style None fs
      = (Ok InsTargetNotFound, fs)
  | Some (i, _) =>
      ∃ c',
        insert_header_near_text doc_path target_text header_title position
          header_style None fs
        = (Ok (InsHeaderInserted header_title header_style position None),
           <[doc_path := Docx c']> fs)
        ∧ (let k := if PyStr.eqb position (t "before") then i else S i in
           doc_paragraphs c'
           = take k (doc_paragraphs c)
               ++ new_paragraph header_title name
               :: drop k (doc_paragraphs c))
        ∧ doc_tables c' = doc_tables c
        ∧ c_styles c' = c_styles c
  end.
Proof.
  intros Hfs Hstyle. rewrite (insert_header_open _ _ c) by done. cbn zeta.
  rewrite <- paragraphs_load, first_match_fmap.
  rewrite (first_match_objects (load c) (is_target target_text)).
  destruct (first_match (fun p => is_target target_text (snd p)) (paragraphs (load c)))
    as [[i [id p]]|] eqn:Hm; cbn [fmap option_fmap option_map fst snd]; [|done].
  apply first_match_Some in Hm as (Hp & _).
  set (para := {| o_id := i; o_el := id; o_para := p |}).
  rewrite (second_access_is_not (load c) i para).
  2:{ apply paragraph_objects_lookup. eauto. }
  cbn [fmap option_fmap option_map].
  destruct (insert_header_at_spec fs doc_path (load c) para i
              header_title position header_style name None)
    as (c' & Hrun & Hparas & Htables & Hstyles); [apply load_well_formed|done|done|].
  unfold try_except. rewrite Hrun. exists c'. split; [done|].
  rewrite Htables, content_of_load. done.
Qed.

Lemma try_except_lift {A B} (r : res A) (k : A → M B) (h : exn → B) (fs : FS) :
  try_except (bind (lift r) k) h fs
  = match r with
    | Ok a => try_except (k a) h fs
    | Raise e => (Ok (h e), fs)
    end.
Proof. by destruct r. Qed.

(** X18.  insert_header_near_text never raises, and it writes only when it
    reports the insertion, and then only the document at doc_path: for every
    other result the file system is as it was. *)
Theorem insert_header_all_or_nothing (fs : FS) (doc_path : string)
    (target_text : option text) (header_title position header_style : text)
    (target_paragraph_index : option Z) :
  ∃ m fs',
    insert_header_near_text doc_path target_text header_title position header_style
      target_paragraph_index fs = (Ok m, fs')
    ∧ match m with
      | InsHeaderInserted _ _ _ _ => ∃ c', fs' = <[doc_path := Docx c']> fs
      | _ => fs' = fs
      end.
Proof.
  assert (Hat : ∀ doc para idx,
            ∃ m fs', try_except (insert_header_at doc_path doc para header_title
                                   position header_style idx) InsFailed fs = (Ok m, fs')
                     ∧ match m with
                       | InsHeaderInserted _ _ _ _ => ∃ c', fs' = <[doc_path := Docx c']> fs
                       | _ => fs' = fs
                       end).
  { intros doc para idx. unfold try_except, insert_header_at, bind, lift, save, ret.
    destruct (add_paragraph doc header_title header_style) as [[doc' n]|e];
      do 2 eexists; (split; [reflexivity|]); cbn; eauto. }
  assert (Hret : ∀ m, (∀ a b c d, m ≠ InsHeaderInserted a b c d) →
            ∃ m' fs', (Ok m, fs) = (Ok m', fs')
                      ∧ match m' with
                        | InsHeaderInserted _ _ _ _ =>
                            ∃ c', fs' = <[doc_path := Docx c']> fs
                        | _ => fs' = fs
                        end).
  { intros m Hm. exists m, fs. split; [done|].
    destruct m as [| | |title style pos idx|]; try done.
    by destruct (Hm title style pos idx). }
  destruct (fs !! doc_path) as [[c|]|] eqn:Hfs.
  - rewrite (insert_header_open _ _ c) by done.
    destruct target_paragraph_index as [i|]; cbn zeta.
    + destruct (_ || _); [by apply Hret|].
      rewrite try_except_lift.
      destruct (PyStr.index _ i) as [para|e]; [|by apply Hret].
      apply (Hat (load c) para (Some i)).
    + destruct (first_match _ _) as [[j para]|]; [|by apply Hret].
      apply Hat.
  - unfold insert_header_near_text.
    rewrite (bind_ok _ _ _ _ _ (path_exists_true _ _ _ Hfs)). cbn [negb].
    unfold try_except, bind, Document. rewrite Hfs. by apply Hret.
  - unfold insert_header_near_text, bind, path_exists. rewrite Hfs.
    rewrite bool_decide_eq_false_2 by (by intros [? ?]). by apply Hret.
Qed.

Lemma styles_getitem_unknown (styles : list Style) (key : text) :
  (∀ st, st ∈ styles →
         s_name st ≠ BabelFish.ui2internal key ∧ s_id st ≠ key) →
  assign_style styles key = Raise (KeyError key).
Proof.
  intros Hno. unfold assign_style, styles_getitem, get_by_name, get_by_id.
  assert (Hname : list_find (fun st => s_name st = BabelFish.ui2internal key) styles
                  = None).
  { apply list_find_None, Forall_forall. intros st Hst. by apply Hno. }
  assert (Hid : list_find (fun st => s_id st = key) styles = None).
  { apply list_find_None, Forall_forall. intros st Hst. by apply Hno. }
  by rewrite Hname, Hid.
Qed.

(** X19.  insert_header_near_text on a valid index with a style that the
    document does not define: a string that is neither the name of one of
    its styles (in the spelling of the styles part, to which "Heading 1" to
    "Heading 9", "Caption", "Header" and "Footer" are translated) nor the id
    of one.  The KeyError of the style lookup is caught, the failure message
    is returned and nothing is saved. *)
Theorem insert_header_unknown_style (fs : FS) (doc_path : string) (c : Content)
    (target_text : option text) (header_title position header_style : text)
    (i : Z) :
  fs !! doc_path = Some (Docx c) →
  (0 ≤ i < len (doc_paragraphs c))%Z →
  (∀ st, st ∈ c_styles c →
         s_name st ≠ BabelFish.ui2internal header_style ∧ s_id st ≠ header_style) →
  insert_header_near_text doc_path target_text header_title position header_style
    (Some i) fs
  = (Ok (InsFailed (KeyError header_style)), fs).
Proof.
  intros Hfs Hi Hstyle%styles_getitem_unknown.
  rewrite (insert_header_open _ _ c) by done.
  unfold len in *. rewrite length_paragraphs_load. cbn zeta.
  destruct (Z.ltb_spec i 0); [lia|].
  destruct (Z.geb_spec i (Z.of_nat (length (doc_paragraphs c)))); [lia|].
  cbn [orb].
  destruct (index_in_range (paragraph_objects (load c) 0) i) as (para & Hpara & Hidx).
  { unfold len. rewrite length_paragraph_objects, length_paragraphs_load. lia. }
  unfold try_except, bind at 1, lift. rewrite Hidx.
  unfold insert_header_at, bind, lift, add_paragraph.
  cbn [styles load]. by rewrite Hstyle.
Qed.

End Insertion.

Section InsertionSamples.
  #[local] Existing Instance ascii_only.

Lemma insert_header_by_index_witness :
  ∃ c',
    insert_header_near_text "report.docx" None (t "Notes") (t "before")
      (t "Heading 1") (Some 1%Z) (on_disk one_section)
    = (Ok (InsHeaderInserted (t "Notes") (t "Heading 1") (t "before") (Some 1%Z)),
       <["report.docx"%string := Docx c']> (on_disk one_section))
    ∧ doc_paragraphs c'
      = take 1 (doc_paragraphs one_section)
          ++ new_paragraph (t "Notes") (Some (t "Heading 1"))
          :: drop 1 (doc_paragraphs one_section)
    ∧ doc_tables c' = doc_tables one_section
    ∧ c_styles c' = c_styles one_section.
Proof.
  assert (Hi : (0 ≤ 1 < len (doc_paragraphs one_section))%Z) by (vm_compute; split; [discriminate|reflexivity]).
  exact (insert_header_by_index (on_disk one_section) "report.docx" one_section None
           (t "Notes") (t "before") (t "Heading 1") (Some (t "Heading 1")) 1
           eq_refl Hi eq_refl).
Defined.

Lemma insert_header_by_text_witness :
  ∃ c',
    insert_header_near_text "report.docx" (Some (t "Summary")) (t "Notes") (t "after")
      (t "Heading 1") None (on_disk with_toc)
    = (Ok (InsHeaderInserted (t "Notes") (t "Heading 1") (t "after") None),
       <["report.docx"%string := Docx c']> (on_disk with_toc))
    ∧ doc_paragraphs c'
      = take 2 (doc_paragraphs with_toc)
          ++ new_paragraph (t "Notes") (Some (t "Heading 1"))
          :: drop 2 (doc_paragraphs with_toc)
    ∧ doc_tables c' = doc_tables with_toc
    ∧ c_styles c' = c_styles with_toc.
Proof.
  exact (insert_header_by_text (on_disk with_toc) "report.docx" with_toc
           (Some (t "Summary")) (t "Notes") (t "after") (t "Heading 1")
           (Some (t "Heading 1")) eq_refl eq_refl).
Defined.

Lemma insert_header_unknown_style_witness :
  insert_header_near_text "report.docx" None (t "Notes") (t "after") (t "Fancy")
    (Some 0%Z) (on_disk one_section)
  = (Ok (InsFailed (KeyError (t "Fancy"))), on_disk one_section).
Proof.
  assert (Hi : (0 ≤ 0 < len (doc_paragraphs one_section))%Z) by (vm_compute; split; [discriminate|reflexivity]).
  assert (Hstyle : ∀ st, st ∈ c_styles one_section →
            s_name st ≠ BabelFish.ui2internal (t "Fancy") ∧ s_id st ≠ t "Fancy").
  { intros st Hin.
    repeat (apply elem_of_cons in Hin as [->|Hin]; [split; discriminate|]).
    by apply elem_of_nil in Hin. }
  exact (insert_header_unknown_style (on_disk one_section) "report.docx" one_section
           None (t "Notes") (t "after") (t "Fancy") 0 eq_refl Hi Hstyle).
Defined.

End InsertionSamples.

(** ** Paragraphs by text *)

Lemma find_paragraph_by_text_elem (doc : Doc) (txt : text) (partial_match : bool)
    (i : nat) :
  i ∈ find_paragraph_by_text doc txt partial_match ↔
  ∃ p, paragraphs doc !! i = Some p ∧ text_matches txt partial_match (snd p) = true.
Proof.
  unfold find_paragraph_by_text. rewrite list_elem_of_fmap. split.
  - intros ([j q] & -> & Hin). apply list_elem_of_filter in Hin as [Hc Hin].
    apply elem_of_lookup_imap in Hin as (k & p & [= -> ->] & Hp).
    exists p. split; [done|]. by apply Is_true_true.
  - intros (p & Hp & Hc). exists (i, snd p). split; [done|].
    apply list_elem_of_filter. split; [by apply Is_true_true|].
    apply elem_of_lookup_imap. eauto.
Qed.

Lemma filter_imap_increasing {A B} (P : nat * B → Prop) `{!∀ x, Decision (P x)}
    (g : A → B) (l : list A) :
  ∀ k,
    let found := fst <$> filter P (imap (fun i p => (k + i, g p)) l) in
    (∀ x, x ∈ found → k ≤ x)
    ∧ (∀ a b i j, found !! a = Some i → found !! b = Some j → a < b → i < j).
Proof.
  induction l as [|x l IH]; intros k; cbn zeta.
  - cbn. split; [by intros ? ?%elem_of_nil|done].
  - cbn [imap].
    rewrite (imap_ext _ (fun i p => (S k + i, g p))) by (intros; simpl; f_equal; lia).
    destruct (IH (S k)) as [IHlow IHord]. cbn zeta in IHlow, IHord.
    rewrite filter_cons. destruct (decide (P (k + 0, g x))) as [HP|HP].
    + rewrite fmap_cons. cbn [fst]. split.
      * intros y [->|Hy]%elem_of_cons; [lia|]. specialize (IHlow y Hy). lia.
      * intros [|a] [|b] i j Ha Hb Hab; try lia; simpl in Ha, Hb.
        -- injection Ha as <-. apply list_elem_of_lookup_2 in Hb.
           specialize (IHlow j Hb). lia.
        -- apply (IHord a b); [done|done|lia].
    + split; [|done]. intros y Hy. specialize (IHlow y Hy). lia.
Qed.

Lemma filter_all {A} (P : A → Prop) `{!∀ x, Decision (P x)} (l : list A) :
  (∀ x, x ∈ l → P x) → filter P l = l.
Proof.
  induction l as [|x l IH]; intros HP; [done|].
  rewrite filter_cons_True by (apply HP; by left).
  f_equal. apply IH. intros y Hy. apply HP. by right.
Qed.

Lemma startswith_refl (s : text) : PyStr.startswith s s = true.
Proof. apply startswith_spec. exists []. by rewrite app_nil_r. Qed.

Lemma contains_self (s : text) : PyStr.contains s s = true.
Proof.
  apply contains_true. exists 0. destruct s; simpl; [done|].
  rewrite bool_decide_eq_true_2 by done. simpl. by rewrite startswith_refl.
Qed.

Lemma contains_empty (s : text) : PyStr.contains s [] = true.
Proof. apply contains_true. exists 0. by destruct s. Qed.

(** X20.  find_paragraph_by_text returns the indices of the body paragraphs
    whose text contains [text] (partial_match) or equals it (otherwise), each
    index once and in increasing order; TOC paragraphs are not passed over. *)
Theorem find_paragraph_by_text_spec (doc : Doc) (txt : text) (partial_match : bool) :
  let found := find_paragraph_by_text doc txt partial_match in
  (∀ i, i ∈ found ↔
        ∃ p, paragraphs doc !! i = Some p
             ∧ (if partial_match then PyStr.contains (para_text (snd p)) txt = true
                else para_text (snd p) = txt))
  ∧ (∀ a b i j, found !! a = Some i → found !! b = Some j → a < b → i < j).
Proof.
  cbn zeta. split.
  - intros i. rewrite find_paragraph_by_text_elem. unfold text_matches.
    split; intros (p & Hp & Hc); exists p; (split; [done|]).
    + destruct partial_match; cbn [andb orb negb] in Hc.
      * by rewrite orb_false_r in Hc.
      * by apply eqb_true.
    + destruct partial_match; cbn [andb orb negb].
      * by rewrite orb_false_r.
      * by apply eqb_true.
  - unfold find_paragraph_by_text.
    apply (filter_imap_increasing
             (fun ip => Is_true (text_matches txt partial_match (snd ip)))
             snd (paragraphs doc) 0).
Qed.

(** X21.  Every index that find_paragraph_by_text returns for an exact
    match is returned for a partial match too; and a partial match with the
    empty text returns the index of every body paragraph. *)
Theorem find_paragraph_by_text_partial (doc : Doc) (txt : text) :
  (∀ i, i ∈ find_paragraph_by_text doc txt false
        → i ∈ find_paragraph_by_text doc txt true)
  ∧ find_paragraph_by_text doc [] true = seq 0 (length (paragraphs doc)).
Proof.
  split.
  - intros i. rewrite !find_paragraph_by_text_elem.
    intros (p & Hp & Hc). exists p. split; [done|].
    unfold text_matches in *. cbn [andb orb negb] in *.
    apply eqb_true in Hc. rewrite Hc, contains_self. done.
  - unfold find_paragraph_by_text.
    rewrite filter_all.
    + rewrite fmap_imap. rewrite (imap_ext _ (fun i _ => id i)) by done.
      by rewrite imap_seq_0, list_fmap_id.
    + intros [i p] _. unfold text_matches. cbn [andb orb negb snd].
      by rewrite contains_empty.
Qed.

(** ** Inline markdown *)

Lemma lazy_until_Some (close acc s g : text) (len : nat) :
  lazy_until close acc s = Some (g, len) →
  ∃ body rest,
    body ≠ [] ∧ g = rev acc ++ body ∧ s = body ++ close ++ rest
    ∧ len = length acc + length body + length close.
Proof.
  revert acc. induction s as [|c s IH]; intros acc; [done|]. cbn [lazy_until].
  destruct (bool_decide (c = newline)); [done|].
  destruct (PyStr.startswith s close) eqn:Hclose.
  - intros [= <- <-]. apply startswith_spec in Hclose as [rest ->].
    exists [c], rest. cbn [rev length app]. split; [done|]. split; [done|].
    split; [done|]. lia.
  - intros Hrec. destruct (IH _ Hrec) as (body & rest & Hne & -> & -> & ->).
    exists (c :: body), rest. cbn [rev length app]. split; [done|].
    split; [by rewrite <- app_assoc|]. split; [done|]. lia.
Qed.

Lemma marker_match_Some (n : nat) (s g : text) (len : nat) :
  marker_match n s = Some (g, len) →
  g ≠ [] ∧ len = n + length g + n
  ∧ s = repeat (ch "*") n ++ g ++ repeat (ch "*") n ++ drop len s.
Proof.
  unfold marker_match. destruct (PyStr.startswith s _) eqn:Hopen; [|done].
  apply startswith_spec in Hopen as [r ->].
  rewrite drop_app_length' by (by rewrite repeat_length).
  destruct (lazy_until _ [] r) as [[g' len']|] eqn:Hlazy; [|done].
  intros [= <- <-]. cbn [fst snd].
  destruct (lazy_until_Some _ _ _ _ _ Hlazy) as (body & rest & Hne & -> & -> & ->).
  cbn [rev app length]. rewrite repeat_length. split; [done|]. split; [lia|].
  f_equal. rewrite drop_app_add' by (by rewrite repeat_length).
  rewrite !app_assoc, drop_app_length'; [done|].
  rewrite length_app, repeat_length. lia.
Qed.

Lemma match_here_Some (s : text) (spec : RunSpec) (len : nat) :
  match_here s = Some (spec, len) →
  s_text spec ≠ [] ∧ 0 < len ∧ s = unparse spec ++ drop len s.
Proof.
  unfold match_here.
  destruct (marker_match 3 s) as [[g l]|] eqn:H3.
  { intros [= <- <-]. apply marker_match_Some in H3 as (Hne & Hl & Hs).
    split; [done|]. split; [lia|]. unfold unparse, markers. cbn [s_text s_bold s_italic].
    rewrite <- !app_assoc. exact Hs. }
  destruct (marker_match 2 s) as [[g l]|] eqn:H2.
  { intros [= <- <-]. apply marker_match_Some in H2 as (Hne & Hl & Hs).
    split; [done|]. split; [lia|]. unfold unparse, markers. cbn [s_text s_bold s_italic].
    rewrite <- !app_assoc. exact Hs. }
  destruct (marker_match 1 s) as [[g l]|] eqn:H1; [|done].
  intros [= <- <-]. apply marker_match_Some in H1 as (Hne & Hl & Hs).
  split; [done|]. split; [lia|]. unfold unparse, markers. cbn [s_text s_bold s_italic].
  rewrite <- !app_assoc. exact Hs.
Qed.

Lemma match_here_no_star (s : text) :
  ch "*" ∉ s → match_here s = None.
Proof.
  intros Hs. destruct s as [|c s].
  - done.
  - apply not_elem_of_cons in Hs as [Hc _].
    unfold match_here, marker_match. cbn [repeat PyStr.startswith].
    rewrite bool_decide_eq_false_2 by congruence. done.
Qed.

Lemma unparse_flush (pending : text) :
  concat (unparse <$> flush pending) = rev pending.
Proof.
  destruct pending as [|c p]; [reflexivity|]. cbn [flush fmap list_fmap concat].
  unfold unparse, markers, plain_spec. cbn [s_text s_bold s_italic app].
  by rewrite !app_nil_r.
Qed.

Lemma parse_from_unparse (s : text) :
  ∀ skip pending,
    (0 < skip → pending = []) →
    concat (unparse <$> parse_from skip pending s) = rev pending ++ drop skip s.
Proof.
  induction s as [|c s IH]; intros skip pending Hskip; cbn [parse_from].
  - by rewrite unparse_flush, drop_nil, app_nil_r.
  - destruct skip as [|k].
    + destruct (match_here (c :: s)) as [[spec len]|] eqn:Hm.
      * apply match_here_Some in Hm as (_ & Hlen & Hs).
        rewrite fmap_app, fmap_cons, concat_app, unparse_flush. cbn [concat].
        rewrite IH by done. destruct len as [|len]; [lia|].
        cbn [drop] in Hs. replace (S len - 1) with len by lia.
        cbn [rev app drop]. by rewrite Hs.
      * rewrite IH by lia. cbn [rev drop]. by rewrite <- app_assoc.
    + rewrite IH by (intros; apply Hskip; lia). done.
Qed.

Lemma parse_from_plain (s : text) :
  ch "*" ∉ s → ∀ pending, parse_from 0 pending s = flush (rev s ++ pending).
Proof.
  induction s as [|c s IH]; intros Hs pending; [done|]. cbn [parse_from].
  rewrite match_here_no_star by done.
  apply not_elem_of_cons in Hs as [_ Hs]. rewrite IH by done.
  cbn [rev]. by rewrite <- app_assoc.
Qed.

Lemma parse_from_nonempty (s : text) :
  ∀ skip pending,
    Forall (fun spec => s_text spec ≠ []) (parse_from skip pending s).
Proof.
  assert (Hflush : ∀ pending, Forall (fun spec => s_text spec ≠ []) (flush pending)).
  { intros [|c p]; [constructor|]. constructor; [|constructor].
    cbn. by destruct (rev p). }
  induction s as [|c s IH]; intros skip pending; cbn [parse_from]; [apply Hflush|].
  destruct skip as [|k]; [|apply IH].
  destruct (match_here (c :: s)) as [[spec len]|] eqn:Hm; [|apply IH].
  apply match_here_Some in Hm as (Hne & _).
  apply Forall_app. split; [apply Hflush|]. constructor; [done|apply IH].
Qed.

(** X22.  The run specs of _parse_markdown_runs give the text back: each
    spec written with its markers around its text (three asterisks for bold
    italic, two for bold, one for italic, none for plain), in order, is the
    text that was parsed: nothing but markers is dropped and nothing is
    reordered.  And no spec has an empty text, unless the text parsed is
    empty. *)
Theorem parse_markdown_round_trip (txt : text) :
  concat (unparse <$> _parse_markdown_runs txt) = txt
  ∧ Forall (fun spec => s_text spec ≠ [] ∨ txt = []) (_parse_markdown_runs txt).
Proof.
  unfold _parse_markdown_runs. destruct txt as [|c s].
  { split; [done|]. constructor; [by right|constructor]. }
  pose proof (parse_from_unparse (c :: s) 0 [] ltac:(lia)) as Hrt.
  pose proof (parse_from_nonempty (c :: s) 0 []) as Hall.
  destruct (parse_from 0 [] (c :: s)) as [|spec runs]; [done|].
  split; [exact Hrt|]. eapply Forall_impl; [exact Hall|]. intros x Hx. by left.
Qed.

(** X23.  A text without an asterisk is parsed as one plain run with the
    whole text. *)
Theorem parse_markdown_plain (txt : text) :
  ch "*" ∉ txt → _parse_markdown_runs txt = [plain_spec txt].
Proof.
  intros Hno. unfold _parse_markdown_runs. destruct txt as [|c s]; [done|].
  rewrite parse_from_plain by done. rewrite app_nil_r.
  unfold flush. destruct (rev (c :: s)) as [|d r] eqn:Hrev.
  - done.
  - rewrite <- Hrev, rev_involutive. done.
Qed.

Lemma parse_markdown_plain_witness :
  _parse_markdown_runs (t "a b") = [plain_spec (t "a b")].
Proof.
  apply (parse_markdown_plain (t "a b")).
  intros Hin.
  repeat (apply elem_of_cons in Hin as [Hin|Hin]; [discriminate Hin|]).
  by apply elem_of_nil in Hin.
Defined.

(** ** Replacing the text of a paragraph *)

Lemma set_element_fresh (id : nat) (e : Element) (b : list Node) :
  id ∉ n_id <$> b → set_element id e b = b.
Proof.
  intros Hid. unfold set_element. induction b as [|n b IH]; [done|].
  rewrite fmap_cons, not_elem_of_cons in Hid. destruct Hid as [Hn Hb].
  rewrite fmap_cons, IH by done. by rewrite decide_False by congruence.
Qed.

Lemma set_element_middle (b1 b2 : list Node) (x : Node) (e : Element) :
  NoDup (n_id <$> (b1 ++ x :: b2)) →
  set_element (n_id x) e (b1 ++ x :: b2) = b1 ++ {| n_id := n_id x; n_el := e |} :: b2.
Proof.
  intros Hnd. rewrite fmap_app, fmap_cons in Hnd.
  apply NoDup_app in Hnd as (_ & H12 & Hnd2). apply NoDup_cons in Hnd2 as [Hx _].
  unfold set_element. rewrite fmap_app, fmap_cons, decide_True by done.
  fold (set_element (n_id x) e b1). fold (set_element (n_id x) e b2).
  rewrite !set_element_fresh; [done|done|].
  intros Hin. eapply H12; [exact Hin|left].
Qed.

Lemma without_runs_no_runs (items : list Inline) :
  omap inline_run (without_runs items) = [].
Proof.
  unfold without_runs. induction items as [|[r|l] items IH]; [done| |].
  - by rewrite filter_cons_False by (simpl; congruence).
  - rewrite filter_cons_True by done. exact IH.
Qed.

Lemma no_hyperlink_links (p : Paragraph) : no_hyperlink p → links_text p = [].
Proof.
  unfold no_hyperlink, links_text, without_runs. intros ->.
  induction (p_runs p) as [|r l IH]; [done|].
  cbn [map]. by rewrite filter_cons_False by (simpl; congruence).
Qed.

(** What a successful run of replace_paragraph_text saves. *)
Lemma replace_paragraph_text_run (fs : FS) (doc_path : string) (c : Content)
    (paragraph_index : Z) (new_text : text) (preserve_style parse_markdown : bool) :
  fs !! doc_path = Some (Docx c) →
  (0 ≤ paragraph_index < len (doc_paragraphs c))%Z →
  (preserve_style = false →
   assign_style (c_styles c) (t "Normal") = Ok (Some (t "Normal"))) →
  ∃ c' old new,
    replace_paragraph_text doc_path paragraph_index new_text preserve_style
      parse_markdown fs
    = (Ok (TxtReplaced paragraph_index), <[doc_path := Docx c']> fs)
    ∧ doc_paragraphs c !! Z.to_nat paragraph_index = Some old
    ∧ doc_paragraphs c' = <[Z.to_nat paragraph_index := new]> (doc_paragraphs c)
    ∧ p_style new = (if preserve_style then p_style old else Some (t "Normal"))
    ∧ p_runs new
      = (if parse_markdown then run_of_spec <$> _parse_markdown_runs new_text
         else [{| r_text := new_text; r_fmt := plain |}])
    ∧ p_items new = without_runs (p_items old) ++ map IRun (p_runs new)
    ∧ (parse_markdown = false ∨ ch "*" ∉ new_text →
       p_runs new = [{| r_text := new_text; r_fmt := plain |}]
       ∧ para_text new = links_text old ++ new_text
       ∧ (no_hyperlink old → para_text new = new_text))
    ∧ doc_tables c' = doc_tables c
    ∧ c_styles c' = c_styles c.
Proof.
  intros Hfs Hi Hnormal. unfold replace_paragraph_text.
  rewrite (bind_ok _ _ _ _ _ (path_exists_true _ _ _ Hfs)). cbn [negb].
  unfold try_except. rewrite (bind_ok _ _ _ _ _ (Document_ok _ _ _ Hfs)).
  unfold len in *. rewrite length_paragraphs_load.
  destruct (Z.ltb_spec paragraph_index 0); [lia|].
  destruct (Z.geb_spec paragraph_index (Z.of_nat (length (doc_paragraphs c)))); [lia|].
  cbn [orb].
  destruct (index_in_range (paragraphs (load c)) paragraph_index)
    as ([id old] & Hold & Hidx).
  { unfold len. rewrite length_paragraphs_load. lia. }
  rewrite (bind_ok _ _ _ _ _ (f_equal (fun r => (r, fs)) Hidx)). cbn [fst snd].
  set (runs := if parse_markdown then run_of_spec <$> _parse_markdown_runs new_text
               else [{| r_text := new_text; r_fmt := plain |}]).
  set (style := if preserve_style then p_style old else Some (t "Normal")).
  assert (Hstyle : (if preserve_style then ret (p_style old)
                    else lift (assign_style (styles (load c)) (t "Normal"))) fs
                   = (Ok style, fs)).
  { unfold style. destruct preserve_style; [done|].
    unfold lift. cbn [styles load]. by rewrite Hnormal. }
  rewrite (bind_ok _ _ _ _ _ Hstyle).
  unfold bind, save, ret.
  set (new := {| p_style := style;
                 p_items := without_runs (p_items old) ++ map IRun runs |}).
  assert (Hnruns : p_runs new = runs).
  { unfold p_runs, new. cbn [p_items]. rewrite runs_app, runs_of_runs.
    rewrite without_runs_no_runs. done. }
  destruct (split_at_paragraph_node _ _ _ _ Hold) as (b1 & x & b2 & Hb & Hxp & Ht & Hd).
  destruct (para_of_node_Some _ _ _ Hxp) as [Hx Hel].
  assert (Hbody : set_element id (EPara new) (body (load c))
                  = b1 ++ {| n_id := id; n_el := EPara new |} :: b2).
  { pose proof (load_well_formed c) as [Hnd _]. rewrite Hb in Hnd |- *. subst id.
    by apply set_element_middle. }
  eexists _, old, new. split; [reflexivity|].
  pose proof (lookup_snd _ _ _ Hold) as Hold'. rewrite paragraphs_load in Hold'.
  split; [exact Hold'|].
  split; [|split; [done|split; [done|split; [by rewrite Hnruns|split; [|split; [|done]]]]]].
  - rewrite content_paragraphs. unfold paragraphs, with_body. cbn [body].
    rewrite Hbody, omap_app, omap_cons.
    change (para_of_node {| n_id := id; n_el := EPara new |}) with (Some (id, new)).
    cbn iota. rewrite Ht, Hd, fmap_app, fmap_cons, fmap_take, fmap_drop.
    fold (paragraphs (load c)). rewrite paragraphs_load. cbn [snd].
    symmetry. apply insert_take_drop. by apply lookup_lt_Some in Hold'.
  - intros Hplain.
    assert (Hruns : runs = [{| r_text := new_text; r_fmt := plain |}]).
    { unfold runs. destruct parse_markdown; [|done].
      destruct Hplain as [?|Hno]; [done|].
      destruct new_text as [|ch0 rest]; [done|].
      assert (Hone : _parse_markdown_runs (ch0 :: rest) = [plain_spec (ch0 :: rest)]).
      { unfold _parse_markdown_runs. rewrite parse_from_plain by done.
        rewrite app_nil_r. unfold flush.
        destruct (rev (ch0 :: rest)) as [|d r] eqn:Hrev; [done|].
        by rewrite <- Hrev, rev_involutive. }
      by rewrite Hone. }
    rewrite Hnruns.
    assert (Htext : para_text new = links_text old ++ new_text).
    { unfold para_text, links_text, new. cbn [p_items].
      rewrite map_app, concat_app, text_of_runs, Hruns. cbn. by rewrite app_nil_r. }
    split; [exact Hruns|]. split; [exact Htext|].
    intros Hold0. by rewrite Htext, (no_hyperlink_links _ Hold0).
  - unfold doc_tables, content_of, with_body. cbn [c_body body].
    rewrite Hbody. change (map n_el) with (fmap (M:=list) n_el).
    rewrite (tables_insert_para b1 b2 _ new) by done.
    rewrite <- load_elements, Hb.
    symmetry. by apply (tables_insert_para b1 b2 x old).
Qed.

(** X24.  replace_paragraph_text on a valid index, with preserve_style or
    in a document that defines the style "Normal" (its styles give the
    paragraph style of that name for the string "Normal"): the saved
    document has the same paragraphs in the same places except the one at
    the index; that one keeps its style (preserve_style) or becomes
    "Normal", and its runs are the single plain run with new_text, or with
    parse_markdown the runs of the specs of _parse_markdown_runs, bold and
    italic set as parsed; they stand after the hyperlinks of the paragraph,
    which stay.  Without parse_markdown, or for a text without an asterisk,
    the text of the paragraph is new_text, after the text of its hyperlinks
    if it has any.  Tables and styles are as before. *)
Theorem replace_paragraph_text_spec (fs : FS) (doc_path : string) (c : Content)
    (paragraph_index : Z) (new_text : text) (preserve_style parse_markdown : bool) :
  fs !! doc_path = Some (Docx c) →
  (0 ≤ paragraph_index < len (doc_paragraphs c))%Z →
  (preserve_style = false →
   assign_style (c_styles c) (t "Normal") = Ok (Some (t "Normal"))) →
  ∃ c' old new,
    replace_paragraph_text doc_path paragraph_index new_text preserve_style
      parse_markdown fs
    = (Ok (TxtReplaced paragraph_index), <[doc_path := Docx c']> fs)
    ∧ doc_paragraphs c !! Z.to_nat paragraph_index = Some old
    ∧ doc_paragraphs c' = <[Z.to_nat paragraph_index := new]> (doc_paragraphs c)
    ∧ p_style new = (if preserve_style then p_style old else Some (t "Normal"))
    ∧ p_runs new
      = (if parse_markdown then run_of_spec <$> _parse_markdown_runs new_text
         else [{| r_text := new_text; r_fmt := plain |}])
    ∧ p_items new = without_runs (p_items old) ++ map IRun (p_runs new)
    ∧ (parse_markdown = false ∨ ch "*" ∉ new_text →
       p_runs new = [{| r_text := new_text; r_fmt := plain |}]
       ∧ para_text new = links_text old ++ new_text
       ∧ (no_hyperlink old → para_text new = new_text))
    ∧ doc_tables c' = doc_tables c
    ∧ c_styles c' = c_styles c.
Proof. apply replace_paragraph_text_run. Qed.

(** X25.  What replace_paragraph_text refuses: an index that is not
    [0 <= paragraph_index < total] gives the invalid-index message, a
    negative one too; and without preserve_style, in a document that does
    not define "Normal" (no style has that name or that id), the KeyError of
    the style lookup is caught.  In both cases nothing is saved. *)
Theorem replace_paragraph_text_refused (fs : FS) (doc_path : string) (c : Content)
    (paragraph_index : Z) (new_text : text) (preserve_style parse_markdown : bool) :
  fs !! doc_path = Some (Docx c) →
  ((paragraph_index < 0)%Z ∨ (len (doc_paragraphs c) ≤ paragraph_index)%Z
   ∨ (preserve_style = false
      ∧ ∀ st, st ∈ c_styles c → s_name st ≠ t "Normal" ∧ s_id st ≠ t "Normal")) →
  replace_paragraph_text doc_path paragraph_index new_text preserve_style
    parse_markdown fs
  = (Ok (if (paragraph_index <? 0)%Z || (paragraph_index >=? len (doc_paragraphs c))%Z
         then TxtInvalidIndex paragraph_index (len (doc_paragraphs c))
         else TxtFailed (KeyError (t "Normal"))), fs).
Proof.
  intros Hfs Hbad. unfold replace_paragraph_text.
  rewrite (bind_ok _ _ _ _ _ (path_exists_true _ _ _ Hfs)). cbn [negb].
  unfold try_except. rewrite (bind_ok _ _ _ _ _ (Document_ok _ _ _ Hfs)).
  unfold len in *. rewrite length_paragraphs_load.
  destruct (Z.ltb_spec paragraph_index 0); [done|].
  destruct (Z.geb_spec paragraph_index (Z.of_nat (length (doc_paragraphs c)))); [done|].
  cbn [orb]. destruct Hbad as [?|[?|[-> Hno]]]; [lia|lia|].
  destruct (index_in_range (paragraphs (load c)) paragraph_index)
    as ([id old] & Hold & Hidx).
  { unfold len. rewrite length_paragraphs_load. lia. }
  rewrite (bind_ok _ _ _ _ _ (f_equal (fun r => (r, fs)) Hidx)).
  unfold bind, lift. cbn [styles load].
  by rewrite (styles_getitem_unknown (c_styles c) (t "Normal")).
Qed.

Lemma replace_paragraph_text_spec_witness :
  ∃ c' old new,
    replace_paragraph_text "report.docx" 1 (t "new *text*") true true
      (on_disk one_section)
    = (Ok (TxtReplaced 1), <["report.docx"%string := Docx c']> (on_disk one_section))
    ∧ doc_paragraphs one_section !! 1 = Some old
    ∧ doc_paragraphs c' = <[1 := new]> (doc_paragraphs one_section)
    ∧ p_style new = p_style old
    ∧ p_runs new = run_of_spec <$> _parse_markdown_runs (t "new *text*")
    ∧ p_items new = without_runs (p_items old) ++ map IRun (p_runs new)
    ∧ (true = false ∨ ch "*" ∉ t "new *text*" →
       p_runs new = [{| r_text := t "new *text*"; r_fmt := plain |}]
       ∧ para_text new = links_text old ++ t "new *text*"
       ∧ (no_hyperlink old → para_text new = t "new *text*"))
    ∧ doc_tables c' = doc_tables one_section
    ∧ c_styles c' = c_styles one_section.
Proof.
  assert (Hi : (0 ≤ 1 < len (doc_paragraphs one_section))%Z)
    by (vm_compute; split; [discriminate|reflexivity]).
  assert (Hn : true = false →
            assign_style (c_styles one_section) (t "Normal") = Ok (Some (t "Normal")))
    by discriminate.
  exact (replace_paragraph_text_spec (on_disk one_section) "report.docx" one_section
           1 (t "new *text*") true true eq_refl Hi Hn).
Defined.

Lemma replace_paragraph_text_refused_witness :
  replace_paragraph_text "report.docx" (-1) (t "x") true false (on_disk one_section)
  = (Ok (TxtInvalidIndex (-1) 5), on_disk one_section).
Proof.
  assert (Hbad : (-1 < 0)%Z ∨ (len (doc_paragraphs one_section) ≤ -1)%Z
                 ∨ (true = false
                    ∧ ∀ st, st ∈ c_styles one_section →
                            s_name st ≠ t "Normal" ∧ s_id st ≠ t "Normal"))
    by (left; reflexivity).
  exact (replace_paragraph_text_refused (on_disk one_section) "report.docx"
           one_section (-1) (t "x") true false eq_refl Hbad).
Defined.

(** ** Other files *)

Section OtherFiles.
  Context (q : string).

Lemma keeps_ret {A} (a : A) : keeps_file q (ret a).
Proof. by intros fs r fs' [= <- <-]. Qed.

Lemma keeps_throw {A} (e : exn) : keeps_file q (@throw A e).
Proof. by intros fs r fs' [= <- <-]. Qed.

Lemma keeps_lift {A} (x : res A) : keeps_file q (lift x).
Proof. by intros fs r fs' [= <- <-]. Qed.

Lemma keeps_path_exists (doc_path : string) : keeps_file q (path_exists doc_path).
Proof. by intros fs r fs' [= <- <-]. Qed.

Lemma keeps_Document (doc_path : string) : keeps_file q (Document doc_path).
Proof. intros fs r fs'. unfold Document. repeat case_match; by intros [= <- <-]. Qed.

Lemma keeps_save (doc : Doc) (doc_path : string) :
  q ≠ doc_path → keeps_file q (save doc doc_path).
Proof. intros Hq fs r fs' [= <- <-]. by rewrite lookup_insert_ne. Qed.

Lemma keeps_bind {A B} (m : M A) (k : A → M B) :
  keeps_file q m → (∀ a, keeps_file q (k a)) → keeps_file q (bind m k).
Proof.
  intros Hm Hk fs r fs'. unfold bind.
  destruct (m fs) as [[a|e] fs1] eqn:Hrun.
  - intros Hrun2. rewrite (Hk a _ _ _ Hrun2). by apply (Hm _ _ _ Hrun).
  - intros [= <- <-]. by apply (Hm _ _ _ Hrun).
Qed.

Lemma keeps_try {A} (m : M A) (h : exn → A) :
  keeps_file q m → keeps_file q (try_except m h).
Proof.
  intros Hm fs r fs'. unfold try_except.
  destruct (m fs) as [[a|e] fs1] eqn:Hrun; intros [= <- <-]; by apply (Hm _ _ _ Hrun).
Qed.

End OtherFiles.

Create HintDb keeps.

#[local] Hint Resolve keeps_ret keeps_throw keeps_lift keeps_path_exists
  keeps_Document keeps_save keeps_try : keeps.

Ltac keeps_steps :=
  repeat first
    [ apply keeps_bind; [|intros ?]
    | apply keeps_try
    | progress eauto with keeps
    | case_match ].

(** X26.  The operations that write a document touch no other file: after
    delete_paragraph_range, replace_paragraph_range,
    replace_paragraph_block_below_header, replace_block_between_manual_anchors,
    insert_header_near_text or replace_paragraph_text on [doc_path], with
    any arguments and whatever they return or raise, every other path of
    the file system holds what it held. *)
Theorem write_operations_keep_other_files `{UnicodeData} (doc_path q : string) :
  q ≠ doc_path →
  (∀ start_index end_index,
     keeps_file q (delete_paragraph_range doc_path start_index end_index))
  ∧ (∀ start_index end_index new_paragraphs style preserve_style,
       keeps_file q (replace_paragraph_range doc_path start_index end_index
                       new_paragraphs style preserve_style))
  ∧ (∀ header_text new_paragraphs new_paragraph_style,
       keeps_file q (replace_paragraph_block_below_header doc_path header_text
                       new_paragraphs new_paragraph_style))
  ∧ (∀ start_anchor_text new_paragraphs end_anchor_text match_fn new_paragraph_style,
       keeps_file q (replace_block_between_manual_anchors doc_path start_anchor_text
                       new_paragraphs end_anchor_text match_fn new_paragraph_style))
  ∧ (∀ target_text header_title position header_style target_paragraph_index,
       keeps_file q (insert_header_near_text doc_path target_text header_title
                       position header_style target_paragraph_index))
  ∧ (∀ paragraph_index new_text preserve_style parse_markdown,
       keeps_file q (replace_paragraph_text doc_path paragraph_index new_text
                       preserve_style parse_markdown)).
Proof.
  intros Hq. repeat split; intros.
  - unfold delete_paragraph_range. keeps_steps.
  - unfold replace_paragraph_range. keeps_steps.
  - unfold replace_paragraph_block_below_header. keeps_steps.
  - unfold replace_block_between_manual_anchors. keeps_steps.
  - unfold insert_header_near_text, insert_header_at. keeps_steps.
  - unfold replace_paragraph_text. keeps_steps.
Qed.

Lemma write_operations_keep_other_files_witness :
  (∀ start_index end_index,
     keeps_file "notes.docx" (delete_paragraph_range "report.docx" start_index end_index))
  ∧ (∀ start_index end_index new_paragraphs style preserve_style,
       keeps_file "notes.docx"
         (replace_paragraph_range "report.docx" start_index end_index
            new_paragraphs style preserve_style))
  ∧ (∀ header_text new_paragraphs new_paragraph_style,
       keeps_file "notes.docx"
         (@replace_paragraph_block_below_header ascii_only "report.docx" header_text
            new_paragraphs new_paragraph_style))
  ∧ (∀ start_anchor_text new_paragraphs end_anchor_text match_fn new_paragraph_style,
       keeps_file "notes.docx"
         (@replace_block_between_manual_anchors ascii_only "report.docx"
            start_anchor_text new_paragraphs end_anchor_text match_fn
            new_paragraph_style))
  ∧ (∀ target_text header_title position header_style target_paragraph_index,
       keeps_file "notes.docx"
         (@insert_header_near_text ascii_only "report.docx" target_text header_title
            position header_style target_paragraph_index))
  ∧ (∀ paragraph_index new_text preserve_style parse_markdown,
       keeps_file "notes.docx"
         (replace_paragraph_text "report.docx" paragraph_index new_text
            preserve_style parse_markdown)).
Proof.
  apply (@write_operations_keep_other_files ascii_only "report.docx" "notes.docx").
  discriminate.
Defined.

(** ** The block under a header *)

Lemma delete_after_take {A} (l : list A) (h r : nat) :
  h + 1 + r < length l →
  delete (h + 1) (take (h + 1) l ++ drop (h + 1 + r) l)
  = take (h + 1) l ++ drop (h + 1 + (r + 1)) l.
Proof.
  intros Hlt.
  rewrite delete_take_drop.
  rewrite take_app_length' by (rewrite length_take; lia).
  f_equal. rewrite drop_app_ge by (rewrite length_take; lia).
  rewrite drop_drop, length_take. f_equal. lia.
Qed.

Section BlockRemoval.
  Context `{UnicodeData}.

(** The removal loop of delete_block_under_header from pass [a] on. *)
Lemma remove_below_loop (L : list (nat * Paragraph)) (h : nat) :
  h < length L →
  let c := (length L - h) / 2 in
  ∀ m a doc,
    well_formed doc →
    paragraphs doc = take (h + 1) L ++ drop (h + 1 + a `min` c) L →
    ∃ doc',
      for_each (map (fun k => (Z.of_nat h + 1 + Z.of_nat k)%Z) (seq a m))
        (remove_below h) (doc, a `min` c)
      = Ok (doc', (a + m) `min` c)
      ∧ well_formed doc'
      ∧ paragraphs doc' = take (h + 1) L ++ drop (h + 1 + (a + m) `min` c) L
      ∧ doc_tables (content_of doc') = doc_tables (content_of doc)
      ∧ styles doc' = styles doc.
Proof.
  intros Hh c.
  assert (Hc : 2 * c ≤ length L - h ∧ length L - h < 2 * c + 2).
  { unfold c. pose proof (Nat.div_mod_eq (length L - h) 2) as Hdm.
    pose proof (Nat.mod_upper_bound (length L - h) 2). lia. }
  clearbody c.
  induction m as [|m IH]; intros a doc Hwf Hparas.
  - exists doc. rewrite Nat.add_0_r. done.
  - cbn [seq map for_each]. unfold remove_below at 1.
    assert (Hlen : length (paragraphs doc) = length L - a `min` c).
    { rewrite Hparas, length_app, length_take, length_drop. lia. }
    unfold len. rewrite Hlen.
    destruct (decide (a < c)) as [Hlt|Hge].
    + (* the test passes: one more paragraph goes *)
      destruct (Z.ltb_spec (Z.of_nat h + 1 + Z.of_nat a)
                  (Z.of_nat (length L - a `min` c))) as [_|Hno]; [|lia].
      destruct (remove_paragraph_at_spec doc (Z.of_nat h + 1) Hwf)
        as (doc1 & Hrem & Hwf1 & Hp1 & Ht1 & Hs1 & _).
      { unfold len. rewrite Hlen. lia. }
      rewrite Hrem. cbn [res_bind].
      replace (a `min` c + 1) with (S a `min` c) by lia.
      destruct (IH (S a) doc1 Hwf1) as (doc' & Hfor & Hwf' & Hp' & Ht' & Hs').
      { rewrite Hp1, Hparas.
        replace (Z.to_nat (Z.of_nat h + 1)) with (h + 1) by lia.
        rewrite delete_after_take by lia. do 2 f_equal. lia. }
      rewrite <- seq_shift, map_map in Hfor |- *.
      exists doc'. replace (a + S m) with (S a + m) by lia.
      split; [exact Hfor|]. split; [done|]. split; [done|].
      split; congruence.
    + (* the test fails from here on *)
      destruct (Z.ltb_spec (Z.of_nat h + 1 + Z.of_nat a)
                  (Z.of_nat (length L - a `min` c))) as [Hyes|_]; [lia|].
      cbn [res_bind].
      replace (a `min` c) with (S a `min` c) in Hparas |- * by lia.
      destruct (IH (S a) doc Hwf Hparas) as (doc' & Hfor & Hwf' & Hp' & Ht' & Hs').
      exists doc'. replace (a + S m) with (S a + m) by lia. done.
Qed.

(** X27.  delete_block_under_header on a document in which the header
    search gives the paragraph at index [h]: with [n] paragraphs in the body
    and a block of [span] paragraphs between the header and the next
    heading or TOC paragraph (or the end), the loop removes the first
    [min span ((n - h) / 2)] paragraphs of the block and no more, because
    its test [i < len(doc.paragraphs)] compares a growing index with a
    shrinking list; no call raises.  The block goes completely only when at
    least [span - 1] paragraphs follow it. *)
Theorem delete_block_under_header_count (doc : Doc) (header_text : text)
    (h id : nat) (p : Paragraph) :
  well_formed doc →
  find_header_for_delete (paragraphs doc) header_text = Some (h, (id, p)) →
  let ps := snd <$> paragraphs doc in
  let n := length ps in
  let span :=
    match first_match ends_block (drop (h + 1) ps) with
    | Some (k, _) => k
    | None => n - (h + 1)
    end in
  let removed := span `min` ((n - h) / 2) in
  ∃ doc',
    delete_block_under_header doc header_text = Ok (doc', Some id, removed)
    ∧ snd <$> paragraphs doc' = take (h + 1) ps ++ drop (h + 1 + removed) ps
    ∧ doc_tables (content_of doc') = doc_tables (content_of doc)
    ∧ (removed = span ↔ 2 * span ≤ n - h).
Proof.
  intros Hwf Hfind ps n span removed.
  assert (Hh : h < length (paragraphs doc)).
  { unfold find_header_for_delete in Hfind.
    destruct (first_match _ (paragraphs doc)) as [r|] eqn:H1.
    - injection Hfind as ->. apply first_match_Some in H1 as (Hl & _).
      by apply lookup_lt_Some in Hl.
    - apply first_match_Some in Hfind as (Hl & _). by apply lookup_lt_Some in Hl. }
  assert (Hn : n = length (paragraphs doc)) by (unfold n, ps; apply length_fmap).
  (* the end of the block, as the code finds it *)
  assert (Hend : match first_match (fun q => ends_block (snd q))
                         (drop (h + 1) (paragraphs doc)) with
                 | Some (k, _) => Z.of_nat (h + 1 + k)
                 | None => len (paragraphs doc)
                 end = Z.of_nat (h + 1 + span) ∧ h + 1 + span ≤ n).
  { unfold span, ps. rewrite <- fmap_drop, first_match_fmap.
    destruct (first_match (fun q => ends_block (snd q))
                (drop (h + 1) (paragraphs doc))) as [[k y]|] eqn:Hm; cbn.
    - apply first_match_Some in Hm as (Hy & _). apply lookup_lt_Some in Hy.
      rewrite length_drop in Hy. split; [done|lia].
    - unfold len. split; lia. }
  destruct Hend as [Hend Hspan].
  unfold delete_block_under_header. rewrite Hfind, Hend.
  unfold PyStr.range.
  replace (Z.to_nat (Z.of_nat (h + 1 + span) - (Z.of_nat h + 1))) with span by lia.
  destruct (remove_below_loop (paragraphs doc) h Hh span 0 doc Hwf)
    as (doc' & Hfor & Hwf' & Hp' & Ht' & Hs').
  { cbn [Nat.min]. by rewrite Nat.add_0_r, take_drop. }
  cbn [Nat.min Nat.add] in Hfor. rewrite Hfor. cbn [res_bind fst snd].
  rewrite <- Hn in *. exists doc'. split; [done|]. split; [|split; [done|]].
  - rewrite Hp', fmap_app, fmap_take, fmap_drop. done.
  - unfold removed.
    pose proof (Nat.div_mod_eq (n - h) 2). pose proof (Nat.mod_upper_bound (n - h) 2).
    lia.
Qed.

End BlockRemoval.

Section BlockSamples.
  #[local] Existing Instance ascii_only.

Lemma delete_block_under_header_count_witness :
  let ps := snd <$> paragraphs (load one_section) in
  ∃ doc',
    delete_block_under_header (load one_section) (t "Summary") = Ok (doc', Some 0, 2)
    ∧ snd <$> paragraphs doc' = take 1 ps ++ drop 3 ps
    ∧ doc_tables (content_of doc') = doc_tables (content_of (load one_section))
    ∧ (2 = 4 ↔ 2 * 4 ≤ 5 - 0).
Proof.
  exact (delete_block_under_header_count (load one_section) (t "Summary") 0 0
           (ex_para "Heading 1" [ex_run "Summary"])
           (load_well_formed one_section) eq_refl).
Defined.

End BlockSamples.

(** ** The tests for a TOC paragraph *)

Section TocTests.
  Context `{UnicodeData}.

Lemma ascii_letter_fold (up c : char) :
  (65 ≤ up ≤ 90)%N →
  bool_decide (up = ascii_upper c) = bool_decide ((up + 32)%N = ascii_lower c).
Proof.
  intros Hup. apply bool_decide_ext. unfold ascii_upper, ascii_lower.
  destruct (N.leb_spec 97 c), (N.leb_spec c 122), (N.leb_spec 65 c), (N.leb_spec c 90);
    cbn [andb]; lia.
Qed.

Lemma startswith_single (d x : char) (rest p : text) :
  PyStr.startswith ([d] ++ rest) (x :: p)
  = bool_decide (x = d) && PyStr.startswith rest p.
Proof. reflexivity. Qed.

Lemma startswith_without (u rest p : text) (x : char) :
  u ≠ [] → x ∉ u → PyStr.startswith (u ++ rest) (x :: p) = false.
Proof.
  destruct u as [|d u]; [done|]. intros _ Hx. cbn [app PyStr.startswith].
  rewrite bool_decide_eq_false_2; [done|]. intros ->. apply Hx. by left.
Qed.

Lemma startswith_not_alone (u rest p : text) (x y : char) :
  u ≠ [] → u ≠ [x] → y ∉ u → PyStr.startswith (u ++ rest) (x :: y :: p) = false.
Proof.
  destruct u as [|d [|d' u]]; [done| |].
  - intros _ Hne _. cbn [app PyStr.startswith].
    rewrite bool_decide_eq_false_2; [done|]. by intros ->.
  - intros _ _ Hy. cbn [app PyStr.startswith].
    destruct (bool_decide (x = d)); [|done]. cbn [andb].
    rewrite bool_decide_eq_false_2; [done|]. intros ->. apply Hy. right. by left.
Qed.

(** One letter of the prefix: an ASCII character passes both tests or
    none; another character passes none, whatever follows. *)
Lemma fold_letter (up : char) (p_up p_lo : text) (before : text) (c : char) (rest : text) :
  (65 ≤ up ≤ 90)%N →
  (∀ d, (128 ≤ d)%N → up ∉ to_upper d) →
  (∀ b d a, (128 ≤ d)%N → (up + 32)%N ∉ to_lower b d a) →
  PyStr.startswith (PyStr.upper rest) p_up
  = PyStr.startswith (PyStr.lower_from (c :: before) rest) p_lo →
  PyStr.startswith (PyStr.upper (c :: rest)) (up :: p_up)
  = PyStr.startswith (PyStr.lower_from before (c :: rest)) ((up + 32)%N :: p_lo).
Proof.
  intros Hup Hupper Hlower Hrest.
  change (PyStr.upper (c :: rest)) with (to_upper c ++ PyStr.upper rest).
  cbn [PyStr.lower_from].
  destruct (decide (c < 128)%N) as [Hc|Hc].
  - rewrite to_upper_ascii, (to_lower_ascii before c rest) by done.
    rewrite !startswith_single, Hrest. f_equal. by apply ascii_letter_fold.
  - destruct (to_upper_other c) as (Hne & _); [lia|].
    destruct (to_lower_other before c rest) as (Hne' & _); [lia|].
    rewrite !startswith_without; [done|done|apply Hlower; lia|done|apply Hupper; lia].
Qed.

Lemma startswith_toc_fold (name : text) :
  PyStr.startswith (PyStr.upper name) (t "TOC")
  = PyStr.startswith (PyStr.lower name) (t "toc").
Proof.
  assert (HO : ∀ d, (128 ≤ d)%N → ch "O" ∉ to_upper d).
  { intros d Hd. by destruct (to_upper_other d Hd) as (_ & _ & ? & _). }
  assert (HC : ∀ d, (128 ≤ d)%N → ch "C" ∉ to_upper d).
  { intros d Hd. by destruct (to_upper_other d Hd) as (_ & _ & _ & ?). }
  assert (Ht : ∀ b d a, (128 ≤ d)%N → ch "t" ∉ to_lower b d a).
  { intros b d a Hd. by destruct (to_lower_other b d a Hd) as (_ & ? & _). }
  assert (Ho : ∀ b d a, (128 ≤ d)%N → ch "o" ∉ to_lower b d a).
  { intros b d a Hd. by destruct (to_lower_other b d a Hd) as (_ & _ & ? & _). }
  assert (Hc : ∀ b d a, (128 ≤ d)%N → ch "c" ∉ to_lower b d a).
  { intros b d a Hd. by destruct (to_lower_other b d a Hd) as (_ & _ & _ & ?). }
  assert (Hrange : ∀ a, (65 ≤ a ≤ 90)%N → (65 <= a <= 90)%N) by done.
  (* the last two letters *)
  assert (HOC : ∀ before s,
    PyStr.startswith (PyStr.upper s) (t "OC")
    = PyStr.startswith (PyStr.lower_from before s) (t "oc")).
  { intros before s. destruct s as [|c2 s]; [done|].
    apply (fold_letter (ch "O") (t "C") (t "c") before c2 s);
      [unfold ch; simpl; lia|exact HO|exact Ho|].
    destruct s as [|c3 s]; [done|].
    apply (fold_letter (ch "C") [] [] (c2 :: before) c3 s);
      [unfold ch; simpl; lia|exact HC|exact Hc|done]. }
  unfold PyStr.lower. destruct name as [|c1 rest]; [done|].
  change (PyStr.upper (c1 :: rest)) with (to_upper c1 ++ PyStr.upper rest).
  cbn [PyStr.lower_from].
  destruct (decide (c1 < 128)%N) as [H1|H1].
  - rewrite to_upper_ascii, (to_lower_ascii [] c1 rest) by done.
    change (t "TOC") with (ch "T" :: t "OC").
    change (t "toc") with ((ch "T" + 32)%N :: t "oc").
    rewrite !startswith_single, (HOC [c1] rest). f_equal.
    apply ascii_letter_fold. unfold ch; simpl; lia.
  - destruct (to_upper_other c1) as (Hne & HT & HO1 & _); [lia|].
    destruct (to_lower_other [] c1 rest) as (Hne' & Ht1 & _); [lia|].
    change (t "TOC") with (ch "T" :: ch "O" :: t "C").
    change (t "toc") with (ch "t" :: t "oc").
    by rewrite startswith_not_alone, startswith_without.
Qed.

(** X29.  The three tests for a TOC paragraph.  The one of the header
    operations ([is_toc_paragraph], upper case) and the one of the insertion
    operations (lower case) agree on every paragraph.  The one of
    find_and_replace_text compares the style name as it is: what it skips,
    the others skip too, but not the other way round: a paragraph styled
    "toc 1" is a TOC paragraph for the header and insertion operations and is
    searched and changed by find_and_replace_text. *)
Theorem toc_tests_compared :
  (∀ p, is_toc_paragraph p = is_toc_lower p)
  ∧ (∀ p, skips_toc p = true → is_toc_paragraph p = true)
  ∧ (∀ items, let p := {| p_style := Some (t "toc 1"); p_items := items |} in
       is_toc_paragraph p = true ∧ is_toc_lower p = true ∧ skips_toc p = false
       ∧ ∀ fuel old_text new_text,
           replace_in fuel old_text new_text p
           = (if PyStr.contains (para_text p) old_text
              then _replace_in_paragraph fuel p old_text new_text
              else Some (Ok (0, p)))).
Proof.
  split; [|split].
  - intros p. unfold is_toc_paragraph, is_toc_lower.
    destruct (p_style p) as [name|]; [|done]. apply startswith_toc_fold.
  - apply skips_toc_is_toc.
  - intros items p.
    assert (Hlow : is_toc_lower p = true).
    { unfold is_toc_lower, p. cbn [p_style]. unfold PyStr.lower.
      cbn [t list_ascii_of_string map PyStr.lower_from].
      rewrite !to_lower_ascii by (vm_compute; reflexivity). reflexivity. }
    assert (Hup : is_toc_paragraph p = true).
    { unfold is_toc_paragraph, p. cbn [p_style]. by rewrite startswith_toc_fold. }
    repeat split; done.
Qed.

End TocTests.

(** ** Writing, then reading *)

(** X30.  After replace_paragraph_text with preserve_style, without
    parse_markdown or for a text without an asterisk, get_paragraph_text at
    the same index returns new_text (after the text of the hyperlinks of the
    paragraph, if it has any) with the style and the heading flag the
    paragraph had; at every other index it returns what it returned
    before. *)
Theorem replace_then_read (fs : FS) (doc_path : string) (c : Content)
    (paragraph_index : Z) (new_text : text) (parse_markdown : bool) :
  fs !! doc_path = Some (Docx c) →
  (0 ≤ paragraph_index < len (doc_paragraphs c))%Z →
  parse_markdown = false ∨ ch "*" ∉ new_text →
  ∃ fs' old,
    replace_paragraph_text doc_path paragraph_index new_text true parse_markdown fs
    = (Ok (TxtReplaced paragraph_index), fs')
    ∧ doc_paragraphs c !! Z.to_nat paragraph_index = Some old
    ∧ get_paragraph_text doc_path paragraph_index fs'
      = (Ok (inr {| i_index := paragraph_index;
                    i_text := links_text old ++ new_text;
                    i_style := default (t "Normal") (p_style old);
                    i_is_heading := is_Heading old |}), fs')
    ∧ (no_hyperlink old → links_text old = [])
    ∧ ∀ j, j ≠ paragraph_index →
        fst (get_paragraph_text doc_path j fs') = fst (get_paragraph_text doc_path j fs).
Proof.
  intros Hfs Hi Hplain.
  destruct (replace_paragraph_text_run fs doc_path c paragraph_index new_text true
              parse_markdown Hfs Hi ltac:(done))
    as (c' & old & new & Hrun & Hold & Hparas & Hstyle & _ & _ & Htext & _ & _).
  destruct (Htext Hplain) as (_ & Htext' & _).
  assert (Hfs' : <[doc_path := Docx c']> fs !! doc_path = Some (Docx c'))
    by apply lookup_insert_eq.
  exists (<[doc_path := Docx c']> fs), old. split; [done|]. split; [done|].
  pose proof (lookup_lt_Some _ _ _ Hold) as Hlt.
  split; [|split].
  - rewrite (get_paragraph_text_run _ _ c') by done.
    destruct (Z.leb_spec 0 paragraph_index); [|lia].
    rewrite Hparas, list_lookup_insert_eq by done.
    unfold paragraph_info, is_Heading. by rewrite Htext', Hstyle.
  - apply no_hyperlink_links.
  - intros j Hj.
    rewrite (get_paragraph_text_run _ _ c'), (get_paragraph_text_run _ _ c) by done.
    cbn [fst]. f_equal. unfold len. rewrite Hparas, length_insert.
    destruct (Z.leb_spec 0 j); [|done].
    rewrite list_lookup_insert_ne by lia. done.
Qed.

Lemma replace_then_read_witness :
  ∃ fs' old,
    replace_paragraph_text "report.docx" 0 (t "Overview") true false
      (on_disk one_section)
    = (Ok (TxtReplaced 0), fs')
    ∧ doc_paragraphs one_section !! 0 = Some old
    ∧ get_paragraph_text "report.docx" 0 fs'
      = (Ok (inr {| i_index := 0;
                    i_text := links_text old ++ t "Overview";
                    i_style := default (t "Normal") (p_style old);
                    i_is_heading := is_Heading old |}), fs')
    ∧ (no_hyperlink old → links_text old = [])
    ∧ ∀ j, j ≠ 0%Z →
        fst (get_paragraph_text "report.docx" j fs')
        = fst (get_paragraph_text "report.docx" j (on_disk one_section)).
Proof.
  assert (Hi : (0 ≤ 0 < len (doc_paragraphs one_section))%Z)
    by (vm_compute; split; [discriminate|reflexivity]).
  assert (Hplain : false = false ∨ ch "*" ∉ t "Overview") by (left; reflexivity).
  exact (replace_then_read (on_disk one_section) "report.docx" one_section 0
           (t "Overview") false eq_refl Hi Hplain).
Defined.
